(** * A shallow embedding of [QA_char_word_embed/layers.py]

    The layers of the BiDAF reading-comprehension model (embedding,
    character CNN, highway encoder, RNN encoder, bidirectional attention),
    translated from the PyTorch source.

    Modelling conventions.
    - Scalars are the real numbers of the Standard Library ([R]).
    - A tensor is its shape together with an entry function, the way torch
      stores a shape next to its storage: [Tensor2] and [Tensor3] below.
      Entries outside the shape are never read by the operations.
    - Operations that torch rejects (shape mismatches, out-of-range indices,
      bad dropout probabilities) return [None].
    - Dropout draws from a random generator: forward passes run in the
      monad [M], a state monad over the generator [Gen] with failure.
    - The torch library functions (Linear, Conv1d, expand, matmul, bmm,
      cat, view, pack_padded_sequence, pad_packed_sequence, sort) are
      modelled after their documented behaviour; the learned recurrent
      computations of the torch and repository RNN cells are parameters. *)

From Stdlib Require Import Reals Lra Lia FunctionalExtensionality.
From Stdlib Require Import String.
From stdpp Require Import base list sorting.

Open Scope R_scope.

(** ** Tensors *)

Record Tensor2 (A : Type) := mkT2 {
  t2_rows : nat;
  t2_cols : nat;
  t2_at : nat -> nat -> A }.

Record Tensor3 (A : Type) := mkT3 {
  sz0 : nat;
  sz1 : nat;
  sz2 : nat;
  at3 : nat -> nat -> nat -> A }.

Arguments mkT2 {A} _ _ _.
Arguments t2_rows {A} _.
Arguments t2_cols {A} _.
Arguments t2_at {A} _ _ _.
Arguments mkT3 {A} _ _ _ _.
Arguments sz0 {A} _.
Arguments sz1 {A} _.
Arguments sz2 {A} _.
Arguments at3 {A} _ _ _ _.

(** [sumR n f] is the sum of [f k] for [k < n]. *)
Fixpoint sumR (n : nat) (f : nat -> R) : R :=
  match n with
  | O => 0
  | S m => sumR m f + f m
  end.

Definition sigmoid (x : R) : R := / (1 + exp (- x)).

Definition relu (x : R) : R := Rmax 0 x.

(** Elementwise map of a tensor (a unary torch operation). *)
Definition tmap3 (f : R -> R) (x : Tensor3 R) : Tensor3 R :=
  mkT3 (sz0 x) (sz1 x) (sz2 x) (fun b i k => f (at3 x b i k)).

(** Broadcasting of two sizes and of an index into a size-1 dimension. *)
Definition bcast_dim (a b : nat) : option nat :=
  if Nat.eqb a b then Some a
  else if Nat.eqb a 1 then Some b
  else if Nat.eqb b 1 then Some a
  else None.

Definition bidx (s i : nat) : nat := if Nat.eqb s 1 then O else i.

(** Broadcasting elementwise binary operation ([x * y], [x + y]). *)
Definition zip_with3 (f : R -> R -> R) (x y : Tensor3 R) : option (Tensor3 R) :=
  match bcast_dim (sz0 x) (sz0 y), bcast_dim (sz1 x) (sz1 y), bcast_dim (sz2 x) (sz2 y) with
  | Some n0, Some n1, Some n2 =>
      Some (mkT3 n0 n1 n2 (fun b i k =>
        f (at3 x (bidx (sz0 x) b) (bidx (sz1 x) i) (bidx (sz2 x) k))
          (at3 y (bidx (sz0 y) b) (bidx (sz1 y) i) (bidx (sz2 y) k))))
  | _, _, _ => None
  end.

Definition tmul3 := zip_with3 Rmult.
Definition tadd3 := zip_with3 Rplus.

(** [Tensor.expand]: [None] stands for the size [-1] (keep the dimension). *)
Definition expand_dim (s : nat) (e : option nat) : option nat :=
  match e with
  | None => Some s
  | Some n => if Nat.eqb s n then Some n else if Nat.eqb s 1 then Some n else None
  end.

Definition expand3 (x : Tensor3 R) (e0 e1 e2 : option nat) : option (Tensor3 R) :=
  match expand_dim (sz0 x) e0, expand_dim (sz1 x) e1, expand_dim (sz2 x) e2 with
  | Some n0, Some n1, Some n2 =>
      Some (mkT3 n0 n1 n2 (fun b i k =>
        at3 x (bidx (sz0 x) b) (bidx (sz1 x) i) (bidx (sz2 x) k)))
  | _, _, _ => None
  end.

(** [x.transpose(1, 2)]. *)
Definition transpose12 {A} (x : Tensor3 A) : Tensor3 A :=
  mkT3 (sz0 x) (sz2 x) (sz1 x) (fun b i j => at3 x b j i).

(** [torch.matmul] of a batch of matrices by one matrix. *)
Definition matmul32 (x : Tensor3 R) (w : Tensor2 R) : option (Tensor3 R) :=
  if Nat.eqb (sz2 x) (t2_rows w) then
    Some (mkT3 (sz0 x) (sz1 x) (t2_cols w) (fun b i j =>
      sumR (sz2 x) (fun k => at3 x b i k * t2_at w k j)))
  else None.

(** [torch.matmul] of two batches of matrices (the batch dimension
    broadcasts). *)
Definition matmul33 (x y : Tensor3 R) : option (Tensor3 R) :=
  match bcast_dim (sz0 x) (sz0 y) with
  | Some n0 =>
      if Nat.eqb (sz2 x) (sz1 y) then
        Some (mkT3 n0 (sz1 x) (sz2 y) (fun b i j =>
          sumR (sz2 x) (fun k => at3 x (bidx (sz0 x) b) i k * at3 y (bidx (sz0 y) b) k j)))
      else None
  | None => None
  end.

(** [torch.bmm]: no broadcasting. *)
Definition bmm (x y : Tensor3 R) : option (Tensor3 R) :=
  if Nat.eqb (sz0 x) (sz0 y) && Nat.eqb (sz2 x) (sz1 y) then
    Some (mkT3 (sz0 x) (sz1 x) (sz2 y) (fun b i j =>
      sumR (sz2 x) (fun k => at3 x b i k * at3 y b k j)))
  else None.

(** [torch.cat(xs, dim=2)]. *)
Definition cat_last2 {A} (x y : Tensor3 A) : option (Tensor3 A) :=
  if Nat.eqb (sz0 x) (sz0 y) && Nat.eqb (sz1 x) (sz1 y) then
    Some (mkT3 (sz0 x) (sz1 x) (sz2 x + sz2 y) (fun b i k =>
      if Nat.ltb k (sz2 x) then at3 x b i k else at3 y b i (k - sz2 x)))
  else None.

Fixpoint cat_last {A} (xs : list (Tensor3 A)) : option (Tensor3 A) :=
  match xs with
  | [] => None
  | [x] => Some x
  | x :: rest =>
      match cat_last rest with
      | Some r => cat_last2 x r
      | None => None
      end
  end.

(** ** Failure and randomness *)

(** The random generator: how many draws were made, and the stream of
    uniform samples in [0, 1) it produces (draw number, then index). *)
Record Gen := mkGen {
  gen_draws : nat;
  gen_uniform : nat -> nat -> nat -> nat -> R }.

Definition M (A : Type) : Type := Gen -> option (A * Gen).

Definition retM {A} (a : A) : M A := fun g => Some (a, g).

Definition bindM {A B} (m : M A) (k : A -> M B) : M B :=
  fun g => match m g with
           | Some (a, g') => k a g'
           | None => None
           end.

Definition liftM {A} (o : option A) : M A :=
  fun g => match o with
           | Some a => Some (a, g)
           | None => None
           end.

Notation "'let!' x ':=' m 'in' k" := (bindM m (fun x => k))
  (at level 200, x name, m at level 100, k at level 200).

Notation "'let?' x ':=' m 'in' k" :=
  (match m with Some x => k | None => None end)
  (at level 200, x name, m at level 100, k at level 200).

(** [F.dropout(x, p, training)]: rejects [p] outside [0, 1]; in training
    mode it zeroes each entry whose sample falls below [p] and scales the
    others by [1 / (1 - p)]; otherwise it returns its input. *)
Definition dropout (p : R) (training : bool) (x : Tensor3 R) : M (Tensor3 R) :=
  fun g =>
    if Rlt_dec p 0 then None
    else if Rlt_dec 1 p then None
    else if training then
      Some (mkT3 (sz0 x) (sz1 x) (sz2 x) (fun b i k =>
              if Rlt_dec (gen_uniform g (gen_draws g) b i k) p then 0
              else at3 x b i k / (1 - p)),
            mkGen (S (gen_draws g)) (gen_uniform g))
    else Some (x, g).

(** ** [BiDAFAttention] *)

Record BiDAFAttention := mkBiDAFAttention {
  att_drop_prob : R;
  c_weight : Tensor2 R;   (* (hidden_size, 1) *)
  q_weight : Tensor2 R;   (* (hidden_size, 1) *)
  cq_weight : Tensor3 R;  (* (1, 1, hidden_size) *)
  att_bias : R }.         (* shape (1,) *)

(** The constructor fixes the parameter shapes; the parameter values are
    the learned ones. *)
Definition BiDAFAttention_init (hidden_size : nat) (drop_prob : R)
    (cw qw cqw : nat -> R) (bias : R) : BiDAFAttention :=
  mkBiDAFAttention drop_prob
    (mkT2 hidden_size 1 (fun k _ => cw k))
    (mkT2 hidden_size 1 (fun k _ => qw k))
    (mkT3 1 1 hidden_size (fun _ _ k => cqw k))
    bias.

Definition get_similarity_matrix (att : BiDAFAttention) (training : bool)
    (c q : Tensor3 R) : M (Tensor3 R) :=
  let c_len := sz1 c in
  let q_len := sz1 q in
  let! c := dropout (att_drop_prob att) training c in
  let! q := dropout (att_drop_prob att) training q in
  liftM (
    let? m0 := matmul32 c (c_weight att) in
    let? s0 := expand3 m0 None None (Some q_len) in
    let? m1 := matmul32 q (q_weight att) in
    let? s1 := expand3 (transpose12 m1) None (Some c_len) None in
    let? cw := tmul3 c (cq_weight att) in
    let? s2 := matmul33 cw (transpose12 q) in
    let? s01 := tadd3 s0 s1 in
    let? s012 := tadd3 s01 s2 in
    Some (tmap3 (fun v => v + att_bias att) s012)).

(** [mask.view(a, b, c)] of a two-dimensional mask (row-major reshape). *)
Definition view3_of2 {A} (m : Tensor2 A) (a b c : nat) : option (Tensor3 A) :=
  if Nat.eqb (t2_rows m * t2_cols m)%nat (a * b * c)%nat then
    Some (mkT3 a b c (fun i j k =>
      let n := (i * b * c + j * c + k)%nat in
      t2_at m (n / t2_cols m)%nat (n mod t2_cols m)%nat))
  else None.

(** One entry of a softmax restricted to the valid positions [m] of a row
    [v] of length [n]; invalid positions get zero mass, so a row with no
    valid position is the zero vector. *)
Definition softmax_entry (n : nat) (v : nat -> R) (m : nat -> bool) (k : nat) : R :=
  let z := sumR n (fun k' => if m k' then exp (v k') else 0) in
  if m k then exp (v k) / z else 0.

(** Modelled from the spec: [util.masked_softmax] (util.py is not part of
    the sources). Section 4.5 of the spec: positions marked invalid by the
    mask receive exactly zero mass; the all-invalid row is represented by
    the zero vector (the convention the spec gives as its example). The
    mask broadcasts against the logits, as the calls in
    [BiDAFAttention.forward] require. [dim] is 1 or 2. *)
Definition masked_softmax (logits : Tensor3 R) (mask : Tensor3 bool) (dim : nat)
    : option (Tensor3 R) :=
  match bcast_dim (sz0 logits) (sz0 mask), bcast_dim (sz1 logits) (sz1 mask),
        bcast_dim (sz2 logits) (sz2 mask) with
  | Some n0, Some n1, Some n2 =>
      let lg b i k := at3 logits (bidx (sz0 logits) b) (bidx (sz1 logits) i) (bidx (sz2 logits) k) in
      let mk b i k := at3 mask (bidx (sz0 mask) b) (bidx (sz1 mask) i) (bidx (sz2 mask) k) in
      if Nat.eqb dim 2 then
        Some (mkT3 n0 n1 n2 (fun b i k =>
          softmax_entry n2 (fun k' => lg b i k') (fun k' => mk b i k') k))
      else if Nat.eqb dim 1 then
        Some (mkT3 n0 n1 n2 (fun b i k =>
          softmax_entry n1 (fun i' => lg b i' k) (fun i' => mk b i' k) i))
      else None
  | _, _, _ => None
  end.

Definition BiDAFAttention_forward (att : BiDAFAttention) (training : bool)
    (c q : Tensor3 R) (c_mask q_mask : Tensor2 bool) : M (Tensor3 R) :=
  let batch_size := sz0 c in
  let c_len := sz1 c in
  let q_len := sz1 q in
  let! s := get_similarity_matrix att training c q in
  liftM (
    let? c_mask := view3_of2 c_mask batch_size c_len 1 in
    let? q_mask := view3_of2 q_mask batch_size 1 q_len in
    let? s1 := masked_softmax s q_mask 2 in
    let? s2 := masked_softmax s c_mask 1 in
    let? a := bmm s1 q in
    let? s1s2 := bmm s1 (transpose12 s2) in
    let? b := bmm s1s2 c in
    let? ca := tmul3 c a in
    let? cb := tmul3 c b in
    cat_last [c; a; ca; cb]).

(** Equality of two tensors as torch sees it: same shape, same entries
    inside the shape. *)
Definition teq3 (x y : Tensor3 R) : Prop :=
  sz0 x = sz0 y /\ sz1 x = sz1 y /\ sz2 x = sz2 y /\
  forall b i k, (b < sz0 x)%nat -> (i < sz1 x)%nat -> (k < sz2 x)%nat ->
    at3 x b i k = at3 y b i k.

(** The fusion of section 4.5 of the spec, written from its words:
    [context; a; context * a; context * b] along the feature axis, with
    [a = s1 x query] and [b = s1 x s2^T x context]. *)
Definition bidaf_fusion_spec (c q s1 s2 : Tensor3 R) : Tensor3 R :=
  let H := sz2 c in
  mkT3 (sz0 c) (sz1 c) (4 * H)%nat (fun b i k =>
    let a k' := sumR (sz1 q) (fun j => at3 s1 b i j * at3 q b j k') in
    let bb k' := sumR (sz1 c) (fun i' =>
                   sumR (sz1 q) (fun j => at3 s1 b i j * at3 s2 b i' j) * at3 c b i' k') in
    if Nat.ltb k H then at3 c b i k
    else if Nat.ltb k (2 * H) then a (k - H)%nat
    else if Nat.ltb k (3 * H) then at3 c b i (k - 2 * H)%nat * a (k - 2 * H)%nat
    else at3 c b i (k - 3 * H)%nat * bb (k - 3 * H)%nat).

(** The two normalisations of the similarity matrix named by the spec:
    over the query axis with the query mask, and over the context axis
    with the context mask. *)
Definition normalize_query (s : Tensor3 R) (q_mask : Tensor2 bool) : Tensor3 R :=
  mkT3 (sz0 s) (sz1 s) (sz2 s) (fun b i j =>
    softmax_entry (sz2 s) (fun j' => at3 s b i j') (fun j' => t2_at q_mask b j') j).

Definition normalize_context (s : Tensor3 R) (c_mask : Tensor2 bool) : Tensor3 R :=
  mkT3 (sz0 s) (sz1 s) (sz2 s) (fun b i j =>
    softmax_entry (sz1 s) (fun i' => at3 s b i' j) (fun i' => t2_at c_mask b i') i).

(** ** [nn.Linear], [HighwayEncoder] *)

(** [nn.Linear(in, out, bias)]: [y = x W^T + b] on the last dimension. *)
Record Linear := mkLinear {
  lin_in : nat;
  lin_out : nat;
  lin_w : nat -> nat -> R;        (* (out, in) *)
  lin_b : option (nat -> R) }.

Definition Linear_forward (l : Linear) (x : Tensor3 R) : option (Tensor3 R) :=
  if Nat.eqb (sz2 x) (lin_in l) then
    Some (mkT3 (sz0 x) (sz1 x) (lin_out l) (fun b i o =>
      sumR (lin_in l) (fun k => at3 x b i k * lin_w l o k)
      + match lin_b l with Some bv => bv o | None => 0 end))
  else None.

(** Learned values of one [nn.Linear(hidden_size, hidden_size)]: weight
    and bias. *)
Definition LinearParams : Type := ((nat -> nat -> R) * (nat -> R))%type.

Record HighwayEncoder := mkHighwayEncoder {
  hw_transforms : list Linear;
  hw_gates : list Linear }.

(** [HighwayEncoder(num_layers, hidden_size)]: [num_layers] transforms and
    [num_layers] gates, each an [nn.Linear(hidden_size, hidden_size)] with
    a bias; [gate_p l] and [transform_p l] are the learned values of
    layer [l]. *)
Definition HighwayEncoder_init (num_layers hidden_size : nat)
    (gate_p transform_p : nat -> LinearParams) : HighwayEncoder :=
  mkHighwayEncoder
    (map (fun l => mkLinear hidden_size hidden_size (fst (transform_p l)) (Some (snd (transform_p l))))
         (seq 0 num_layers))
    (map (fun l => mkLinear hidden_size hidden_size (fst (gate_p l)) (Some (snd (gate_p l))))
         (seq 0 num_layers)).

(** The loop body of [HighwayEncoder.forward], for one (gate, transform)
    pair, followed by the rest of the loop. *)
Fixpoint highway_loop (layers : list (Linear * Linear)) (x : Tensor3 R)
    : option (Tensor3 R) :=
  match layers with
  | [] => Some x
  | (gate, transform) :: rest =>
      let? gx := Linear_forward gate x in
      let g := tmap3 sigmoid gx in
      let? tx := Linear_forward transform x in
      let t := tmap3 relu tx in
      let? gt := tmul3 g t in
      let? cx := tmul3 (tmap3 (fun v => 1 - v) g) x in
      let? x' := tadd3 gt cx in
      highway_loop rest x'
  end.

Definition HighwayEncoder_forward (hw : HighwayEncoder) (x : Tensor3 R)
    : option (Tensor3 R) :=
  highway_loop (zip (hw_gates hw) (hw_transforms hw)) x.

(** The highway layer as section 4.2 of the spec states it, per position
    and feature: [g * t + (1 - g) * x] with [g = sigmoid(gate(x))] and
    [t = relu(transform(x))]. *)
Definition highway_layer_spec (gp tp : LinearParams) (x : Tensor3 R) : Tensor3 R :=
  mkT3 (sz0 x) (sz1 x) (sz2 x) (fun b i k =>
    let g := sigmoid (sumR (sz2 x) (fun m => fst gp k m * at3 x b i m) + snd gp k) in
    let t := relu (sumR (sz2 x) (fun m => fst tp k m * at3 x b i m) + snd tp k) in
    g * t + (1 - g) * at3 x b i k).

(** The [n]-fold composition of the spec's layer map, layer [l] first for
    [l = 0, 1, ...]. *)
Fixpoint highway_compose_spec (layers : list nat) (gate_p transform_p : nat -> LinearParams)
    (x : Tensor3 R) : Tensor3 R :=
  match layers with
  | [] => x
  | l :: rest =>
      highway_compose_spec rest gate_p transform_p
        (highway_layer_spec (gate_p l) (transform_p l) x)
  end.

(** ** [CNN] *)

(** [nn.Conv1d(in, out, k, bias=True)], stride 1, no padding: rejects an
    input whose channel count differs or whose length is below [k]. *)
Record Conv1d := mkConv1d {
  conv_in : nat;
  conv_out : nat;
  conv_k : nat;
  conv_w : nat -> nat -> nat -> R;   (* (out, in, k) *)
  conv_b : nat -> R }.

Definition conv1d (cv : Conv1d) (x : Tensor3 R) : option (Tensor3 R) :=
  if Nat.eqb (sz1 x) (conv_in cv) && Nat.leb (conv_k cv) (sz2 x) then
    Some (mkT3 (sz0 x) (conv_out cv) (sz2 x - conv_k cv + 1)%nat (fun n o t =>
      conv_b cv o
      + sumR (conv_in cv) (fun c =>
          sumR (conv_k cv) (fun j => conv_w cv o c j * at3 x n c (t + j)%nat))))
  else None.

(** [max_upto n f] is the maximum of [f t] for [t <= n]. *)
Fixpoint max_upto (n : nat) (f : nat -> R) : R :=
  match n with
  | O => f O
  | S m => Rmax (max_upto m f) (f (S m))
  end.

(** The values of [torch.max(x, dim=2)]; an empty dimension is an error. *)
Definition max_dim2 (x : Tensor3 R) : option (Tensor2 R) :=
  if Nat.eqb (sz2 x) 0 then None
  else Some (mkT2 (sz0 x) (sz1 x) (fun n o => max_upto (sz2 x - 1) (fun t => at3 x n o t))).

Record CNN := mkCNN { conv1D : Conv1d }.

Definition CNN_init (char_emb_size f k : nat) (w : nat -> nat -> nat -> R) (b : nat -> R) : CNN :=
  mkCNN (mkConv1d char_emb_size f k w b).

Definition CNN_forward (cnn : CNN) (X_reshaped : Tensor3 R) : option (Tensor2 R) :=
  let? X_conv := conv1d (conv1D cnn) X_reshaped in
  let? X_conv_out := max_dim2 (tmap3 relu X_conv) in
  Some X_conv_out.

(** ** Embedding layers *)

(** Every index of [x] is below [n]. *)
Definition all_below (x : Tensor2 nat) (n : nat) : bool :=
  forallb (fun i => forallb (fun j => Nat.ltb (t2_at x i j) n) (seq 0 (t2_cols x)))
    (seq 0 (t2_rows x)).

(** The lookup of [nn.Embedding]: an index outside the table is an error. *)
Definition embedding_lookup (table : Tensor2 R) (x : Tensor2 nat) : option (Tensor3 R) :=
  if all_below x (t2_rows table) then
    Some (mkT3 (t2_rows x) (t2_cols x) (t2_cols table) (fun b i k =>
      t2_at table (t2_at x b i) k))
  else None.

(** [x.view(-1, cols)] of a three-dimensional tensor (row-major). *)
Definition view2_infer_rows {A} (x : Tensor3 A) (cols : nat) : option (Tensor2 A) :=
  let n := (sz0 x * sz1 x * sz2 x)%nat in
  if Nat.eqb cols 0 then None
  else if Nat.eqb (n mod cols) 0 then
    Some (mkT2 (n / cols)%nat cols (fun r c =>
      let f := (r * cols + c)%nat in
      at3 x (f / (sz1 x * sz2 x))%nat ((f / sz2 x) mod sz1 x)%nat (f mod sz2 x)%nat))
  else None.

(** [x.view(-1, a1, a2)] of a two-dimensional tensor (row-major). *)
Definition view3_infer_first {A} (x : Tensor2 A) (a1 a2 : nat) : option (Tensor3 A) :=
  let n := (t2_rows x * t2_cols x)%nat in
  if Nat.eqb (a1 * a2) 0 then None
  else if Nat.eqb (n mod (a1 * a2)) 0 then
    Some (mkT3 (n / (a1 * a2))%nat a1 a2 (fun i j k =>
      let f := (i * a1 * a2 + j * a2 + k)%nat in
      t2_at x (f / t2_cols x)%nat (f mod t2_cols x)%nat))
  else None.

(** [Embedding]: word embeddings only. *)
Record Embedding := mkEmbedding {
  emb_drop_prob : R;
  emb_embed : Tensor2 R;
  emb_proj : Linear;
  emb_hwy : HighwayEncoder }.

Definition Embedding_init (word_vectors : Tensor2 R) (hidden_size : nat) (drop_prob : R)
    (proj_w : nat -> nat -> R) (gate_p transform_p : nat -> LinearParams) : Embedding :=
  mkEmbedding drop_prob word_vectors
    (mkLinear (t2_cols word_vectors) hidden_size proj_w None)
    (HighwayEncoder_init 2 hidden_size gate_p transform_p).

Definition Embedding_forward (e : Embedding) (training : bool) (x : Tensor2 nat)
    : M (Tensor3 R) :=
  let! emb := liftM (embedding_lookup (emb_embed e) x) in
  let! emb := dropout (emb_drop_prob e) training emb in
  let! emb := liftM (Linear_forward (emb_proj e) emb) in
  let! emb := liftM (HighwayEncoder_forward (emb_hwy e) emb) in
  retM emb.

(** [EmbeddingChar]: word embeddings and a character-level CNN. *)
Record EmbeddingChar := mkEmbeddingChar {
  ec_drop_prob : R;
  ec_word_emb_size : nat;
  ec_embed : Tensor2 R;
  ec_char_emb_size : nat;
  ec_char_embed : Tensor2 R;
  ec_cnn : CNN;
  ec_proj : Linear;
  ec_hwy : HighwayEncoder }.

(** The learned parameter values of the word and character embedding
    layers: the character table, the convolution, the projection and the
    highway layers. *)
Record CharEmbParams := mkCharEmbParams {
  char_table : Tensor2 R;
  cnn_w : nat -> nat -> nat -> R;
  cnn_b : nat -> R;
  proj_w : nat -> nat -> R;
  hwy_gate_p : nat -> LinearParams;
  hwy_transform_p : nat -> LinearParams }.

(** [EmbeddingChar.__init__]; the character table starts from
    [char_vectors] and is trainable ([freeze=False]), so its current value
    is the one in [prm]. *)
Definition EmbeddingChar_init (word_vectors char_vectors : Tensor2 R) (hidden_size : nat)
    (drop_prob : R) (prm : CharEmbParams) : EmbeddingChar :=
  let word_emb_size := t2_cols word_vectors in
  let char_emb_size := t2_cols char_vectors in
  let n_filters := word_emb_size in
  let kernel_size := 5%nat in
  {| ec_drop_prob := drop_prob;
     ec_word_emb_size := word_emb_size;
     ec_embed := word_vectors;
     ec_char_emb_size := char_emb_size;
     ec_char_embed := char_table prm;
     ec_cnn := CNN_init char_emb_size n_filters kernel_size (cnn_w prm) (cnn_b prm);
     ec_proj := mkLinear (2 * word_emb_size) hidden_size (proj_w prm) None;
     ec_hwy := HighwayEncoder_init 2 hidden_size (hwy_gate_p prm) (hwy_transform_p prm) |}.

Definition EmbeddingChar_forward (e : EmbeddingChar) (training : bool)
    (x_word : Tensor2 nat) (x_char : Tensor3 nat) : M (Tensor3 R) :=
  let seq_len := sz1 x_char in
  let max_word_len := sz2 x_char in
  let! x_char := liftM (view2_infer_rows x_char max_word_len) in
  let! emb_char := liftM (embedding_lookup (ec_char_embed e) x_char) in
  let emb_char := transpose12 emb_char in
  let! emb_char := liftM (CNN_forward (ec_cnn e) emb_char) in
  let! emb_char := liftM (view3_infer_first emb_char seq_len (ec_word_emb_size e)) in
  let! emb_word := liftM (embedding_lookup (ec_embed e) x_word) in
  let! emb := liftM (cat_last [emb_word; emb_char]) in
  let! emb := dropout (ec_drop_prob e) training emb in
  let! emb := liftM (Linear_forward (ec_proj e) emb) in
  let! emb := liftM (HighwayEncoder_forward (ec_hwy e) emb) in
  retM emb.

(** [Embedding_Char]: the second word-and-character embedding class. *)
Record Embedding_Char := mkEmbedding_Char {
  e_c_drop_prob : R;
  e_c_word_emb_size : nat;
  e_c_embed : Tensor2 R;
  e_c_char_emb_size : nat;
  e_c_char_embed : Tensor2 R;
  e_c_cnn : CNN;
  e_c_proj : Linear;
  e_c_hwy : HighwayEncoder }.

Definition Embedding_Char_init (word_vectors char_vectors : Tensor2 R) (hidden_size : nat)
    (drop_prob : R) (prm : CharEmbParams) : Embedding_Char :=
  let word_emb_size := t2_cols word_vectors in
  let char_emb_size := t2_cols char_vectors in
  let n_filters := word_emb_size in
  let kernel_size := 5%nat in
  {| e_c_drop_prob := drop_prob;
     e_c_word_emb_size := word_emb_size;
     e_c_embed := word_vectors;
     e_c_char_emb_size := char_emb_size;
     e_c_char_embed := char_table prm;
     e_c_cnn := CNN_init char_emb_size n_filters kernel_size (cnn_w prm) (cnn_b prm);
     e_c_proj := mkLinear (2 * word_emb_size) hidden_size (proj_w prm) None;
     e_c_hwy := HighwayEncoder_init 2 hidden_size (hwy_gate_p prm) (hwy_transform_p prm) |}.

Definition Embedding_Char_forward (e : Embedding_Char) (training : bool)
    (x_word : Tensor2 nat) (x_char : Tensor3 nat) : M (Tensor3 R) :=
  let seq_len := sz1 x_char in
  let max_word_len := sz2 x_char in
  let! x_char := liftM (view2_infer_rows x_char max_word_len) in
  let! emb_char := liftM (embedding_lookup (e_c_char_embed e) x_char) in
  let emb_char := transpose12 emb_char in
  let! emb_char := liftM (CNN_forward (e_c_cnn e) emb_char) in
  let! emb_char := liftM (view3_infer_first emb_char seq_len (e_c_word_emb_size e)) in
  let! emb_word := liftM (embedding_lookup (e_c_embed e) x_word) in
  let! emb := liftM (cat_last [emb_word; emb_char]) in
  let! emb := dropout (e_c_drop_prob e) training emb in
  let! emb := liftM (Linear_forward (e_c_proj e) emb) in
  let! emb := liftM (HighwayEncoder_forward (e_c_hwy e) emb) in
  retM emb.

(** The convolution of the character CNN at one output position, as
    section 4.1 of the spec describes it: kernel width [k] over the
    character-embedding channels. *)
Definition char_conv_spec (w : nat -> nat -> nat -> R) (bv : nat -> R) (k : nat)
    (x : Tensor3 R) (n o t : nat) : R :=
  bv o + sumR (sz1 x) (fun c => sumR k (fun j => w o c j * at3 x n c (t + j)%nat)).

(** ** [RNNEncoder] *)

(** [Tensor.sort(0)]: the sorted values and the permutation of indices.
    torch does not promise an order among equal keys; the model keeps them
    in input order (stdpp's merge sort is stable). *)
Definition key_ge (p q : nat * nat) : Prop := (fst q <= fst p)%nat.
Definition key_le (p q : nat * nat) : Prop := (fst p <= fst q)%nat.

#[export] Instance key_ge_dec : RelDecision key_ge :=
  fun p q => decide (fst q <= fst p)%nat.
#[export] Instance key_le_dec : RelDecision key_le :=
  fun p q => decide (fst p <= fst q)%nat.

Definition sort_desc (l : list nat) : list nat * list nat :=
  let sorted := merge_sort key_ge (zip l (seq 0 (length l))) in
  (map fst sorted, map snd sorted).

Definition sort_asc (l : list nat) : list nat * list nat :=
  let sorted := merge_sort key_le (zip l (seq 0 (length l))) in
  (map fst sorted, map snd sorted).

(** [x[idx]] for a list of indices along the batch dimension. *)
Definition index_select0 (x : Tensor3 R) (idx : list nat) : option (Tensor3 R) :=
  if forallb (fun i => Nat.ltb i (sz0 x)) idx then
    Some (mkT3 (length idx) (sz1 x) (sz2 x) (fun b t k => at3 x (nth b idx O) t k))
  else None.

(** A [PackedSequence]: [batch_sizes] gives the number of sequences still
    running at each time step, [pdata t b k] the feature [k] of sequence
    [b] at step [t] (for [b] below the batch size of step [t]). *)
Record PackedSequence := mkPackedSequence {
  batch_sizes : list nat;
  pdata : nat -> nat -> nat -> R;
  pfeat : nat }.

(** The number of entries of [l] above [t]. *)
Definition count_gt (t : nat) (l : list nat) : nat :=
  length (List.filter (fun v => Nat.ltb t v) l).

Fixpoint sorted_desc (l : list nat) : bool :=
  match l with
  | a :: ((b :: _) as rest) => Nat.leb b a && sorted_desc rest
  | _ => true
  end.

(** [pack_padded_sequence(x, lengths, batch_first=True)] with
    [enforce_sorted=True]: a non-empty input ("Cannot pack empty tensors"),
    one length per sequence, all positive, sorted in decreasing order, none
    above the padded length. *)
Definition pack_padded_sequence (x : Tensor3 R) (lengths : list nat) : option PackedSequence :=
  let max_len := fold_right Nat.max O lengths in
  if Nat.eqb (sz0 x * sz1 x * sz2 x) 0 then None
  else if negb (Nat.eqb (length lengths) (sz0 x)) then None
  else if Nat.eqb (length lengths) 0 then None
  else if existsb (fun l => Nat.eqb l 0) lengths then None
  else if negb (sorted_desc lengths) then None
  else if Nat.ltb (sz1 x) max_len then None
  else Some (mkPackedSequence
               (map (fun t => count_gt t lengths) (seq 0 max_len))
               (fun t b k => if Nat.ltb b (count_gt t lengths) then at3 x b t k else 0)
               (sz2 x)).

(** The recurrent computation of one layer on one sequence: from the true
    length [n] and the sequence (step, feature), restricted to its [n]
    steps, the outputs of both directions (step, feature). *)
Definition SeqFun : Type := nat -> (nat -> nat -> R) -> (nat -> nat -> R).

(** A recurrent module: its input and output widths, its number of
    stacked layers, the dropout probability applied between layers in
    training mode, and the learned computation of each layer. *)
Record RNNCell := mkRNNCell {
  cell_in : nat;
  cell_out : nat;
  cell_layers : nat;
  cell_dropout : R;
  cell_run : nat -> SeqFun }.

(** The number of steps of sequence [b] in a packed batch. *)
Definition packed_len (p : PackedSequence) (b : nat) : nat := count_gt b (batch_sizes p).

(** One layer applied to a packed batch: each sequence is run on its own
    steps only, and the output, of width [w], has the same batch sizes. *)
Definition run_layer (run : SeqFun) (w : nat) (p : PackedSequence) : PackedSequence :=
  mkPackedSequence (batch_sizes p)
    (fun t b k =>
       if Nat.ltb b (nth t (batch_sizes p) O) then
         let n := packed_len p b in
         run n (fun t' k' => if Nat.ltb t' n then pdata p t' b k' else 0) t k
       else 0)
    w.

(** [F.dropout(data, p, True)] on the data of a packed batch (one entry
    per step, sequence and feature). *)
Definition packed_dropout (p : R) (x : PackedSequence) : M PackedSequence :=
  let! d := dropout p true
              (mkT3 (length (batch_sizes x)) (nth O (batch_sizes x) O) (pfeat x) (pdata x)) in
  retM (mkPackedSequence (batch_sizes x) (at3 d) (pfeat x)).

(** The stack of layers [l], [l + 1], ... ([left] of them), as torch runs
    it: in training mode and with a nonzero dropout probability, dropout is
    applied to the output of every layer but the last. *)
Fixpoint run_layers (cell : RNNCell) (training : bool) (l left : nat) (x : PackedSequence)
    : M PackedSequence :=
  match left with
  | O => retM x
  | S O => retM (run_layer (cell_run cell l) (cell_out cell) x)
  | S r =>
      let y := run_layer (cell_run cell l) (cell_out cell) x in
      let! y := (if training then
                   if Req_dec_T (cell_dropout cell) 0 then retM y
                   else packed_dropout (cell_dropout cell) y
                 else retM y) in
      run_layers cell training (S l) r y
  end.

(** A recurrent module applied to a packed batch. The input width must be
    the module's. *)
Definition run_packed (cell : RNNCell) (training : bool) (p : PackedSequence)
    : M PackedSequence :=
  if Nat.eqb (pfeat p) (cell_in cell) then run_layers cell training O (cell_layers cell) p
  else liftM None.

(** [pad_packed_sequence(p, batch_first=True, total_length)]: the padded
    batch (zeros after each sequence's end) and the lengths. *)
Definition pad_packed_sequence (p : PackedSequence) (total_length : nat)
    : option (Tensor3 R * list nat) :=
  let max_len := length (batch_sizes p) in
  let bsz := nth O (batch_sizes p) O in
  if Nat.ltb total_length max_len then None
  else Some (mkT3 bsz total_length (pfeat p) (fun b t k =>
               if Nat.ltb t max_len && Nat.ltb b (nth t (batch_sizes p) O)
               then pdata p t b k else 0),
             map (fun b => packed_len p b) (seq 0 bsz)).

(** [nn.LSTM], [nn.RNN], [nn.GRU] with [bidirectional=True]: the
    constructor rejects a dropout outside [0, 1], a hidden size, a number
    of layers or an input size of zero; the output concatenates both
    directions ([2 * hidden_size]); [num_layers] layers are stacked with
    dropout [dropout_p] between them. [run l] is the learned recurrent
    computation of layer [l]. *)
Definition torch_rnn (input_size hidden_size num_layers : nat) (dropout_p : R)
    (run : nat -> SeqFun) : option RNNCell :=
  if Rlt_dec dropout_p 0 then None
  else if Rlt_dec 1 dropout_p then None
  else if Nat.eqb hidden_size 0 then None
  else if Nat.eqb num_layers 0 then None
  else if Nat.eqb input_size 0 then None
  else Some (mkRNNCell input_size (2 * hidden_size) num_layers dropout_p run).

(** Modelled from the spec: [urnn.EURNNCell] and [goru.GORUCell] (the
    modules [urnn] and [goru] are not part of the sources). Section 4.4
    of the spec makes the cell types interchangeable, with matching
    input/output contracts: the same input width and an output of width
    [2 * hidden_size]; a cell is a single layer, with no dropout. [run] is
    the learned recurrent computation. *)
Definition unitary_cell (input_size hidden_size capacity : nat) (run : nat -> SeqFun) : RNNCell :=
  mkRNNCell input_size (2 * hidden_size) 1 0 run.

Record RNNEncoder := mkRNNEncoder {
  rnn_drop_prob : R;
  rnn : option RNNCell }.   (* [None]: the attribute [self.rnn] was never set *)

(** [RNNEncoder.__init__]; [learned rnn_type l] is the learned recurrent
    computation of layer [l] of the module built for [rnn_type]. *)
Definition RNNEncoder_init (input_size hidden_size num_layers : nat) (rnn_type : string)
    (drop_prob : R) (learned : string -> nat -> SeqFun) : option RNNEncoder :=
  let cell_dropout := if Nat.ltb 1 num_layers then drop_prob else 0 in
  if String.eqb rnn_type "LSTM" then
    let? c := torch_rnn input_size hidden_size num_layers cell_dropout (learned rnn_type) in
    Some (mkRNNEncoder drop_prob (Some c))
  else if String.eqb rnn_type "RNN" then
    let? c := torch_rnn input_size hidden_size num_layers cell_dropout (learned rnn_type) in
    Some (mkRNNEncoder drop_prob (Some c))
  else if String.eqb rnn_type "GRU" then
    let? c := torch_rnn input_size hidden_size num_layers cell_dropout (learned rnn_type) in
    Some (mkRNNEncoder drop_prob (Some c))
  else if String.eqb rnn_type "URNN" then
    Some (mkRNNEncoder drop_prob (Some (unitary_cell input_size hidden_size 2 (learned rnn_type))))
  else if String.eqb rnn_type "GORU" then
    Some (mkRNNEncoder drop_prob (Some (unitary_cell input_size hidden_size 2 (learned rnn_type))))
  else Some (mkRNNEncoder drop_prob None).

Definition RNNEncoder_forward (enc : RNNEncoder) (training : bool) (x : Tensor3 R)
    (lengths : list nat) : M (Tensor3 R) :=
  let orig_len := sz1 x in
  let (lengths, sort_idx) := sort_desc lengths in
  let! x := liftM (index_select0 x sort_idx) in
  let! x := liftM (pack_padded_sequence x lengths) in
  let! cell := liftM (rnn enc) in
  let! x := run_packed cell training x in
  let! xl := liftM (pad_packed_sequence x orig_len) in
  let x := fst xl in
  let (_, unsort_idx) := sort_asc sort_idx in
  let! x := liftM (index_select0 x unsort_idx) in
  dropout (rnn_drop_prob enc) training x.

(** The contract of section 4.4 of the spec, per sequence [b] of the
    padded batch: the cell run on the [lengths[b]] real steps of [b]
    alone, zeros at the padding positions, in the original batch order. *)
Definition encoder_spec (run : SeqFun) (w : nat) (x : Tensor3 R) (lengths : list nat)
    : Tensor3 R :=
  mkT3 (sz0 x) (sz1 x) w (fun b t k =>
    let n := nth b lengths O in
    if Nat.ltb t n then run n (fun t' k' => if Nat.ltb t' n then at3 x b t' k' else 0) t k
    else 0).

(** Layers [l], [l + 1], ... ([left] of them) stacked on one sequence of
    true length [n], each layer reading the previous layer's outputs on the
    [n] real steps. *)
Fixpoint stack_run (run : nat -> SeqFun) (l left : nat) : SeqFun :=
  fun n xs =>
    match left with
    | O => xs
    | S r => stack_run run (S l) r n (run l n (fun t k => if Nat.ltb t n then xs t k else 0))
    end.

(** A computation that neither reads nor advances the random generator:
    one outcome whatever the generator state, which it returns unchanged. *)
Definition gen_free {A} (m : M A) : Prop :=
  exists o : option A, forall g, m g = option_map (fun a => (a, g)) o.

(** ** [BiDAFOutput] *)

(** The learned weight and bias of the four [nn.Linear(_, 1)] layers of
    [BiDAFOutput]. *)
Record OutputParams := mkOutputParams {
  att_linear_1_p : LinearParams;
  mod_linear_1_p : LinearParams;
  att_linear_2_p : LinearParams;
  mod_linear_2_p : LinearParams }.

Record BiDAFOutput := mkBiDAFOutput {
  att_linear_1 : Linear;
  mod_linear_1 : Linear;
  out_rnn : RNNEncoder;
  att_linear_2 : Linear;
  mod_linear_2 : Linear }.

(** [BiDAFOutput.__init__]; the construction fails when the one-layer
    LSTM encoder cannot be built. *)
Definition BiDAFOutput_init (hidden_size : nat) (drop_prob : R) (prm : OutputParams)
    (learned : string -> nat -> SeqFun) : option BiDAFOutput :=
  let linear1 n (lp : LinearParams) := mkLinear n 1 (fst lp) (Some (snd lp)) in
  let? rnn := RNNEncoder_init (2 * hidden_size) hidden_size 1 "LSTM" drop_prob learned in
  Some (mkBiDAFOutput (linear1 (8 * hidden_size)%nat (att_linear_1_p prm))
                      (linear1 (2 * hidden_size)%nat (mod_linear_1_p prm))
                      rnn
                      (linear1 (8 * hidden_size)%nat (att_linear_2_p prm))
                      (linear1 (2 * hidden_size)%nat (mod_linear_2_p prm))).

(** [mask.sum(-1)] of a boolean mask: the number of [True] entries of
    each row. *)
Definition mask_sum (mask : Tensor2 bool) : list nat :=
  map (fun b => length (List.filter (fun i => t2_at mask b i) (seq 0 (t2_cols mask))))
      (seq 0 (t2_rows mask)).

(** [BiDAFOutput.forward]. The last two lines apply
    [masked_softmax(logits.squeeze(), mask, log_softmax=True)]; that
    function lives in util.py, which is not part of the sources, so the
    forward takes it as the parameter [masked_log_softmax] (squeeze
    included), of any result type. The argument [mod] is named [mod_]
    ([mod] is a keyword). *)
Definition BiDAFOutput_forward {T : Type} (out : BiDAFOutput)
    (masked_log_softmax : Tensor3 R -> Tensor2 bool -> option T) (training : bool)
    (att mod_ : Tensor3 R) (mask : Tensor2 bool) : M (T * T) :=
  let! a1 := liftM (Linear_forward (att_linear_1 out) att) in
  let! m1 := liftM (Linear_forward (mod_linear_1 out) mod_) in
  let! logits_1 := liftM (tadd3 a1 m1) in
  let! mod_2 := RNNEncoder_forward (out_rnn out) training mod_ (mask_sum mask) in
  let! a2 := liftM (Linear_forward (att_linear_2 out) att) in
  let! m2 := liftM (Linear_forward (mod_linear_2 out) mod_2) in
  let! logits_2 := liftM (tadd3 a2 m2) in
  let! log_p1 := liftM (masked_log_softmax logits_1 mask) in
  let! log_p2 := liftM (masked_log_softmax logits_2 mask) in
  retM (log_p1, log_p2).

(** * Proofs *)

(** ** Lemmas on the tensor operations *)

Lemma bcast_dim_same a : bcast_dim a a = Some a.
Proof. unfold bcast_dim. now rewrite Nat.eqb_refl. Qed.

Lemma bcast_dim_r1 a : bcast_dim a 1 = Some a.
Proof.
  unfold bcast_dim. destruct (Nat.eqb_spec a 1); [subst; reflexivity|].
  reflexivity.
Qed.

Lemma bcast_dim_l1 a : bcast_dim 1 a = Some a.
Proof.
  unfold bcast_dim. destruct (Nat.eqb_spec 1 a); [subst; reflexivity|].
  reflexivity.
Qed.

Lemma expand_dim_1 n : expand_dim 1 (Some n) = Some n.
Proof. unfold expand_dim. now destruct (Nat.eqb 1 n). Qed.

Lemma expand_dim_same n : expand_dim n (Some n) = Some n.
Proof. unfold expand_dim. now rewrite Nat.eqb_refl. Qed.

Lemma bidx_lt s i : (i < s)%nat -> bidx s i = i.
Proof. unfold bidx. destruct (Nat.eqb_spec s 1); lia. Qed.

Lemma bidx_1 i : bidx 1 i = O.
Proof. reflexivity. Qed.

Lemma sumR_ext_lt n f g :
  (forall k, (k < n)%nat -> f k = g k) -> sumR n f = sumR n g.
Proof.
  induction n as [|n IH]; intros Hfg; simpl; [reflexivity|].
  rewrite IH by (intros; apply Hfg; lia). now rewrite Hfg by lia.
Qed.

Lemma dropout_eval p x g :
  0 <= p <= 1 -> dropout p false x g = Some (x, g).
Proof.
  intros [H0 H1]. unfold dropout.
  destruct (Rlt_dec p 0); [lra|]. destruct (Rlt_dec 1 p); [lra|]. reflexivity.
Qed.

Lemma if_same {A} (b : bool) (x : A) : (if b then x else x) = x.
Proof. now destruct b. Qed.

Create Rewrite HintDb tensor.
#[export] Hint Rewrite bcast_dim_same bcast_dim_r1 bcast_dim_l1 expand_dim_1
  expand_dim_same bidx_1 Nat.eqb_refl @if_same : tensor.

(** Normalise a chain of tensor operations on tensors of known shape. *)
Ltac tensor_simpl :=
  repeat (progress (autorewrite with tensor; cbn -[Nat.ltb Nat.div Nat.modulo sumR softmax_entry])).

(** Remove the broadcasting index maps on indices known to be in range. *)
Ltac drop_bidx :=
  repeat match goal with
  | Hx : (?x < ?s)%nat |- context [bidx ?s ?x] => rewrite (bidx_lt s x Hx)
  end.

Lemma dropout_shape p training x g :
  0 <= p <= 1 -> exists y g', dropout p training x g = Some (y, g') /\
    sz0 y = sz0 x /\ sz1 y = sz1 x /\ sz2 y = sz2 x.
Proof.
  intros [H0 H1]. unfold dropout.
  destruct (Rlt_dec p 0); [lra|]. destruct (Rlt_dec 1 p); [lra|].
  destruct training; eauto 10.
Qed.

Lemma similarity_matrix_shape H p cw qw cqw bias training c q g :
  0 <= p <= 1 -> sz2 c = H -> sz2 q = H -> sz0 q = sz0 c ->
  exists s g', get_similarity_matrix (BiDAFAttention_init H p cw qw cqw bias) training c q g
                = Some (s, g') /\
    sz0 s = sz0 c /\ sz1 s = sz1 c /\ sz2 s = sz1 q.
Proof.
  intros Hp Hc Hq Hb. unfold get_similarity_matrix, bindM.
  cbn [att_drop_prob BiDAFAttention_init].
  destruct (dropout_shape p training c g Hp) as (c' & g1 & -> & E0 & E1 & E2).
  destruct (dropout_shape p training q g1 Hp) as (q' & g2 & -> & F0 & F1 & F2).
  destruct c as [bs cl h cf0], q as [bq ql hq qf0],
    c' as [bs' cl' h' cf], q' as [bq' ql' hq' qf]; simpl in *; subst.
  unfold liftM, matmul32, expand3, tmul3, tadd3, zip_with3, matmul33. tensor_simpl.
  eauto 10.
Qed.

Lemma softmax_entry_ext n v v' m m' k :
  (forall k', (k' < n)%nat -> v k' = v' k') ->
  (forall k', (k' < n)%nat -> m k' = m' k') ->
  (k < n)%nat -> softmax_entry n v m k = softmax_entry n v' m' k.
Proof.
  intros Hv Hm Hk. unfold softmax_entry.
  rewrite (sumR_ext_lt n _ (fun k' => if m' k' then exp (v' k') else 0)).
  - rewrite Hm, Hv by exact Hk. reflexivity.
  - intros k' Hk'. now rewrite Hm, Hv.
Qed.

Lemma flat_div b n j : (j < n)%nat -> ((b * n + j) / n)%nat = b.
Proof.
  intros Hj. rewrite Nat.div_add_l by lia. rewrite Nat.div_small by exact Hj. lia.
Qed.

Lemma flat_mod b n j : (j < n)%nat -> ((b * n + j) mod n)%nat = j.
Proof.
  intros Hj. rewrite Nat.add_comm, Nat.Div0.mod_add. now apply Nat.mod_small.
Qed.

Lemma teq3_refl x : teq3 x x.
Proof. unfold teq3. repeat split; auto. Qed.

Lemma teq3_trans x y z : teq3 x y -> teq3 y z -> teq3 x z.
Proof.
  intros (A0 & A1 & A2 & A) (B0 & B1 & B2 & B). unfold teq3.
  repeat split; try congruence.
  intros b i k Hb Hi Hk. rewrite A by assumption. apply B; congruence.
Qed.

Lemma highway_layer_spec_teq gp tp x y :
  teq3 x y -> teq3 (highway_layer_spec gp tp x) (highway_layer_spec gp tp y).
Proof.
  intros (E0 & E1 & E2 & E). unfold teq3, highway_layer_spec; cbn.
  repeat split; try assumption.
  intros b i k Hb Hi Hk. rewrite E2.
  rewrite (sumR_ext_lt (sz2 y) (fun m => fst gp k m * at3 x b i m) (fun m => fst gp k m * at3 y b i m))
    by (intros m Hm; rewrite E by lia; reflexivity).
  rewrite (sumR_ext_lt (sz2 y) (fun m => fst tp k m * at3 x b i m) (fun m => fst tp k m * at3 y b i m))
    by (intros m Hm; rewrite E by lia; reflexivity).
  now rewrite E.
Qed.

Lemma highway_compose_spec_teq layers gate_p transform_p x y :
  teq3 x y ->
  teq3 (highway_compose_spec layers gate_p transform_p x)
       (highway_compose_spec layers gate_p transform_p y).
Proof.
  revert x y. induction layers as [|l rest IH]; intros x y Hxy; cbn; [exact Hxy|].
  apply IH. now apply highway_layer_spec_teq.
Qed.

Lemma highway_compose_spec_shape layers gate_p transform_p x :
  sz0 (highway_compose_spec layers gate_p transform_p x) = sz0 x /\
  sz1 (highway_compose_spec layers gate_p transform_p x) = sz1 x /\
  sz2 (highway_compose_spec layers gate_p transform_p x) = sz2 x.
Proof.
  revert x. induction layers as [|l rest IH]; intros x; cbn; [auto|].
  destruct (IH (highway_layer_spec (gate_p l) (transform_p l) x)) as (? & ? & ?).
  cbn in *. auto.
Qed.

Lemma zip_map_same {A B C} (f : A -> B) (g : A -> C) (l : list A) :
  zip (map f l) (map g l) = map (fun a => (f a, g a)) l.
Proof. induction l as [|a l IH]; cbn; [reflexivity|]. now rewrite IH. Qed.

Lemma highway_loop_spec H (gate_p transform_p : nat -> LinearParams) layers x :
  sz2 x = H ->
  exists y,
    highway_loop
      (map (fun l => (mkLinear H H (fst (gate_p l)) (Some (snd (gate_p l))),
                      mkLinear H H (fst (transform_p l)) (Some (snd (transform_p l))))) layers) x
      = Some y /\
    teq3 y (highway_compose_spec layers gate_p transform_p x).
Proof.
  revert x. induction layers as [|l rest IH]; intros x Hx; cbn.
  { exists x. split; [reflexivity|apply teq3_refl]. }
  destruct x as [a b h f]; cbn in Hx; subst h.
  unfold Linear_forward, tmul3, tadd3, zip_with3. tensor_simpl.
  match goal with |- exists y, highway_loop _ ?x' = Some y /\ _ => 
    destruct (IH x' eq_refl) as (y & Hy & Ey) end.
  exists y. split; [exact Hy|].
  eapply teq3_trans; [exact Ey|]. apply highway_compose_spec_teq.
  unfold teq3; cbn. repeat split.
  intros b0 i k Hb Hi Hk. drop_bidx.
  rewrite (sumR_ext_lt H (fun k0 => f b0 i k0 * fst (gate_p l) k k0)
             (fun m => fst (gate_p l) k m * f b0 i m)) by (intros; ring).
  rewrite (sumR_ext_lt H (fun k0 => f b0 i k0 * fst (transform_p l) k k0)
             (fun m => fst (transform_p l) k m * f b0 i m)) by (intros; ring).
  reflexivity.
Qed.

Lemma max_upto_ge n f t : (t <= n)%nat -> f t <= max_upto n f.
Proof.
  induction n as [|n IH]; intros Ht; cbn.
  - replace t with O by lia. lra.
  - destruct (Nat.eq_dec t (S n)) as [->|Hne].
    + apply Rmax_r.
    + eapply Rle_trans; [apply IH; lia|apply Rmax_l].
Qed.

Lemma max_upto_attained n f : exists t, (t <= n)%nat /\ max_upto n f = f t.
Proof.
  induction n as [|n IH]; cbn.
  - exists O. split; [lia|reflexivity].
  - destruct IH as (t & Ht & Et). unfold Rmax. destruct (Rle_dec (max_upto n f) (f (S n))).
    + exists (S n). split; [lia|reflexivity].
    + exists t. split; [lia|exact Et].
Qed.

Section SortFacts.
Local Open Scope nat_scope.

#[local] Instance key_ge_total : Total key_ge.
Proof. intros [a i] [b j]; unfold key_ge; cbn; lia. Qed.
#[local] Instance key_le_total : Total key_le.
Proof. intros [a i] [b j]; unfold key_le; cbn; lia. Qed.

Lemma zip_seq_in (l : list nat) s a j :
  In (a, j) (zip l (seq s (length l))) -> s <= j < s + length l /\ nth (j - s) l O = a.
Proof.
  revert s; induction l as [|v l IH]; intros s Hin; cbn in Hin; [contradiction|].
  destruct Hin as [Heq|Hin].
  - inversion Heq; subst. rewrite Nat.sub_diag. cbn. split; [lia|reflexivity].
  - destruct (IH (S s) Hin) as [Hr Hn]. cbn. split; [lia|].
    replace (j - s) with (S (j - S s)) by lia. exact Hn.
Qed.

Lemma length_zip_seq (l : list nat) s : length (zip l (seq s (length l))) = length l.
Proof. rewrite length_zip_with, length_seq. lia. Qed.

Lemma count_gt_cons t a l :
  count_gt t (a :: l) = ((if t <? a then 1 else 0) + count_gt t l).
Proof. unfold count_gt; cbn -[Nat.ltb]. destruct (t <? a); reflexivity. Qed.

Lemma count_gt_nil_le t l : (forall v, In v l -> v <= t) -> count_gt t l = 0.
Proof.
  induction l as [|a l IH]; intros Hle; [reflexivity|].
  rewrite count_gt_cons. assert (a <= t) by (apply Hle; left; reflexivity).
  replace (t <? a) with false by (symmetry; apply Nat.ltb_ge; lia).
  apply IH. intros v Hv. apply Hle. right. exact Hv.
Qed.

Lemma count_gt_sorted (L : list nat) t b :
  StronglySorted ge L -> b < length L -> (b < count_gt t L <-> t < nth b L O).
Proof.
  revert b; induction L as [|a L IH]; intros b HS Hb; cbn in Hb; [lia|].
  inversion HS as [|? ? HS' Hall]; subst. rewrite List.Forall_forall in Hall.
  rewrite count_gt_cons. destruct (Nat.ltb_spec t a) as [Hta|Hta].
  - destruct b as [|b]; cbn; [lia|]. rewrite <- (IH b HS' ltac:(lia)). lia.
  - rewrite count_gt_nil_le by (intros v Hv; specialize (Hall v Hv); unfold ge in Hall; lia).
    destruct b as [|b]; cbn; [lia|].
    assert (nth b L O <= a) by (apply Hall, nth_In; lia). lia.
Qed.

Lemma count_gt_app t l1 l2 : count_gt t (l1 ++ l2) = count_gt t l1 + count_gt t l2.
Proof. unfold count_gt. rewrite List.filter_app, length_app. reflexivity. Qed.

Lemma count_gt_map_seq b m (f : nat -> nat) v :
  (forall t, b < f t <-> t < v) -> v <= m -> count_gt b (map f (seq 0 m)) = v.
Proof.
  intros Hf. induction m as [|m IH]; intros Hv; [cbn; lia|].
  rewrite seq_S, map_app, count_gt_app. cbn -[Nat.ltb].
  destruct (Nat.eq_dec v (S m)) as [->|Hne].
  - assert (Hm : forall t, In t (seq 0 m) -> b < f t).
    { intros t Ht. apply in_seq in Ht. apply Hf. lia. }
    unfold count_gt at 1. rewrite (List.forallb_filter_id _ _).
    + rewrite length_map, length_seq. unfold count_gt; cbn -[Nat.ltb].
      replace (b <? f m) with true by (symmetry; apply Nat.ltb_lt, Hf; lia). cbn; lia.
    + apply forallb_forall. intros x Hx. apply in_map_iff in Hx as (t & <- & Ht).
      apply Nat.ltb_lt, Hm, Ht.
  - rewrite IH by lia. unfold count_gt; cbn -[Nat.ltb].
    replace (b <? f m) with false by (symmetry; apply Nat.ltb_ge;
      destruct (Nat.lt_ge_cases b (f m)) as [Hb|Hb]; [apply Hf in Hb; lia|exact Hb]).
    cbn. lia.
Qed.

Lemma sort_desc_spec (l : list nat) :
  let (L, I) := sort_desc l in
  length L = length l /\ length I = length l /\
  StronglySorted ge L /\ I ≡ₚ seq 0 (length l) /\
  forall i, i < length l -> nth i I O < length l /\ nth i L O = nth (nth i I O) l O.
Proof.
  unfold sort_desc. set (S := merge_sort key_ge _).
  assert (HP : S ≡ₚ zip l (seq 0 (length l))) by apply merge_sort_Permutation.
  assert (HL : length S = length l) by (rewrite HP; apply length_zip_seq).
  assert (Hin : forall i, i < length l -> nth (nth i (map snd S) O) l O = nth i (map fst S) O
                                          /\ nth i (map snd S) O < length l).
  { intros i Hi. assert (HinS : In (nth i S (O, O)) S) by (apply nth_In; lia).
    destruct (nth i S (O, O)) as [a j] eqn:E. apply (Permutation_in _ HP) in HinS.
    apply zip_seq_in in HinS as [Hr Hn]. rewrite Nat.sub_0_r in Hn.
    assert (E1 : nth i (map fst S) O = a).
    { rewrite (nth_indep _ O (fst (O, O))) by (rewrite length_map; lia).
      rewrite map_nth, E. reflexivity. }
    assert (E2 : nth i (map snd S) O = j).
    { rewrite (nth_indep _ O (snd (O, O))) by (rewrite length_map; lia).
      rewrite map_nth, E. reflexivity. }
    rewrite E1, E2. split; [exact Hn|lia]. }
  split; [rewrite length_map; exact HL|]. split; [rewrite length_map; exact HL|]. split.
  - apply Sorted_StronglySorted; [intros x y z; unfold ge; lia|].
    change (Sorted ge (fst <$> S)). apply (Sorted_fmap fst key_ge ge); [intros [a i] [b j]; unfold key_ge; cbn; lia|].
    apply Sorted_merge_sort. exact key_ge_total.
  - split.
    + rewrite <- (snd_zip l (seq 0 (length l))) by (rewrite length_seq; lia).
      change (map snd S ≡ₚ snd <$> zip l (seq 0 (length l))).
      apply Permutation_map, HP.
    + intros i Hi. destruct (Hin i Hi). split; [assumption|symmetry; assumption].
Qed.

#[local] Instance le_antisymm : AntiSymm eq le.
Proof. intros x y; lia. Qed.

Lemma Sorted_le_seq s n : Sorted le (seq s n).
Proof.
  revert s; induction n as [|n IH]; intros s; cbn; constructor; [apply IH|].
  destruct n; cbn; constructor; lia.
Qed.

Lemma sort_asc_inverse (I : list nat) :
  I ≡ₚ seq 0 (length I) ->
  let J := snd (sort_asc I) in
  length J = length I /\
  forall b, b < length I -> nth b J O < length I /\ nth (nth b J O) I O = b.
Proof.
  intros HI. unfold sort_asc. cbn. set (S := merge_sort key_le _).
  assert (HP : S ≡ₚ zip I (seq 0 (length I))) by apply merge_sort_Permutation.
  assert (HL : length S = length I) by (rewrite HP; apply length_zip_seq).
  assert (Hfst : map fst S = seq 0 (length I)).
  { apply (Sorted_unique le).
    - change (Sorted le (fst <$> S)). apply (Sorted_fmap fst key_le le);
        [intros [a i] [c j]; unfold key_le; cbn; lia|].
      apply Sorted_merge_sort. exact key_le_total.
    - apply Sorted_le_seq.
    - rewrite <- HI. rewrite <- (fst_zip I (seq 0 (length I))) by (rewrite length_seq; lia).
      change (fst <$> S ≡ₚ fst <$> zip I (seq 0 (length I))). apply Permutation_map, HP. }
  split; [rewrite length_map; exact HL|]. intros b Hb.
  assert (HinS : In (nth b S (O, O)) S) by (apply nth_In; lia).
  destruct (nth b S (O, O)) as [a j] eqn:E. apply (Permutation_in _ HP) in HinS.
  apply zip_seq_in in HinS as [Hr Hn]. rewrite Nat.sub_0_r in Hn.
  assert (E1 : nth b (map fst S) O = a).
  { rewrite (nth_indep _ O (fst (O, O))) by (rewrite length_map; lia).
    rewrite map_nth, E. reflexivity. }
  assert (E2 : nth b (map snd S) O = j).
  { rewrite (nth_indep _ O (snd (O, O))) by (rewrite length_map; lia).
    rewrite map_nth, E. reflexivity. }
  rewrite Hfst, seq_nth in E1 by lia. rewrite E2. split; [lia|]. rewrite Hn. lia.
Qed.

Lemma sorted_desc_StronglySorted L : StronglySorted ge L -> sorted_desc L = true.
Proof.
  induction 1 as [|a L HS IH Hall]; [reflexivity|].
  destruct L as [|c L]; [reflexivity|].
  change (sorted_desc (a :: c :: L)) with ((c <=? a) && sorted_desc (c :: L)).
  rewrite IH. inversion Hall; subst. apply andb_true_intro; split; [apply Nat.leb_le; lia|reflexivity].
Qed.

Lemma fold_max_le L m : (forall v, In v L -> v <= m) -> fold_right Nat.max O L <= m.
Proof.
  induction L as [|a L IH]; intros H; cbn; [lia|].
  assert (a <= m) by (apply H; left; reflexivity).
  assert (fold_right Nat.max O L <= m) by (apply IH; intros v Hv; apply H; right; exact Hv). lia.
Qed.

Lemma fold_max_ge L v : In v L -> v <= fold_right Nat.max O L.
Proof.
  induction L as [|a L IH]; intros H; cbn; [contradiction|].
  destruct H as [->|H]; [lia|]. specialize (IH H). lia.
Qed.

Lemma count_gt_all t L : (forall v, In v L -> t < v) -> count_gt t L = length L.
Proof.
  induction L as [|a L IH]; intros H; [reflexivity|].
  rewrite count_gt_cons. replace (t <? a) with true by (symmetry; apply Nat.ltb_lt, H; left; reflexivity).
  cbn. rewrite IH by (intros v Hv; apply H; right; exact Hv). reflexivity.
Qed.

Lemma nth_map_seq (f : nat -> nat) m t : t < m -> nth t (map f (seq 0 m)) O = f t.
Proof.
  intros Ht. rewrite (nth_indep _ O (f O)) by (rewrite length_map, length_seq; exact Ht).
  rewrite map_nth, seq_nth by exact Ht. reflexivity.
Qed.

End SortFacts.

Section Encoder.
Local Open Scope nat_scope.

(** [RNNEncoder.forward] around its recurrent module: the sorted, packed
    batch [p] the module receives, where sequence [b] sits at position
    [pos b], and the result built from the module's output [q]. *)
Lemma rnn_encoder_forward_packed (enc : RNNEncoder) (cell : RNNCell) training
    (x : Tensor3 R) (lengths : list nat) g :
  rnn enc = Some cell ->
  length lengths = sz0 x -> 0 < sz0 x -> 0 < sz2 x ->
  (forall l, In l lengths -> 0 < l <= sz1 x) ->
  exists (p : PackedSequence) (pos : nat -> nat),
    pfeat p = sz2 x /\
    (forall b, b < sz0 x ->
       count_gt (pos b) (batch_sizes p) = nth b lengths O /\
       (forall t, pos b < nth t (batch_sizes p) O <-> t < nth b lengths O) /\
       (forall t k, t < nth b lengths O -> pdata p t (pos b) k = at3 x b t k)) /\
    (forall q g', run_packed cell training p g = Some (q, g') -> batch_sizes q = batch_sizes p ->
       exists z, RNNEncoder_forward enc training x lengths g = dropout (rnn_drop_prob enc) training z g' /\
         teq3 z (mkT3 (sz0 x) (sz1 x) (pfeat q) (fun b t k =>
                   if t <? nth b lengths O then pdata q t (pos b) k else 0%R))) /\
    (run_packed cell training p g = None -> RNNEncoder_forward enc training x lengths g = None).
Proof.
  intros Hrnn Hlen Hn Hw Hpos.
  pose proof (sort_desc_spec lengths) as HSD.
  destruct (sort_desc lengths) as [L I] eqn:HS.
  destruct HSD as (HLl & HIl & HSS & HIp & HLI).
  assert (HLpos : forall v, In v L -> 0 < v <= sz1 x).
  { intros v Hv. apply In_nth with (d := O) in Hv as (i & Hi & <-).
    rewrite HLl in Hi. rewrite (proj2 (HLI i Hi)). apply Hpos, nth_In, (proj1 (HLI i Hi)). }
  assert (HT : 0 < sz1 x).
  { destruct lengths as [|l0 ls]; [cbn in Hlen; lia|].
    pose proof (Hpos l0 (or_introl eq_refl)). lia. }
  set (x1 := mkT3 (length I) (sz1 x) (sz2 x) (fun b t k => at3 x (nth b I O) t k)).
  assert (Hsel : index_select0 x I = Some x1).
  { unfold index_select0. replace (forallb _ I) with true; [reflexivity|].
    symmetry. apply forallb_forall. intros i Hi. apply Nat.ltb_lt.
    apply In_nth with (d := O) in Hi as (j & Hj & <-). rewrite HIl in Hj.
    rewrite <- Hlen. apply (HLI j Hj). }
  set (maxL := fold_right Nat.max O L).
  assert (HmaxL : maxL <= sz1 x) by (apply fold_max_le; intros v Hv; apply HLpos, Hv).
  set (bs := map (fun t => count_gt t L) (seq 0 maxL)).
  set (p := mkPackedSequence bs
              (fun t b k => if b <? count_gt t L then at3 x1 b t k else 0%R) (sz2 x1)).
  assert (Hpack : pack_padded_sequence x1 L = Some p).
  { unfold pack_padded_sequence. cbn [sz0 sz1 sz2 x1].
    replace (length I * sz1 x * sz2 x =? 0) with false
      by (symmetry; apply Nat.eqb_neq; rewrite HIl, Hlen; nia).
    replace (length L =? length I) with true by (symmetry; apply Nat.eqb_eq; lia).
    replace (length L =? 0) with false by (symmetry; apply Nat.eqb_neq; lia).
    replace (existsb _ L) with false.
    2:{ symmetry. apply not_true_iff_false. intros Hex. apply existsb_exists in Hex as (v & Hv & Hv0).
        apply Nat.eqb_eq in Hv0. specialize (HLpos v Hv). lia. }
    rewrite sorted_desc_StronglySorted by exact HSS.
    assert (E : (sz1 x <? fold_right Nat.max O L) = false) by (apply Nat.ltb_ge; exact HmaxL).
    rewrite E. reflexivity. }
  assert (Hbsl : length bs = maxL) by (unfold bs; rewrite length_map, length_seq; reflexivity).
  assert (HIp' : I ≡ₚ seq 0 (length I)) by (rewrite HIl; exact HIp).
  pose proof (sort_asc_inverse I HIp') as [HJl HJ].
  destruct (sort_asc I) as [Ia J] eqn:HSa. cbn [snd] in HJl, HJ.
  assert (HmaxL0 : 0 < maxL).
  { destruct L as [|a L']; [cbn in HLl; lia|].
    pose proof (HLpos a (or_introl eq_refl)). pose proof (fold_max_ge (a :: L') a (or_introl eq_refl)).
    unfold maxL. lia. }
  assert (Hbs0 : nth O bs O = length I).
  { unfold bs. rewrite nth_map_seq by exact HmaxL0.
    rewrite count_gt_all by (intros v Hv; apply HLpos, Hv). lia. }
  assert (Hseq : forall b, b < sz0 x ->
     nth b J O < length I /\ nth (nth b J O) I O = b /\
     (forall t', nth b J O < count_gt t' L <-> t' < nth b lengths O) /\
     nth b lengths O <= maxL /\
     (forall t', nth b J O < nth t' bs O <-> t' < nth b lengths O) /\
     (forall t', (t' <? length bs) && (nth b J O <? nth t' bs O) = (t' <? nth b lengths O))).
  { intros b Hb. rewrite <- Hlen, <- HIl in Hb.
    destruct (HJ b Hb) as [Hjb HIjb].
    set (jb := nth b J O) in *.
    assert (Hlenjb : nth jb L O = nth b lengths O).
    { rewrite (proj2 (HLI jb ltac:(lia))), HIjb. reflexivity. }
    assert (Hkey : forall t', jb < count_gt t' L <-> t' < nth b lengths O).
    { intros t'. rewrite <- Hlenjb. apply count_gt_sorted; [exact HSS|lia]. }
    assert (HlenmaxL : nth b lengths O <= maxL).
    { rewrite <- Hlenjb. apply fold_max_ge, nth_In. lia. }
    assert (Hlt : forall t', jb < nth t' bs O <-> t' < nth b lengths O).
    { intros t'. destruct (Nat.ltb_spec t' maxL) as [Ht|Ht].
      - unfold bs. rewrite nth_map_seq by exact Ht. apply Hkey.
      - rewrite nth_overflow by lia. lia. }
    do 5 (split; [assumption|]).
    intros t'. rewrite Hbsl. destruct (Nat.ltb_spec t' maxL) as [Ht|Ht]; cbn [andb].
    - apply Bool.eq_iff_eq_true. rewrite !Nat.ltb_lt. apply Hlt.
    - symmetry. apply Nat.ltb_ge. lia. }
  exists p, (fun b => nth b J O).
  split; [reflexivity|].
  split.
  { intros b Hb. destruct (Hseq b Hb) as (Hjb & HIjb & Hkey & Hle & Hlt & _).
    split; [unfold bs; apply count_gt_map_seq; [exact Hkey|exact Hle]|].
    split; [exact Hlt|].
    intros t k Ht. cbn [pdata p].
    replace (nth b J O <? count_gt t L) with true by (symmetry; apply Nat.ltb_lt, Hkey, Ht).
    cbn [x1 at3]. rewrite HIjb. reflexivity. }
  split.
  - intros q g' Hrun Hbq.
    set (padded := mkT3 (nth O bs O) (sz1 x) (pfeat q) (fun b t k =>
           if (t <? length bs) && (b <? nth t bs O) then pdata q t b k else 0%R)).
    assert (Hpad : exists lens, pad_packed_sequence q (sz1 x) = Some (padded, lens)).
    { eexists. unfold pad_packed_sequence. rewrite Hbq. cbn [batch_sizes p].
      assert (E : (sz1 x <? length bs) = false) by (rewrite Hbsl; apply Nat.ltb_ge; exact HmaxL).
      rewrite E. reflexivity. }
    destruct Hpad as [lens Hpad].
    set (z := mkT3 (length J) (sz1 x) (pfeat q) (fun b t k => at3 padded (nth b J O) t k)).
    assert (Hsel2 : index_select0 padded J = Some z).
    { unfold index_select0. replace (forallb _ J) with true; [reflexivity|].
      symmetry. apply forallb_forall. intros i Hi. apply Nat.ltb_lt.
      apply In_nth with (d := O) in Hi as (j & Hj & <-). rewrite HJl in Hj.
      cbn [sz0 padded]. rewrite Hbs0. apply (HJ j Hj). }
    exists z. split.
    { unfold RNNEncoder_forward, bindM, liftM. rewrite HS. cbv beta iota zeta.
      rewrite Hsel, Hpack, Hrnn. cbv beta iota zeta. rewrite Hrun. cbv beta iota zeta.
      rewrite Hpad. cbv beta iota zeta. rewrite HSa. cbv beta iota zeta. cbn [fst].
      rewrite Hsel2. reflexivity. }
    unfold teq3. cbn [sz0 sz1 sz2 z at3].
    split; [rewrite HJl, HIl; exact Hlen|]. split; [reflexivity|]. split; [reflexivity|].
    intros b t k Hb Ht Hk. rewrite HJl, HIl, Hlen in Hb.
    destruct (Hseq b Hb) as (_ & _ & _ & _ & _ & Hcond).
    cbn [padded at3]. rewrite Hcond. reflexivity.
  - intros Hnone. unfold RNNEncoder_forward, bindM, liftM. rewrite HS. cbv beta iota zeta.
    rewrite Hsel, Hpack, Hrnn. cbv beta iota zeta. rewrite Hnone. reflexivity.
Qed.

(** One layer on a packed batch, seen per sequence: at position [pos b],
    the layer's computation on the [len b] real steps of sequence [b]. *)
Lemma run_layer_seq (run : SeqFun) (w B : nat) (len pos : nat -> nat) (q : PackedSequence)
    (f : nat -> nat -> nat -> R) :
  (forall b, b < B -> count_gt (pos b) (batch_sizes q) = len b /\
     forall t, pos b < nth t (batch_sizes q) O <-> t < len b) ->
  (forall b t k, b < B -> t < len b -> pdata q t (pos b) k = f b t k) ->
  forall b t k, b < B -> t < len b ->
    pdata (run_layer run w q) t (pos b) k =
    run (len b) (fun t' k' => if t' <? len b then f b t' k' else 0%R) t k.
Proof.
  intros Hq Hf b t k Hb Ht. destruct (Hq b Hb) as [Hc Hlt].
  unfold run_layer; cbn [pdata].
  replace (pos b <? nth t (batch_sizes q) O) with true by (symmetry; apply Nat.ltb_lt, Hlt, Ht).
  unfold packed_len. rewrite Hc. f_equal. extensionality t'. extensionality k'.
  destruct (Nat.ltb_spec t' (len b)); [apply Hf; assumption|reflexivity].
Qed.

Lemma stack_run_agree (run : nat -> SeqFun) l m n (xs xs' : nat -> nat -> R) :
  (forall t k, t < n -> xs t k = xs' t k) ->
  forall t k, t < n -> stack_run run l m n xs t k = stack_run run l m n xs' t k.
Proof.
  destruct m as [|m]; intros Hx t k Ht; cbn [stack_run]; [apply Hx, Ht|].
  replace (fun t0 k0 => if t0 <? n then xs t0 k0 else 0%R)
    with (fun t0 k0 => if t0 <? n then xs' t0 k0 else 0%R); [reflexivity|].
  extensionality t0; extensionality k0.
  destruct (Nat.ltb_spec t0 n); [symmetry; apply Hx; assumption|reflexivity].
Qed.

Lemma run_layers_SS cell training l r x :
  run_layers cell training l (S (S r)) x =
  (let y := run_layer (cell_run cell l) (cell_out cell) x in
   let! y := (if training then
                if Req_dec_T (cell_dropout cell) 0 then retM y
                else packed_dropout (cell_dropout cell) y
              else retM y) in
   run_layers cell training (S l) (S r) y).
Proof. reflexivity. Qed.

(** Without dropout between layers (evaluation mode, a zero probability,
    or a single layer), the stack runs each sequence through the layers on
    its own steps, and does not touch the random generator. *)
Lemma run_layers_exact (cell : RNNCell) training (B : nat) (len pos : nat -> nat) m :
  forall l q f,
  training = false \/ cell_dropout cell = 0%R \/ m <= 1 ->
  (forall b, b < B -> count_gt (pos b) (batch_sizes q) = len b /\
     forall t, pos b < nth t (batch_sizes q) O <-> t < len b) ->
  (forall b t k, b < B -> t < len b -> pdata q t (pos b) k = f b t k) ->
  exists q', (forall g, run_layers cell training l m q g = Some (q', g)) /\
    batch_sizes q' = batch_sizes q /\ (0 < m -> pfeat q' = cell_out cell) /\
    forall b t k, b < B -> t < len b ->
      pdata q' t (pos b) k = stack_run (cell_run cell) l m (len b) (f b) t k.
Proof.
  induction m as [|m IH]; intros l q f Hmode Hq Hf.
  - exists q. split; [reflexivity|]. split; [reflexivity|]. split; [lia|].
    intros b t k Hb Ht. apply Hf; assumption.
  - destruct m as [|m'].
    + exists (run_layer (cell_run cell l) (cell_out cell) q).
      split; [reflexivity|]. split; [reflexivity|]. split; [reflexivity|].
      intros b t k Hb Ht. rewrite (run_layer_seq _ _ B len pos q f Hq Hf b t k Hb Ht). reflexivity.
    + assert (Hy : forall g,
        (if training then
           if Req_dec_T (cell_dropout cell) 0 then retM (run_layer (cell_run cell l) (cell_out cell) q)
           else packed_dropout (cell_dropout cell) (run_layer (cell_run cell l) (cell_out cell) q)
         else retM (run_layer (cell_run cell l) (cell_out cell) q)) g =
        Some (run_layer (cell_run cell l) (cell_out cell) q, g)).
      { intros g. destruct training; [|reflexivity].
        destruct (Req_dec_T (cell_dropout cell) 0) as [E|E]; [reflexivity|].
        exfalso. destruct Hmode as [H|[H|H]]; [discriminate|contradiction|lia]. }
      destruct (IH (S l) (run_layer (cell_run cell l) (cell_out cell) q)
                  (fun b t k => cell_run cell l (len b)
                                  (fun t' k' => if t' <? len b then f b t' k' else 0%R) t k))
        as (q' & Hr & Hb' & Hf' & Hv).
      { destruct Hmode as [H|[H|H]]; [left; exact H|right; left; exact H|lia]. }
      { exact Hq. }
      { intros b t k Hb Ht. apply (run_layer_seq _ _ B len pos q f Hq Hf b t k Hb Ht). }
      exists q'. split.
      { intros g. rewrite run_layers_SS. cbv zeta. unfold bindM. rewrite Hy. apply Hr. }
      split; [exact Hb'|]. split; [intros _; apply Hf'; lia|].
      intros b t k Hb Ht. rewrite Hv by assumption. reflexivity.
Qed.

(** In every mode, with a dropout probability in [0, 1], the stack
    succeeds and keeps the batch sizes. *)
Lemma run_layers_ok (cell : RNNCell) training m :
  (0 <= cell_dropout cell <= 1)%R ->
  forall l q g, exists q' g', run_layers cell training l m q g = Some (q', g') /\
    batch_sizes q' = batch_sizes q /\ (0 < m -> pfeat q' = cell_out cell).
Proof.
  intros Hd. induction m as [|m IH]; intros l q g.
  - exists q, g. split; [reflexivity|]. split; [reflexivity|lia].
  - destruct m as [|m'].
    + eexists; eexists. split; [reflexivity|]. split; [reflexivity|]. intros _; reflexivity.
    + rewrite run_layers_SS. cbv zeta. unfold bindM.
      assert (Hy : exists y' g1,
        (if training then
           if Req_dec_T (cell_dropout cell) 0 then retM (run_layer (cell_run cell l) (cell_out cell) q)
           else packed_dropout (cell_dropout cell) (run_layer (cell_run cell l) (cell_out cell) q)
         else retM (run_layer (cell_run cell l) (cell_out cell) q)) g = Some (y', g1) /\
        batch_sizes y' = batch_sizes q).
      { destruct training; [|eexists; eexists; split; reflexivity].
        destruct (Req_dec_T (cell_dropout cell) 0); [eexists; eexists; split; reflexivity|].
        unfold packed_dropout, bindM, retM, dropout.
        destruct (Rlt_dec (cell_dropout cell) 0); [lra|].
        destruct (Rlt_dec 1 (cell_dropout cell)); [lra|].
        eexists; eexists; split; reflexivity. }
      destruct Hy as (y' & g1 & Hy & Hby). rewrite Hy.
      destruct (IH (S l) y' g1) as (q' & g' & Hr & Hb & Hp).
      exists q', g'. split; [exact Hr|]. split; [rewrite Hb, Hby; reflexivity|].
      intros _; apply Hp; lia.
Qed.

(** The contract of [RNNEncoder.forward] when no dropout is applied
    between the layers: before the final dropout, the result is, for each
    sequence, the stacked layers run on its real steps alone, with zeros at
    the padding positions, in the original batch order. *)
Lemma rnn_encoder_forward_spec (enc : RNNEncoder) (cell : RNNCell) training
    (x : Tensor3 R) (lengths : list nat) g :
  rnn enc = Some cell -> cell_in cell = sz2 x -> 0 < cell_layers cell ->
  length lengths = sz0 x -> 0 < sz0 x -> 0 < sz2 x ->
  (forall l, In l lengths -> 0 < l <= sz1 x) ->
  training = false \/ cell_dropout cell = 0%R \/ cell_layers cell = 1 ->
  exists z, RNNEncoder_forward enc training x lengths g = dropout (rnn_drop_prob enc) training z g /\
    teq3 z (encoder_spec (stack_run (cell_run cell) O (cell_layers cell)) (cell_out cell) x lengths).
Proof.
  intros Hrnn Hin HL Hlen Hn Hw Hpos Hmode.
  destruct (rnn_encoder_forward_packed enc cell training x lengths g Hrnn Hlen Hn Hw Hpos)
    as (p & pos & Hpf & Hseq & Hsome & _).
  destruct (run_layers_exact cell training (sz0 x) (fun b => nth b lengths O) pos (cell_layers cell)
              O p (fun b t k => at3 x b t k)) as (q & Hq & Hbq & Hfq & Hv).
  { destruct Hmode as [H|[H|H]]; [left; exact H|right; left; exact H|right; right; lia]. }
  { intros b Hb. destruct (Hseq b Hb) as (H1 & H2 & _). split; assumption. }
  { intros b t k Hb Ht. apply (Hseq b Hb); assumption. }
  assert (Hrun : run_packed cell training p g = Some (q, g)).
  { unfold run_packed. rewrite Hpf, Hin, Nat.eqb_refl. apply Hq. }
  destruct (Hsome q g Hrun Hbq) as (z & Hfw & Hz).
  exists z. split; [exact Hfw|].
  eapply teq3_trans; [exact Hz|]. rewrite (Hfq HL). unfold teq3, encoder_spec; cbn [sz0 sz1 sz2 at3].
  split; [reflexivity|]. split; [reflexivity|]. split; [reflexivity|].
  intros b t k Hb Ht Hk. destruct (Nat.ltb_spec t (nth b lengths O)) as [Htl|Htl]; [|reflexivity].
  rewrite (Hv b t k Hb Htl). apply stack_run_agree; [|exact Htl].
  intros t' k' Ht'. apply Nat.ltb_lt in Ht'. rewrite Ht'. reflexivity.
Qed.

End Encoder.

Lemma torch_rnn_ok input_size hidden_size num_layers d run :
  (0 < hidden_size)%nat -> (0 < num_layers)%nat -> (0 < input_size)%nat -> 0 <= d <= 1 ->
  torch_rnn input_size hidden_size num_layers d run =
    Some (mkRNNCell input_size (2 * hidden_size) num_layers d run).
Proof.
  intros Hh Hl Hi [H0 H1]. unfold torch_rnn.
  destruct (Rlt_dec d 0); [lra|]. destruct (Rlt_dec 1 d); [lra|].
  replace (Nat.eqb hidden_size 0) with false by (symmetry; apply Nat.eqb_neq; lia).
  replace (Nat.eqb num_layers 0) with false by (symmetry; apply Nat.eqb_neq; lia).
  replace (Nat.eqb input_size 0) with false by (symmetry; apply Nat.eqb_neq; lia).
  reflexivity.
Qed.

Lemma RNNEncoder_init_supported input_size hidden_size num_layers rnn_type drop_prob learned :
  In rnn_type ["LSTM"; "RNN"; "GRU"; "URNN"; "GORU"]%string ->
  (0 < hidden_size)%nat -> (0 < num_layers)%nat -> (0 < input_size)%nat -> 0 <= drop_prob <= 1 ->
  exists cell,
    RNNEncoder_init input_size hidden_size num_layers rnn_type drop_prob learned =
      Some (mkRNNEncoder drop_prob (Some cell)) /\
    cell_in cell = input_size /\ cell_out cell = (2 * hidden_size)%nat /\
    cell_run cell = learned rnn_type /\ (0 < cell_layers cell)%nat /\
    0 <= cell_dropout cell <= 1 /\
    (In rnn_type ["LSTM"; "RNN"; "GRU"]%string ->
       cell_layers cell = num_layers /\
       cell_dropout cell = (if Nat.ltb 1 num_layers then drop_prob else 0)) /\
    (In rnn_type ["URNN"; "GORU"]%string -> cell_layers cell = 1%nat /\ cell_dropout cell = 0).
Proof.
  intros Hty Hh Hl Hi Hp.
  assert (Hd : 0 <= (if Nat.ltb 1 num_layers then drop_prob else 0) <= 1)
    by (destruct (Nat.ltb 1 num_layers); lra).
  unfold RNNEncoder_init.
  destruct Hty as [<-|[<-|[<-|[<-|[<-|[]]]]]]; cbn -[torch_rnn];
    try (rewrite torch_rnn_ok by assumption);
    (eexists; split; [reflexivity|]); cbn [unitary_cell cell_in cell_out cell_run cell_layers cell_dropout];
    (split; [reflexivity|]); (split; [reflexivity|]); (split; [reflexivity|]);
    (split; [lia|]); (split; [first [exact Hd | lra]|]);
    (split; intros Hin; cbn in Hin;
       [first [split; reflexivity | idtac] | first [split; reflexivity | idtac]]);
    try (repeat (destruct Hin as [Hin|Hin]; try discriminate); contradiction).
Qed.

Lemma torch_rnn_None input_size hidden_size num_layers d run :
  torch_rnn input_size hidden_size num_layers d run = None <->
  (d < 0 \/ 1 < d \/ hidden_size = O \/ num_layers = O \/ input_size = O).
Proof.
  unfold torch_rnn.
  destruct (Rlt_dec d 0); [tauto|]. destruct (Rlt_dec 1 d); [tauto|].
  destruct (Nat.eqb_spec hidden_size 0); [tauto|].
  destruct (Nat.eqb_spec num_layers 0); [tauto|].
  destruct (Nat.eqb_spec input_size 0); [tauto|].
  split; [discriminate|intros [H|[H|[H|[H|H]]]]; contradiction].
Qed.

Lemma cell_dropout_range (num_layers : nat) (drop_prob : R) :
  ((if Nat.ltb 1 num_layers then drop_prob else 0) < 0 \/
   1 < (if Nat.ltb 1 num_layers then drop_prob else 0)) <->
  ((1 < num_layers)%nat /\ (drop_prob < 0 \/ 1 < drop_prob)).
Proof.
  destruct (Nat.ltb_spec 1 num_layers) as [Hl|Hl]; split.
  - intros Hd. split; [exact Hl|exact Hd].
  - intros [_ Hd]. exact Hd.
  - intros [Hd|Hd]; lra.
  - intros [Hl' _]. lia.
Qed.

Lemma encoder_option_None (o : option RNNCell) drop_prob :
  (let? c := o in Some (mkRNNEncoder drop_prob (Some c))) = None <-> o = None.
Proof. destruct o; split; congruence. Qed.

Lemma RNNEncoder_forward_no_cell enc training x lengths g :
  rnn enc = None -> RNNEncoder_forward enc training x lengths g = None.
Proof.
  intros Hr. unfold RNNEncoder_forward, bindM, liftM.
  destruct (sort_desc lengths) as [L I]. cbv beta iota zeta.
  destruct (index_select0 x I); [|reflexivity].
  destruct (pack_padded_sequence t L); [|reflexivity].
  rewrite Hr. reflexivity.
Qed.

Lemma gen_free_ret {A} (a : A) : gen_free (retM a).
Proof. exists (Some a). reflexivity. Qed.

Lemma gen_free_lift {A} (o : option A) : gen_free (liftM o).
Proof. exists o. intros g. destruct o; reflexivity. Qed.

Lemma gen_free_bind {A B} (m : M A) (k : A -> M B) :
  gen_free m -> (forall a, gen_free (k a)) -> gen_free (bindM m k).
Proof.
  intros [o Hm] Hk. destruct o as [a|].
  - destruct (Hk a) as [o' Hk']. exists o'. intros g. unfold bindM. rewrite Hm. apply Hk'.
  - exists None. intros g. unfold bindM. rewrite Hm. reflexivity.
Qed.

Lemma gen_free_dropout_eval p x : gen_free (dropout p false x).
Proof.
  unfold dropout. destruct (Rlt_dec p 0); [exists None; reflexivity|].
  destruct (Rlt_dec 1 p); [exists None; reflexivity|]. exists (Some x). reflexivity.
Qed.

Lemma gen_free_runs {A} (m : M A) g1 g2 :
  gen_free m -> option_map fst (m g1) = option_map fst (m g2).
Proof. intros [o Hm]. rewrite !Hm. destruct o; reflexivity. Qed.

Lemma gen_free_run_packed cell p : gen_free (run_packed cell false p).
Proof.
  unfold run_packed. destruct (Nat.eqb (pfeat p) (cell_in cell)); [|apply gen_free_lift].
  generalize O as l. generalize p as x. generalize (cell_layers cell) as m.
  induction m as [|[|r] IH]; intros x l; [apply gen_free_ret|apply gen_free_ret|].
  rewrite run_layers_SS. cbv zeta. apply gen_free_bind; [apply gen_free_ret|intros y; apply IH].
Qed.

Ltac gen_free_tac :=
  repeat match goal with
  | |- gen_free (run_packed _ false _) => apply gen_free_run_packed
  | |- gen_free (bindM _ _) => apply gen_free_bind; [|intros ?]
  | |- gen_free (liftM _) => apply gen_free_lift
  | |- gen_free (retM _) => apply gen_free_ret
  | |- gen_free (dropout _ false _) => apply gen_free_dropout_eval
  | |- gen_free (match ?p with pair _ _ => _ end) => destruct p
  end.

(** ** Lemmas for the further properties *)

Section ViewFacts.
Local Open Scope nat_scope.

Lemma all_below_spec (x : Tensor2 nat) n :
  all_below x n = true <->
  forall b i, b < t2_rows x -> i < t2_cols x -> t2_at x b i < n.
Proof.
  unfold all_below. rewrite forallb_forall. split.
  - intros H b i Hb Hi. specialize (H b (proj2 (in_seq _ _ _) (conj (Nat.le_0_l _) Hb))).
    rewrite forallb_forall in H. apply Nat.ltb_lt, H, in_seq. lia.
  - intros H b Hb. apply in_seq in Hb. apply forallb_forall. intros i Hi.
    apply in_seq in Hi. apply Nat.ltb_lt, H; lia.
Qed.

Lemma embedding_lookup_ok (table : Tensor2 R) (x : Tensor2 nat) :
  (forall b i, b < t2_rows x -> i < t2_cols x -> t2_at x b i < t2_rows table) ->
  embedding_lookup table x =
    Some (mkT3 (t2_rows x) (t2_cols x) (t2_cols table) (fun b i k => t2_at table (t2_at x b i) k)).
Proof.
  intros H. unfold embedding_lookup. rewrite (proj2 (all_below_spec x _) H). reflexivity.
Qed.

Lemma embedding_lookup_bad (table : Tensor2 R) (x : Tensor2 nat) b i :
  b < t2_rows x -> i < t2_cols x -> t2_rows table <= t2_at x b i ->
  embedding_lookup table x = None.
Proof.
  intros Hb Hi Hbad. unfold embedding_lookup.
  destruct (all_below x (t2_rows table)) eqn:E; [|reflexivity].
  apply all_below_spec with (b := b) (i := i) in E; lia.
Qed.

Lemma view2_infer_rows_spec {A} (x : Tensor3 A) :
  0 < sz2 x ->
  exists v, view2_infer_rows x (sz2 x) = Some v /\
    t2_rows v = sz0 x * sz1 x /\ t2_cols v = sz2 x /\
    forall b s c, b < sz0 x -> s < sz1 x -> c < sz2 x ->
      t2_at v (b * sz1 x + s) c = at3 x b s c.
Proof.
  destruct x as [B S W f]; cbn. intros HW. unfold view2_infer_rows; cbn.
  replace (W =? 0) with false by (symmetry; apply Nat.eqb_neq; lia).
  replace (B * S * W mod W =? 0) with true
    by (symmetry; apply Nat.eqb_eq, Nat.Div0.mod_mul).
  eexists. split; [reflexivity|]. cbn.
  split; [apply Nat.div_mul; lia|]. split; [reflexivity|].
  intros b s c Hb Hs Hc.
  assert (E1 : ((b * S + s) * W + c) / (S * W) = b).
  { replace ((b * S + s) * W + c) with (b * (S * W) + (s * W + c)) by lia. apply flat_div. nia. }
  assert (E2 : ((b * S + s) * W + c) / W = b * S + s) by (apply flat_div; exact Hc).
  assert (E3 : ((b * S + s) * W + c) mod W = c) by (apply flat_mod; exact Hc).
  rewrite E1, E2, E3. rewrite flat_mod by exact Hs. reflexivity.
Qed.

Lemma view2_cols {A} (x : Tensor3 A) cols v :
  view2_infer_rows x cols = Some v -> t2_cols v = cols.
Proof.
  unfold view2_infer_rows. destruct (cols =? 0); [discriminate|].
  destruct (_ =? 0); [|discriminate]. intros [= <-]. reflexivity.
Qed.

Lemma view3_infer_first_spec {A} (y : Tensor2 A) B S E :
  0 < S -> 0 < E -> t2_rows y = B * S -> t2_cols y = E ->
  exists v, view3_infer_first y S E = Some v /\
    sz0 v = B /\ sz1 v = S /\ sz2 v = E /\
    forall i j k, j < S -> k < E -> at3 v i j k = t2_at y (i * S + j) k.
Proof.
  destruct y as [r c f]; cbn. intros HS HE -> ->. unfold view3_infer_first; cbn.
  replace (S * E =? 0) with false by (symmetry; apply Nat.eqb_neq; nia).
  replace (B * S * E mod (S * E) =? 0) with true
    by (symmetry; apply Nat.eqb_eq; rewrite <- Nat.mul_assoc; apply Nat.Div0.mod_mul).
  eexists. split; [reflexivity|]. cbn.
  split; [rewrite <- Nat.mul_assoc; apply Nat.div_mul; nia|]. split; [reflexivity|].
  split; [reflexivity|]. intros i j k Hj Hk.
  replace (i * S * E + j * E + k) with ((i * S + j) * E + k) by lia.
  rewrite flat_div, flat_mod by exact Hk. reflexivity.
Qed.

End ViewFacts.

Lemma CNN_forward_eq (C F k : nat) (w : nat -> nat -> nat -> R) (bv : nat -> R) (x : Tensor3 R) :
  sz1 x = C -> (k <= sz2 x)%nat ->
  CNN_forward (CNN_init C F k w bv) x =
    Some (mkT2 (sz0 x) F (fun n o => max_upto (sz2 x - k)
      (fun t => relu (bv o + sumR C (fun c => sumR k (fun j => w o c j * at3 x n c (t + j)%nat)))))).
Proof.
  intros HC Hk. unfold CNN_forward, CNN_init, conv1d, max_dim2; cbn [conv1D conv_in conv_k conv_out].
  rewrite HC, Nat.eqb_refl. replace (Nat.leb k (sz2 x)) with true by (symmetry; apply Nat.leb_le; exact Hk).
  cbn. replace (sz2 x - k + 1 =? 0)%nat with false by (symmetry; apply Nat.eqb_neq; lia).
  replace (sz2 x - k + 1 - 1)%nat with (sz2 x - k)%nat by lia. reflexivity.
Qed.

Lemma Linear_forward_ok (l : Linear) (x : Tensor3 R) :
  sz2 x = lin_in l ->
  Linear_forward l x = Some (mkT3 (sz0 x) (sz1 x) (lin_out l) (fun b i o =>
      sumR (lin_in l) (fun k => at3 x b i k * lin_w l o k)
      + match lin_b l with Some bv => bv o | None => 0 end)).
Proof. intros H. unfold Linear_forward. rewrite H, Nat.eqb_refl. reflexivity. Qed.

Lemma highway_init_forward N H gate_p transform_p (x : Tensor3 R) :
  sz2 x = H ->
  exists y, HighwayEncoder_forward (HighwayEncoder_init N H gate_p transform_p) x = Some y /\
    teq3 y (highway_compose_spec (seq 0 N) gate_p transform_p x) /\
    sz0 y = sz0 x /\ sz1 y = sz1 x /\ sz2 y = sz2 x.
Proof.
  intros Hx. unfold HighwayEncoder_forward, HighwayEncoder_init; cbn [hw_gates hw_transforms].
  rewrite zip_map_same.
  destruct (highway_loop_spec H gate_p transform_p (seq 0 N) x Hx) as (y & Hy & Ey).
  exists y. split; [exact Hy|]. split; [exact Ey|].
  destruct (highway_compose_spec_shape (seq 0 N) gate_p transform_p x) as (S0 & S1 & S2).
  destruct Ey as (E0 & E1 & E2 & _). repeat split; congruence.
Qed.

Lemma teq3_mk_ext a b c f f' :
  (forall i j k, (i < a)%nat -> (j < b)%nat -> (k < c)%nat -> f i j k = f' i j k) ->
  teq3 (mkT3 a b c f) (mkT3 a b c f').
Proof. intros H. unfold teq3; cbn. repeat split. exact H. Qed.

Lemma dropout_teq p training (x x' : Tensor3 R) g z g' :
  teq3 x x' -> dropout p training x g = Some (z, g') ->
  exists z', dropout p training x' g = Some (z', g') /\ teq3 z z'.
Proof.
  intros (E0 & E1 & E2 & E) Hd. unfold dropout in *.
  destruct (Rlt_dec p 0); [discriminate|]. destruct (Rlt_dec 1 p); [discriminate|].
  destruct training; injection Hd as <- <-; eexists; split; try reflexivity.
  - unfold teq3; cbn. repeat split; try assumption.
    intros b i k Hb Hi Hk. rewrite E by assumption. reflexivity.
  - unfold teq3. repeat split; assumption.
Qed.

Lemma max_upto_ext n f f' : (forall t, (t <= n)%nat -> f t = f' t) -> max_upto n f = max_upto n f'.
Proof.
  induction n as [|n IH]; intros H; cbn; [apply H; lia|].
  rewrite IH by (intros; apply H; lia). rewrite H by lia. reflexivity.
Qed.

Lemma linear_teq (l : Linear) (x x' : Tensor3 R) :
  teq3 x x' -> sz2 x = lin_in l ->
  exists y y', Linear_forward l x = Some y /\ Linear_forward l x' = Some y' /\ teq3 y y'.
Proof.
  intros (E0 & E1 & E2 & E) Hx.
  rewrite !Linear_forward_ok by congruence. do 2 eexists. split; [reflexivity|]. split; [reflexivity|].
  rewrite E0, E1. apply teq3_mk_ext. intros b i o Hb Hi Ho. f_equal.
  apply sumR_ext_lt. intros k Hk. rewrite E by (rewrite ?E0, ?E1; lia). reflexivity.
Qed.

Lemma teq3_sym x y : teq3 x y -> teq3 y x.
Proof.
  intros (A0 & A1 & A2 & A). unfold teq3. repeat split; try congruence.
  intros b i k Hb Hi Hk. symmetry. apply A; congruence.
Qed.

Lemma embedding_lookup_shape (table : Tensor2 R) (x : Tensor2 nat) e :
  embedding_lookup table x = Some e ->
  sz0 e = t2_rows x /\ sz1 e = t2_cols x /\ sz2 e = t2_cols table.
Proof.
  unfold embedding_lookup. destruct (all_below _ _); [|discriminate].
  intros [= <-]. cbn. auto.
Qed.

Lemma relu_nonneg v : 0 <= relu v.
Proof. unfold relu. apply Rmax_l. Qed.

Lemma sigmoid_bounds v : 0 < sigmoid v < 1.
Proof.
  unfold sigmoid. pose proof (exp_pos (- v)). split.
  - apply Rinv_0_lt_compat. lra.
  - rewrite <- Rinv_1. apply Rinv_lt_contravar; lra.
Qed.

Lemma convex_between (gv tv xv : R) :
  0 < gv < 1 -> Rmin xv tv <= gv * tv + (1 - gv) * xv <= Rmax xv tv.
Proof.
  intros Hg. unfold Rmin, Rmax.
  destruct (Rle_dec xv tv); split; nra.
Qed.

Lemma highway_layer_spec_nonneg gp tp (x : Tensor3 R) :
  (forall b i k, (b < sz0 x)%nat -> (i < sz1 x)%nat -> (k < sz2 x)%nat -> 0 <= at3 x b i k) ->
  forall b i k, (b < sz0 x)%nat -> (i < sz1 x)%nat -> (k < sz2 x)%nat ->
    0 <= at3 (highway_layer_spec gp tp x) b i k.
Proof.
  intros Hx b i k Hb Hi Hk. cbn.
  match goal with |- 0 <= sigmoid ?a * relu ?c + _ => 
    pose proof (sigmoid_bounds a); pose proof (relu_nonneg c) end.
  pose proof (Hx b i k Hb Hi Hk). nra.
Qed.

Lemma highway_compose_spec_nonneg layers gate_p transform_p (x : Tensor3 R) :
  (forall b i k, (b < sz0 x)%nat -> (i < sz1 x)%nat -> (k < sz2 x)%nat -> 0 <= at3 x b i k) ->
  forall b i k, (b < sz0 x)%nat -> (i < sz1 x)%nat -> (k < sz2 x)%nat ->
    0 <= at3 (highway_compose_spec layers gate_p transform_p x) b i k.
Proof.
  revert x. induction layers as [|l rest IH]; intros x Hx; cbn; [exact Hx|].
  intros b i k Hb Hi Hk.
  apply (IH (highway_layer_spec (gate_p l) (transform_p l) x)); cbn; try assumption.
  apply (highway_layer_spec_nonneg _ _ x Hx).
Qed.

Lemma dropout_Some_shape p training (x : Tensor3 R) g y g' :
  dropout p training x g = Some (y, g') ->
  sz0 y = sz0 x /\ sz1 y = sz1 x /\ sz2 y = sz2 x.
Proof.
  unfold dropout. destruct (Rlt_dec p 0); [discriminate|]. destruct (Rlt_dec 1 p); [discriminate|].
  destruct training; intros [= <- _]; cbn; auto.
Qed.

Lemma bmm_Some_batch (x y z : Tensor3 R) :
  bmm x y = Some z -> sz0 x = sz0 y /\ sz0 z = sz0 x.
Proof.
  unfold bmm. destruct (Nat.eqb_spec (sz0 x) (sz0 y)); [|discriminate].
  destruct (sz2 x =? sz1 y)%nat; [|discriminate]. intros [= <-]. cbn. auto.
Qed.

Lemma dropout_zero p training (z : Tensor3 R) g y g' b t k :
  dropout p training z g = Some (y, g') -> at3 z b t k = 0 -> at3 y b t k = 0.
Proof.
  unfold dropout. destruct (Rlt_dec p 0); [discriminate|]. destruct (Rlt_dec 1 p); [discriminate|].
  destruct training; intros [= <- _] Hz; cbn; [|exact Hz].
  destruct (Rlt_dec _ p); [reflexivity|]. rewrite Hz. unfold Rdiv. ring.
Qed.

Lemma sort_desc_perm (l : list nat) : fst (sort_desc l) ≡ₚ l.
Proof.
  unfold sort_desc; cbn [fst].
  transitivity (fst <$> zip l (seq 0 (length l))).
  - change (fst <$> merge_sort key_ge (zip l (seq 0 (length l))) ≡ₚ fst <$> zip l (seq 0 (length l))).
    apply Permutation_map, merge_sort_Permutation.
  - rewrite fst_zip by (rewrite length_seq; lia). reflexivity.
Qed.

Lemma sort_desc_idx_perm (l : list nat) : snd (sort_desc l) ≡ₚ seq 0 (length l).
Proof.
  pose proof (sort_desc_spec l) as HS. destruct (sort_desc l) as [L I]. cbn. tauto.
Qed.

Lemma zip_with3_same f (x y : Tensor3 R) :
  sz0 x = sz0 y -> sz1 x = sz1 y -> sz2 x = sz2 y ->
  exists w, zip_with3 f x y = Some w /\
    teq3 w (mkT3 (sz0 x) (sz1 x) (sz2 x) (fun b i k => f (at3 x b i k) (at3 y b i k))).
Proof.
  intros E0 E1 E2. unfold zip_with3. rewrite <- E0, <- E1, <- E2, !bcast_dim_same.
  eexists. split; [reflexivity|]. apply teq3_mk_ext. intros b i k Hb Hi Hk.
  rewrite !bidx_lt by assumption. reflexivity.
Qed.

Section MaskSum.
Local Open Scope nat_scope.

Lemma mask_sum_length mask : length (mask_sum mask) = t2_rows mask.
Proof. unfold mask_sum. rewrite length_map, length_seq. reflexivity. Qed.

Lemma mask_sum_bounds mask l :
  (forall b, b < t2_rows mask -> exists i, i < t2_cols mask /\ t2_at mask b i = true) ->
  In l (mask_sum mask) -> 0 < l <= t2_cols mask.
Proof.
  intros Hrow Hl. unfold mask_sum in Hl. apply in_map_iff in Hl as (b & <- & Hb).
  apply in_seq in Hb. destruct (Hrow b ltac:(lia)) as (i & Hi & Ht). split.
  - destruct (List.filter _ _) as [|n ns] eqn:E; [|cbn; lia]. exfalso.
    assert (Hin : In i (List.filter (fun i => t2_at mask b i) (seq 0 (t2_cols mask)))).
    { apply filter_In. split; [apply in_seq; lia|exact Ht]. }
    rewrite E in Hin. exact Hin.
  - transitivity (length (seq 0 (t2_cols mask))); [apply List.filter_length_le|rewrite length_seq; lia].
Qed.

End MaskSum.

Lemma dropout_bad p training x g : p < 0 \/ 1 < p -> dropout p training x g = None.
Proof.
  intros Hp. unfold dropout. destruct (Rlt_dec p 0); [reflexivity|].
  destruct (Rlt_dec 1 p); [reflexivity|]. lra.
Qed.

Lemma rnn_forward_lengths_fail (enc : RNNEncoder) (training : bool) (x : Tensor3 R)
    (lengths : list nat) (g : Gen) :
  lengths = [] \/ In O lengths \/ (sz0 x < length lengths)%nat ->
  RNNEncoder_forward enc training x lengths g = None.
Proof.
  intros Hbad. unfold RNNEncoder_forward, bindM, liftM.
  pose proof (sort_desc_perm lengths) as HL. pose proof (sort_desc_idx_perm lengths) as HI.
  destruct (sort_desc lengths) as [L I]. cbn [fst snd] in HL, HI. cbv beta iota zeta.
  unfold index_select0.
  destruct (forallb (fun i => (i <? sz0 x)%nat) I) eqn:Hsel; [|reflexivity].
  assert (Hlt : (length lengths <= sz0 x)%nat).
  { destruct lengths as [|l0 ls] eqn:El; [cbn; lia|].
    assert (Hm : In (length (l0 :: ls) - 1)%nat I).
    { rewrite HI. apply in_seq. cbn. lia. }
    rewrite forallb_forall in Hsel. specialize (Hsel _ Hm). apply Nat.ltb_lt in Hsel. lia. }
  unfold pack_padded_sequence. cbn [sz0 sz1 sz2].
  match goal with |- context [if Nat.eqb ?n 0 then _ else _] => destruct (Nat.eqb n 0) end;
    [reflexivity|].
  rewrite (Permutation_length HL), (Permutation_length HI), length_seq, Nat.eqb_refl. cbn [negb].
  destruct Hbad as [->|[H0|Hlen]]; [reflexivity| |lia].
  destruct (length lengths =? 0)%nat; [reflexivity|].
  replace (existsb (fun l => (l =? 0)%nat) L) with true; [reflexivity|].
  symmetry. apply existsb_exists. exists O. split; [|reflexivity].
  apply (Permutation_in _ (Permutation_sym HL)), H0.
Qed.

(** In every mode, an encoder whose module takes inputs of the batch's
    width succeeds on valid lengths; its output has the batch's size and
    padded length, the module's output width, and zeros at the padding
    positions. *)
Lemma rnn_encoder_forward_shape (enc : RNNEncoder) (cell : RNNCell) training
    (x : Tensor3 R) (lengths : list nat) g :
  rnn enc = Some cell -> cell_in cell = sz2 x -> 0 <= cell_dropout cell <= 1 ->
  0 <= rnn_drop_prob enc <= 1 ->
  length lengths = sz0 x -> (0 < sz0 x)%nat -> (0 < sz2 x)%nat ->
  (forall l, In l lengths -> 0 < l <= sz1 x)%nat ->
  exists y g', RNNEncoder_forward enc training x lengths g = Some (y, g') /\
    sz0 y = sz0 x /\ sz1 y = sz1 x /\ (0 < cell_layers cell -> sz2 y = cell_out cell)%nat /\
    forall b t k, (b < sz0 x)%nat -> (nth b lengths O <= t < sz1 x)%nat -> (k < sz2 y)%nat ->
      at3 y b t k = 0.
Proof.
  intros Hrnn Hin Hd Hp Hlen Hn Hw Hpos.
  destruct (rnn_encoder_forward_packed enc cell training x lengths g Hrnn Hlen Hn Hw Hpos)
    as (p & pos & Hpf & _ & Hsome & _).
  destruct (run_layers_ok cell training (cell_layers cell) Hd O p g) as (q & g1 & Hr & Hbq & Hf).
  assert (Hrun : run_packed cell training p g = Some (q, g1)).
  { unfold run_packed. rewrite Hpf, Hin, Nat.eqb_refl. exact Hr. }
  destruct (Hsome q g1 Hrun Hbq) as (z & Hfw & Hz).
  destruct (dropout_shape (rnn_drop_prob enc) training z g1 Hp) as (y & g' & Hy & Y0 & Y1 & Y2).
  pose proof Hz as (Z0 & Z1 & Z2 & Zv). cbn [sz0 sz1 sz2] in Z0, Z1, Z2.
  exists y, g'. rewrite Hfw. split; [exact Hy|].
  split; [congruence|]. split; [congruence|]. split; [intros HL; rewrite Y2, Z2; apply Hf, HL|].
  intros b t k Hb Ht Hk. apply (dropout_zero _ _ _ _ _ _ _ _ _ Hy).
  rewrite Zv by lia. cbn [at3].
  destruct (Nat.ltb_spec t (nth b lengths O)); [lia|reflexivity].
Qed.

(** An encoder whose own dropout probability is outside [0, 1] fails at
    every forward call, in its final [F.dropout]. *)
Lemma RNNEncoder_forward_bad_drop enc training x lengths g :
  rnn_drop_prob enc < 0 \/ 1 < rnn_drop_prob enc ->
  RNNEncoder_forward enc training x lengths g = None.
Proof.
  intros Hp. unfold RNNEncoder_forward, bindM, liftM.
  destruct (sort_desc lengths) as [L I]. cbv beta iota zeta.
  destruct (index_select0 x I) as [x1|]; [|reflexivity]. cbv beta iota zeta.
  destruct (pack_padded_sequence x1 L) as [p|]; [|reflexivity]. cbv beta iota zeta.
  destruct (rnn enc) as [c|]; [|reflexivity]. cbv beta iota zeta.
  destruct (run_packed c training p g) as [[q g1]|]; [|reflexivity]. cbv beta iota zeta.
  destruct (pad_packed_sequence q (sz1 x)) as [[pd lens]|]; [|reflexivity]. cbv beta iota zeta.
  destruct (sort_asc I) as [Ia J]. cbv beta iota zeta.
  cbn [fst]. destruct (index_select0 pd J) as [z|]; [|reflexivity]. cbv beta iota zeta.
  apply dropout_bad, Hp.
Qed.

(** An encoder built for one of the five supported cell types, on valid
    lengths: success, shape and zero padding, in every mode. *)
Lemma encoder_init_forward_shape (input_size hidden_size num_layers : nat) (rnn_type : string)
    (drop_prob : R) (learned : string -> nat -> SeqFun) training (x : Tensor3 R)
    (lengths : list nat) g :
  In rnn_type ["LSTM"; "RNN"; "GRU"; "URNN"; "GORU"]%string ->
  (0 < hidden_size)%nat -> (0 < num_layers)%nat -> 0 <= drop_prob <= 1 ->
  sz2 x = input_size -> (0 < input_size)%nat -> length lengths = sz0 x -> (0 < sz0 x)%nat ->
  (forall l, In l lengths -> 0 < l <= sz1 x)%nat ->
  exists enc cell y g',
    RNNEncoder_init input_size hidden_size num_layers rnn_type drop_prob learned = Some enc /\
    enc = mkRNNEncoder drop_prob (Some cell) /\
    cell_in cell = input_size /\ cell_out cell = (2 * hidden_size)%nat /\
    cell_run cell = learned rnn_type /\ (0 < cell_layers cell)%nat /\
    0 <= cell_dropout cell <= 1 /\
    (In rnn_type ["LSTM"; "RNN"; "GRU"]%string ->
       cell_layers cell = num_layers /\
       cell_dropout cell = (if Nat.ltb 1 num_layers then drop_prob else 0)) /\
    (In rnn_type ["URNN"; "GORU"]%string -> cell_layers cell = 1%nat /\ cell_dropout cell = 0) /\
    RNNEncoder_forward enc training x lengths g = Some (y, g') /\
    sz0 y = sz0 x /\ sz1 y = sz1 x /\ sz2 y = (2 * hidden_size)%nat /\
    forall b t k, (b < sz0 x)%nat -> (nth b lengths O <= t < sz1 x)%nat ->
      (k < 2 * hidden_size)%nat -> at3 y b t k = 0.
Proof.
  intros Hty Hh Hl Hp Hin Hi Hlen Hn Hpos.
  destruct (RNNEncoder_init_supported input_size hidden_size num_layers rnn_type drop_prob learned
              Hty Hh Hl Hi Hp)
    as (cell & Hinit & Hci & Hco & Hcr & HcL & Hcd & Ht & Hu).
  destruct (rnn_encoder_forward_shape (mkRNNEncoder drop_prob (Some cell)) cell training x lengths g
              eq_refl ltac:(congruence) Hcd Hp Hlen Hn ltac:(lia) Hpos)
    as (y & g' & Hfw & Y0 & Y1 & Y2 & Yz).
  exists (mkRNNEncoder drop_prob (Some cell)), cell, y, g'.
  rewrite <- Hco in *. specialize (Y2 HcL).
  repeat (split; [assumption || reflexivity|]).
  intros b t k Hb Ht' Hk. apply Yz; [exact Hb|exact Ht'|congruence].
Qed.

(** An LSTM, RNN or GRU encoder when no dropout is applied between its
    layers: before the final dropout, the result is, per sequence, the
    [num_layers] stacked layers run on its real steps alone. *)
Lemma torch_encoder_forward (input_size hidden_size num_layers : nat) (rnn_type : string)
    (drop_prob : R) (learned : string -> nat -> SeqFun) training (x : Tensor3 R) (lengths : list nat) g :
  In rnn_type ["LSTM"; "RNN"; "GRU"]%string ->
  (0 < hidden_size)%nat -> (0 < num_layers)%nat -> 0 <= drop_prob <= 1 ->
  sz2 x = input_size -> (0 < input_size)%nat -> length lengths = sz0 x -> (0 < sz0 x)%nat ->
  (forall l, In l lengths -> 0 < l <= sz1 x)%nat ->
  training = false \/ num_layers = 1%nat \/ drop_prob = 0 ->
  exists enc z,
    RNNEncoder_init input_size hidden_size num_layers rnn_type drop_prob learned = Some enc /\
    RNNEncoder_forward enc training x lengths g = dropout drop_prob training z g /\
    teq3 z (encoder_spec (stack_run (learned rnn_type) O num_layers) (2 * hidden_size) x lengths).
Proof.
  intros Hty Hh Hl Hp Hin Hi Hlen Hn Hpos Hmode.
  assert (Hty5 : In rnn_type ["LSTM"; "RNN"; "GRU"; "URNN"; "GORU"]%string)
    by (destruct Hty as [<-|[<-|[<-|[]]]]; cbn; tauto).
  destruct (RNNEncoder_init_supported input_size hidden_size num_layers rnn_type drop_prob learned
              Hty5 Hh Hl Hi Hp)
    as (cell & Hinit & Hci & Hco & Hcr & HcL & Hcd & Ht & _).
  destruct (Ht Hty) as [HcLn Hcdv].
  assert (Hm : training = false \/ cell_dropout cell = 0 \/ cell_layers cell = 1%nat).
  { rewrite Hcdv, HcLn. destruct Hmode as [H|[H|H]]; [left; exact H|right; right; exact H|].
    right; left. rewrite H. destruct (Nat.ltb 1 num_layers); reflexivity. }
  destruct (rnn_encoder_forward_spec (mkRNNEncoder drop_prob (Some cell)) cell training x lengths g
              eq_refl ltac:(congruence) HcL Hlen Hn ltac:(lia) Hpos Hm)
    as (z & Hfw & Hz).
  exists (mkRNNEncoder drop_prob (Some cell)), z. split; [exact Hinit|]. split; [exact Hfw|].
  rewrite Hcr, HcLn, Hco in Hz. exact Hz.
Qed.

(** A single layer of the stack is the layer run on the sequence's real
    steps. *)
Lemma encoder_spec_one_layer (run : nat -> SeqFun) w x lengths :
  encoder_spec (stack_run run O 1) w x lengths = encoder_spec (run O) w x lengths.
Proof.
  unfold encoder_spec. f_equal. extensionality b. extensionality t. extensionality k.
  cbv zeta. destruct (t <? nth b lengths O)%nat; [|reflexivity]. cbn [stack_run].
  f_equal. extensionality t'. extensionality k'. destruct (t' <? nth b lengths O)%nat; reflexivity.
Qed.

(** * Claims *)

(** C1. [BiDAFAttention.forward] returns, for a context [c] and a query
    [q] of width [H] with their masks, the concatenation
    [c; a; c * a; c * b] along the feature axis, with [a = s1 x q] and
    [b = s1 x s2^T x c], where [s1] and [s2] are the masked-softmax
    normalisations of the similarity matrix over the query axis and over
    the context axis; the output has shape (batch, context_len, 4 H). *)
Theorem bidaf_attention_fusion (H : nat) (p : R) (cw qw cqw : nat -> R) (bias : R)
    (training : bool) (c q : Tensor3 R) (c_mask q_mask : Tensor2 bool) (g : Gen) :
  0 <= p <= 1 -> sz2 c = H -> sz2 q = H -> sz0 q = sz0 c ->
  t2_rows c_mask = sz0 c -> t2_cols c_mask = sz1 c ->
  t2_rows q_mask = sz0 c -> t2_cols q_mask = sz1 q ->
  exists s g' x,
    get_similarity_matrix (BiDAFAttention_init H p cw qw cqw bias) training c q g
      = Some (s, g') /\
    BiDAFAttention_forward (BiDAFAttention_init H p cw qw cqw bias) training
      c q c_mask q_mask g = Some (x, g') /\
    teq3 x (bidaf_fusion_spec c q (normalize_query s q_mask) (normalize_context s c_mask)) /\
    sz0 x = sz0 c /\ sz1 x = sz1 c /\ sz2 x = (4 * H)%nat.
Proof.
  intros Hp Hc Hq Hb Hcr Hcc Hqr Hqc.
  destruct (similarity_matrix_shape H p cw qw cqw bias training c q g Hp Hc Hq Hb)
    as (s & g' & Hs & S0 & S1 & S2).
  exists s, g'. unfold BiDAFAttention_forward, bindM. rewrite Hs.
  destruct c as [bs cl h cf], q as [bq ql hq qf], s as [bs' cl' ql' sf],
    c_mask as [cr cc cm], q_mask as [qr qc qm]; simpl in *; subst.
  unfold liftM, view3_of2, masked_softmax, bmm, tmul3, zip_with3, cat_last, cat_last2.
  rewrite !Nat.mul_1_r. tensor_simpl.
  eexists; split; [reflexivity|]. split; [reflexivity|].
  split; [|cbn; repeat split; lia].
  repeat split; cbn -[Nat.ltb sumR softmax_entry Nat.div Nat.modulo]; try lia.
  intros b i k Hb Hi Hk. drop_bidx.
  assert (Ha : forall j, (j < ql)%nat ->
    softmax_entry ql (fun k' => sf b i (bidx ql k'))
      (fun k' => qm ((b * 1 * ql + 0 + bidx ql k') / ql)%nat
                    ((b * 1 * ql + 0 + bidx ql k') mod ql)%nat) j
    = softmax_entry ql (fun j' => sf b i j') (fun j' => qm b j') j).
  { intros j Hj. apply softmax_entry_ext; [intros k' Hk'; drop_bidx; reflexivity| |exact Hj].
    intros k' Hk'. drop_bidx. replace (b * 1 * ql + 0 + k')%nat with (b * ql + k')%nat by lia.
    now rewrite flat_div, flat_mod by exact Hk'. }
  assert (Hb2 : forall i' j, (i' < cl)%nat -> (j < ql)%nat ->
    softmax_entry cl (fun i'0 => sf b (bidx cl i'0) j)
      (fun i'0 => cm ((b * cl * 1 + bidx cl i'0 * 1 + 0) / cl)%nat
                     ((b * cl * 1 + bidx cl i'0 * 1 + 0) mod cl)%nat) i'
    = softmax_entry cl (fun i'0 => sf b i'0 j) (fun i'0 => cm b i'0) i').
  { intros i' j Hi' Hj. apply softmax_entry_ext; [intros k' Hk'; drop_bidx; reflexivity| |exact Hi'].
    intros k' Hk'. drop_bidx. replace (b * cl * 1 + k' * 1 + 0)%nat with (b * cl + k')%nat by lia.
    now rewrite flat_div, flat_mod by exact Hk'. }
  destruct (Nat.ltb_spec k H); [reflexivity|].
  destruct (Nat.ltb_spec (k - H) H), (Nat.ltb_spec k (H + (H + 0))); try lia.
  { apply sumR_ext_lt. intros j Hj. now rewrite Ha by exact Hj. }
  destruct (Nat.ltb_spec (k - H - H) H), (Nat.ltb_spec k (H + (H + (H + 0)))); try lia.
  { rewrite (bidx_lt H (k - H - H)) by lia.
    replace (k - H - H)%nat with (k - (H + (H + 0)))%nat by lia. f_equal.
    apply sumR_ext_lt. intros j Hj. now rewrite Ha by exact Hj. }
  rewrite (bidx_lt H (k - H - H - H)) by lia.
  replace (k - H - H - H)%nat with (k - (H + (H + (H + 0))))%nat by lia. f_equal.
  apply sumR_ext_lt. intros i' Hi'. f_equal. apply sumR_ext_lt. intros j Hj.
  rewrite Ha by exact Hj. drop_bidx. now rewrite Hb2 by assumption.
Qed.

(** C2. With dropout inactive (evaluation mode), the similarity matrix
    is the trilinear function
    [s[b,i,j] = Wc . c_i + Wq . q_j + c_i . (Wcq * q_j) + bias]
    for every batch element [b] and positions [i], [j]. *)
Theorem similarity_matrix_trilinear (H : nat) (p : R) (cw qw cqw : nat -> R) (bias : R)
    (c q : Tensor3 R) (g : Gen) :
  0 <= p <= 1 -> sz2 c = H -> sz2 q = H -> sz0 q = sz0 c ->
  exists s,
    get_similarity_matrix (BiDAFAttention_init H p cw qw cqw bias) false c q g = Some (s, g) /\
    sz0 s = sz0 c /\ sz1 s = sz1 c /\ sz2 s = sz1 q /\
    forall b i j, (b < sz0 c)%nat -> (i < sz1 c)%nat -> (j < sz1 q)%nat ->
      at3 s b i j = sumR H (fun k => cw k * at3 c b i k) + sumR H (fun k => qw k * at3 q b j k)
                  + sumR H (fun k => at3 c b i k * (cqw k * at3 q b j k)) + bias.
Proof.
  intros Hp Hc Hq Hb. destruct c as [bs cl h cf], q as [bq ql hq qf]; simpl in *; subst.
  unfold get_similarity_matrix, bindM, liftM. cbn [att_drop_prob BiDAFAttention_init].
  rewrite !dropout_eval by auto.
  unfold matmul32, expand3, tmul3, tadd3, zip_with3, matmul33. tensor_simpl.
  eexists; split; [reflexivity|]. cbn.
  split; [reflexivity|]. split; [reflexivity|]. split; [reflexivity|].
  intros b i j Hb Hi Hj. drop_bidx.
  rewrite (sumR_ext_lt H (fun k => cf b i k * cw k) (fun k => cw k * cf b i k))
    by (intros; ring).
  rewrite (sumR_ext_lt H (fun k => qf b j k * qw k) (fun k => qw k * qf b j k))
    by (intros; ring).
  rewrite (sumR_ext_lt H (fun k => cf b i (bidx H k) * cqw (bidx H k) * qf b j k)
             (fun k => cf b i k * (cqw k * qf b j k))).
  - reflexivity.
  - intros k Hk. drop_bidx. ring.
Qed.

(** C6. For every number of layers [N] and every input [x] of width
    [hidden_size], [HighwayEncoder.forward] equals the [N]-fold composition
    of the layer map [x |-> g * t + (1 - g) * x], [g = sigmoid(gate(x))],
    [t = relu(transform(x))]; the output has the input's shape, and with
    [N = 0] it is the input itself. *)
Theorem highway_forward_composition (N H : nat) (gate_p transform_p : nat -> LinearParams)
    (x : Tensor3 R) :
  sz2 x = H ->
  exists y,
    HighwayEncoder_forward (HighwayEncoder_init N H gate_p transform_p) x = Some y /\
    teq3 y (highway_compose_spec (seq 0 N) gate_p transform_p x) /\
    sz0 y = sz0 x /\ sz1 y = sz1 x /\ sz2 y = sz2 x /\
    (N = 0%nat -> y = x).
Proof.
  intros Hx. unfold HighwayEncoder_forward, HighwayEncoder_init; cbn [hw_gates hw_transforms].
  rewrite zip_map_same.
  destruct (highway_loop_spec H gate_p transform_p (seq 0 N) x Hx) as (y & Hy & Ey).
  exists y. rewrite Hy. split; [reflexivity|]. split; [exact Ey|].
  destruct (highway_compose_spec_shape (seq 0 N) gate_p transform_p x) as (S0 & S1 & S2).
  destruct Ey as (E0 & E1 & E2 & _).
  repeat split; try congruence.
  intros ->. cbn in Hy. congruence.
Qed.

(** C7. For a batch of character-embedding inputs of width
    [char_emb_size] and word length [W >= 5], the CNN of [EmbeddingChar]
    applies a convolution of kernel width 5, then [relu], then a maximum
    over the character positions: one vector per word, of width
    [n_filters = word_emb_size], whatever [W] is. *)
Theorem char_cnn_filters (word_vectors char_vectors : Tensor2 R) (hidden_size : nat)
    (drop_prob : R) (prm : CharEmbParams) (x : Tensor3 R) :
  sz1 x = t2_cols char_vectors -> (5 <= sz2 x)%nat ->
  exists y,
    CNN_forward (ec_cnn (EmbeddingChar_init word_vectors char_vectors hidden_size drop_prob prm)) x
      = Some y /\
    t2_rows y = sz0 x /\ t2_cols y = t2_cols word_vectors /\
    forall n o, (n < sz0 x)%nat -> (o < t2_cols word_vectors)%nat ->
      (forall t, (t <= sz2 x - 5)%nat ->
         relu (char_conv_spec (cnn_w prm) (cnn_b prm) 5 x n o t) <= t2_at y n o) /\
      exists t, (t <= sz2 x - 5)%nat /\
         t2_at y n o = relu (char_conv_spec (cnn_w prm) (cnn_b prm) 5 x n o t).
Proof.
  intros Hc Hw. unfold CNN_forward, EmbeddingChar_init, CNN_init, conv1d, max_dim2.
  cbn -[sumR Nat.leb Nat.eqb Nat.sub Nat.add].
  assert (Hle : Nat.leb 5 (sz2 x) = true) by (apply Nat.leb_le; lia).
  rewrite Hc, Nat.eqb_refl, Hle. cbn -[sumR Nat.eqb Nat.sub Nat.add].
  destruct (Nat.eqb_spec (sz2 x - 5 + 1) 0) as [|_]; [lia|].
  eexists. split; [reflexivity|]. cbn. split; [reflexivity|]. split; [reflexivity|].
  intros n o Hn Ho. replace (sz2 x - 5 + 1 - 1)%nat with (sz2 x - 5)%nat by lia.
  split.
  - intros t Ht.
    pose proof (max_upto_ge (sz2 x - 5)
      (fun t => relu (char_conv_spec (cnn_w prm) (cnn_b prm) 5 x n o t)) t Ht) as Hm.
    unfold char_conv_spec in *. rewrite Hc in *. cbn in *. exact Hm.
  - destruct (max_upto_attained (sz2 x - 5)
      (fun t => relu (char_conv_spec (cnn_w prm) (cnn_b prm) 5 x n o t))) as (t & Ht & Et).
    exists t. split; [exact Ht|].
    unfold char_conv_spec in *. rewrite Hc in *. cbn in *. exact Et.
Qed.

(** C3: for each supported cell type (LSTM, RNN, GRU, URNN, GORU), a
    positive input size, hidden size and layer count, a dropout probability
    in [0, 1], and every padded batch of width [input_size] whose true
    lengths are positive and at most the padded length,
    [RNNEncoder.forward] sorts, packs, runs the cell, unpacks to the
    original padded length and restores the batch order. In every mode it
    succeeds with an output of the batch size and padded length, of feature
    width [2 * hidden_size] for every cell type, and with zeros at the
    padding positions. When no dropout acts between the layers (evaluation
    mode, a single layer, a zero dropout probability, or a unitary cell),
    its result before the final dropout equals, for each sequence [b], the
    stacked layers ([num_layers] of them for the torch modules, one for a
    unitary cell) run on the [lengths[b]] real steps of [b] alone, with
    zeros at the padding positions. *)
Theorem rnn_encoder_packing_contract (input_size hidden_size num_layers : nat) (rnn_type : string)
    (drop_prob : R) (learned : string -> nat -> SeqFun) (training : bool)
    (x : Tensor3 R) (lengths : list nat) (g : Gen) :
  In rnn_type ["LSTM"; "RNN"; "GRU"; "URNN"; "GORU"]%string ->
  (0 < hidden_size)%nat -> (0 < num_layers)%nat -> 0 <= drop_prob <= 1 ->
  sz2 x = input_size -> (0 < input_size)%nat -> length lengths = sz0 x -> (0 < sz0 x)%nat ->
  (forall l, In l lengths -> 0 < l <= sz1 x)%nat ->
  exists enc,
    RNNEncoder_init input_size hidden_size num_layers rnn_type drop_prob learned = Some enc /\
    (exists y g', RNNEncoder_forward enc training x lengths g = Some (y, g') /\
      sz0 y = sz0 x /\ sz1 y = sz1 x /\ sz2 y = (2 * hidden_size)%nat /\
      forall b t k, (b < sz0 x)%nat -> (nth b lengths O <= t < sz1 x)%nat ->
        (k < 2 * hidden_size)%nat -> at3 y b t k = 0) /\
    (training = false \/ num_layers = 1%nat \/ drop_prob = 0 \/
     In rnn_type ["URNN"; "GORU"]%string ->
     exists depth z,
       (In rnn_type ["LSTM"; "RNN"; "GRU"]%string -> depth = num_layers) /\
       (In rnn_type ["URNN"; "GORU"]%string -> depth = 1%nat) /\
       RNNEncoder_forward enc training x lengths g = dropout drop_prob training z g /\
       teq3 z (encoder_spec (stack_run (learned rnn_type) O depth) (2 * hidden_size) x lengths)).
Proof.
  intros Hty Hh Hl Hp Hin Hi Hlen Hn Hpos.
  destruct (encoder_init_forward_shape input_size hidden_size num_layers rnn_type drop_prob learned
              training x lengths g Hty Hh Hl Hp Hin Hi Hlen Hn Hpos)
    as (enc & cell & y & g' & Hinit & -> & Hci & Hco & Hcr & HcL & Hcd & Ht & Hu & Hfw & Y0 & Y1 & Y2 & Yz).
  exists (mkRNNEncoder drop_prob (Some cell)). split; [exact Hinit|].
  split; [exists y, g'; auto|].
  intros Hmode.
  assert (Hm : training = false \/ cell_dropout cell = 0 \/ cell_layers cell = 1%nat).
  { destruct Hmode as [H|[H|[H|H]]]; [left; exact H| | |right; left; apply (Hu H)].
    - destruct (Nat.ltb_spec 1 num_layers) as [Hlt|Hge]; [lia|].
      assert (Hor : In rnn_type ["LSTM"; "RNN"; "GRU"]%string \/ In rnn_type ["URNN"; "GORU"]%string)
        by (destruct Hty as [E|[E|[E|[E|[E|[]]]]]]; cbn; tauto).
      destruct Hor as [Hor|Hor]; [right; right; rewrite (proj1 (Ht Hor)); exact H|right; right; apply (Hu Hor)].
    - assert (Hor : In rnn_type ["LSTM"; "RNN"; "GRU"]%string \/ In rnn_type ["URNN"; "GORU"]%string)
        by (destruct Hty as [E|[E|[E|[E|[E|[]]]]]]; cbn; tauto).
      right; left. destruct Hor as [Hor|Hor]; [|apply (Hu Hor)].
      rewrite (proj2 (Ht Hor)), H. destruct (Nat.ltb 1 num_layers); reflexivity. }
  destruct (rnn_encoder_forward_spec (mkRNNEncoder drop_prob (Some cell)) cell training x lengths g
              eq_refl ltac:(congruence) HcL Hlen Hn ltac:(lia) Hpos Hm)
    as (z & Hfw' & Hz).
  exists (cell_layers cell), z.
  split; [intros H; apply (Ht H)|]. split; [intros H; apply (Hu H)|].
  split; [exact Hfw'|]. rewrite Hcr, Hco in Hz. exact Hz.
Qed.

(** C5, as the code behaves: [RNNEncoder.__init__] does no validation of
    its own. For every [rnn_type] other than the two unitary cells,
    construction fails exactly when a torch module (LSTM, RNN, GRU) rejects
    its arguments: a zero input size, hidden size or layer count, or, only
    with more than one layer, a dropout probability outside [0, 1]. An
    unrecognised [rnn_type] constructs an encoder without a cell, and every
    forward call of that encoder fails. A single-layer torch module with an
    out-of-range [drop_prob] also constructs, and every forward call of that
    encoder fails, in its final [F.dropout]. *)
Theorem rnn_encoder_init_validation (input_size hidden_size num_layers : nat) (rnn_type : string)
    (drop_prob : R) (learned : string -> nat -> SeqFun) :
  (~ In rnn_type ["URNN"; "GORU"]%string ->
   (RNNEncoder_init input_size hidden_size num_layers rnn_type drop_prob learned = None <->
    In rnn_type ["LSTM"; "RNN"; "GRU"]%string /\
    (input_size = O \/ hidden_size = O \/ num_layers = O \/
     ((1 < num_layers)%nat /\ (drop_prob < 0 \/ 1 < drop_prob))))) /\
  (~ In rnn_type ["LSTM"; "RNN"; "GRU"; "URNN"; "GORU"]%string ->
   exists enc,
     RNNEncoder_init input_size hidden_size num_layers rnn_type drop_prob learned = Some enc /\
     forall training x lengths g, RNNEncoder_forward enc training x lengths g = None) /\
  (In rnn_type ["LSTM"; "RNN"; "GRU"]%string -> (0 < input_size)%nat -> (0 < hidden_size)%nat ->
   num_layers = 1%nat -> drop_prob < 0 \/ 1 < drop_prob ->
   exists enc,
     RNNEncoder_init input_size hidden_size num_layers rnn_type drop_prob learned = Some enc /\
     forall training x lengths g, RNNEncoder_forward enc training x lengths g = None).
Proof.
  split; [|split].
  - intros Hu. unfold RNNEncoder_init.
    destruct (String.eqb_spec rnn_type "LSTM") as [->|N1];
    [|destruct (String.eqb_spec rnn_type "RNN") as [->|N2];
    [|destruct (String.eqb_spec rnn_type "GRU") as [->|N3]]].
    1-3: rewrite encoder_option_None, torch_rnn_None, <- cell_dropout_range; cbn;
         split; [intros Hd; split; [auto 6|tauto]|tauto].
    split; [|intros [Hin _]; cbn in Hin; destruct Hin as [E|[E|[E|[]]]]; congruence].
    destruct (String.eqb_spec rnn_type "URNN") as [->|N4]; [exfalso; apply Hu; cbn; auto|].
    destruct (String.eqb_spec rnn_type "GORU") as [->|N5]; [exfalso; apply Hu; cbn; auto|].
    discriminate.
  - intros Hn. unfold RNNEncoder_init.
    destruct (String.eqb_spec rnn_type "LSTM") as [->|N1]; [exfalso; apply Hn; cbn; auto 6|].
    destruct (String.eqb_spec rnn_type "RNN") as [->|N2]; [exfalso; apply Hn; cbn; auto 6|].
    destruct (String.eqb_spec rnn_type "GRU") as [->|N3]; [exfalso; apply Hn; cbn; auto 6|].
    destruct (String.eqb_spec rnn_type "URNN") as [->|N4]; [exfalso; apply Hn; cbn; auto 6|].
    destruct (String.eqb_spec rnn_type "GORU") as [->|N5]; [exfalso; apply Hn; cbn; auto 6|].
    eexists. split; [reflexivity|]. intros. apply RNNEncoder_forward_no_cell. reflexivity.
  - intros Hty Hi Hh -> Hp.
    assert (Hinit : RNNEncoder_init input_size hidden_size 1 rnn_type drop_prob learned =
      Some (mkRNNEncoder drop_prob (Some (mkRNNCell input_size (2 * hidden_size) 1 0 (learned rnn_type))))).
    { unfold RNNEncoder_init.
      destruct Hty as [<-|[<-|[<-|[]]]]; cbn -[torch_rnn]; rewrite torch_rnn_ok by (lia || lra);
        reflexivity. }
    eexists. split; [exact Hinit|]. intros. apply RNNEncoder_forward_bad_drop. exact Hp.
Qed.

(** C5, counterexample: an unknown [rnn_type] ("foo") constructs an
    encoder without a cell, whose every forward call fails; a single-layer
    LSTM accepts [drop_prob = 1.5] and fails only at its forward calls; a
    two-layer GRU accepts [drop_prob = 1]. *)
Lemma rnn_encoder_bad_config_constructs :
  (exists enc, RNNEncoder_init 3 2 1 "foo" 0 (fun _ _ _ _ _ _ => 0) = Some enc /\
     forall training x lengths g, RNNEncoder_forward enc training x lengths g = None) /\
  (exists enc, RNNEncoder_init 3 2 1 "LSTM" (3 / 2) (fun _ _ _ _ _ _ => 0) = Some enc /\
     forall training x lengths g, RNNEncoder_forward enc training x lengths g = None) /\
  (exists enc, RNNEncoder_init 3 2 2 "GRU" 1 (fun _ _ _ _ _ _ => 0) = Some enc).
Proof.
  split; [|split].
  - eexists. split; [reflexivity|]. intros. apply RNNEncoder_forward_no_cell. reflexivity.
  - unfold RNNEncoder_init. cbn -[torch_rnn]. rewrite torch_rnn_ok by (lia || lra).
    eexists. split; [reflexivity|]. intros. apply RNNEncoder_forward_bad_drop. cbn. lra.
  - unfold RNNEncoder_init. cbn -[torch_rnn]. rewrite torch_rnn_ok by (lia || lra).
    eexists. reflexivity.
Qed.

(** C8: with the training flag off, [F.dropout] is the identity (for a
    probability in [0, 1]), and the forward functions of [Embedding],
    [EmbeddingChar], [RNNEncoder] and [BiDAFAttention.get_similarity_matrix]
    are deterministic: two runs on the same parameters and inputs, from any
    two states of the random generator, give the same outcome. *)
Theorem eval_mode_deterministic :
  (forall p x g, 0 <= p <= 1 -> dropout p false x g = Some (x, g)) /\
  (forall e x_word g1 g2,
     option_map fst (Embedding_forward e false x_word g1) =
     option_map fst (Embedding_forward e false x_word g2)) /\
  (forall e x_word x_char g1 g2,
     option_map fst (EmbeddingChar_forward e false x_word x_char g1) =
     option_map fst (EmbeddingChar_forward e false x_word x_char g2)) /\
  (forall enc x lengths g1 g2,
     option_map fst (RNNEncoder_forward enc false x lengths g1) =
     option_map fst (RNNEncoder_forward enc false x lengths g2)) /\
  (forall att c q g1 g2,
     option_map fst (get_similarity_matrix att false c q g1) =
     option_map fst (get_similarity_matrix att false c q g2)).
Proof.
  split; [exact dropout_eval|].
  split; [intros; apply gen_free_runs; unfold Embedding_forward; cbv zeta; gen_free_tac|].
  split; [intros; apply gen_free_runs; unfold EmbeddingChar_forward; cbv zeta; gen_free_tac|].
  split; [intros; apply gen_free_runs; unfold RNNEncoder_forward; cbv zeta; gen_free_tac|].
  intros; apply gen_free_runs; unfold get_similarity_matrix; cbv zeta; gen_free_tac.
Qed.

Lemma eval_mode_deterministic_witness :
  0 <= 0 <= 1 /\
  dropout 0 false (mkT3 1 1 1 (fun _ _ _ => 1)) (mkGen 0 (fun _ _ _ _ => 0)) =
  Some (mkT3 1 1 1 (fun _ _ _ => 1), mkGen 0 (fun _ _ _ _ => 0)).
Proof.
  split; [lra|]. apply (proj1 eval_mode_deterministic). lra.
Defined.

(** C9: [EmbeddingChar] and [Embedding_Char] compute the same function:
    built from the same constructor arguments and learned parameters, their
    forward functions agree on every word and character index input, in
    either mode and from every state of the random generator. *)
Theorem embedding_char_variants_equal (word_vectors char_vectors : Tensor2 R) (hidden_size : nat)
    (drop_prob : R) (prm : CharEmbParams) (training : bool)
    (x_word : Tensor2 nat) (x_char : Tensor3 nat) (g : Gen) :
  EmbeddingChar_forward (EmbeddingChar_init word_vectors char_vectors hidden_size drop_prob prm)
    training x_word x_char g =
  Embedding_Char_forward (Embedding_Char_init word_vectors char_vectors hidden_size drop_prob prm)
    training x_word x_char g.
Proof. reflexivity. Qed.

(** Witness for C1: the spec's scenario, a batch of 2 contexts of lengths
    3 and 5 padded to 5, queries of length 2, [hidden_size = 4]: the fused
    output has shape (2, 5, 16). *)
Lemma bidaf_attention_fusion_witness :
  exists x g',
    BiDAFAttention_forward (BiDAFAttention_init 4 0 (fun _ => 1) (fun _ => 1) (fun _ => 1) 0) false
      (mkT3 2 5 4 (fun _ _ _ => 1)) (mkT3 2 2 4 (fun _ _ _ => 1))
      (mkT2 2 5 (fun b i => Nat.ltb i (if Nat.eqb b 0 then 3 else 5)))
      (mkT2 2 2 (fun _ _ => true)) (mkGen 0 (fun _ _ _ _ => 0)) = Some (x, g') /\
    sz0 x = 2%nat /\ sz1 x = 5%nat /\ sz2 x = 16%nat.
Proof.
  destruct (bidaf_attention_fusion 4 0 (fun _ => 1) (fun _ => 1) (fun _ => 1) 0 false
              (mkT3 2 5 4 (fun _ _ _ => 1)) (mkT3 2 2 4 (fun _ _ _ => 1))
              (mkT2 2 5 (fun b i => Nat.ltb i (if Nat.eqb b 0 then 3 else 5)))
              (mkT2 2 2 (fun _ _ => true)) (mkGen 0 (fun _ _ _ _ => 0)))
    as (s & g' & x & _ & Hx & _ & H0 & H1 & H2); try reflexivity; [lra|].
  exists x, g'. split; [exact Hx|]. split; [exact H0|]. split; [exact H1|]. exact H2.
Defined.

(** Witness for C2: with [Wc = 1], [Wq = 2], [Wcq = 3], [bias = 5] and
    all-ones inputs of width 2, the score is 2 + 4 + 6 + 5 = 17. *)
Lemma similarity_matrix_trilinear_witness :
  exists s,
    get_similarity_matrix (BiDAFAttention_init 2 0 (fun _ => 1) (fun _ => 2) (fun _ => 3) 5) false
      (mkT3 1 1 2 (fun _ _ _ => 1)) (mkT3 1 1 2 (fun _ _ _ => 1)) (mkGen 0 (fun _ _ _ _ => 0))
      = Some (s, mkGen 0 (fun _ _ _ _ => 0)) /\ at3 s 0 0 0 = 17.
Proof.
  destruct (similarity_matrix_trilinear 2 0 (fun _ => 1) (fun _ => 2) (fun _ => 3) 5
              (mkT3 1 1 2 (fun _ _ _ => 1)) (mkT3 1 1 2 (fun _ _ _ => 1)) (mkGen 0 (fun _ _ _ _ => 0)))
    as (s & Hs & _ & _ & _ & Hat); try reflexivity; [lra|].
  exists s. split; [exact Hs|]. rewrite Hat by (cbn; lia). cbn. lra.
Defined.

(** Witness for C6: two highway layers on a (1, 4, 3) input. *)
Lemma highway_forward_composition_witness :
  exists y,
    HighwayEncoder_forward (HighwayEncoder_init 2 3 (fun _ => (fun _ _ => 1, fun _ => 0))
                                                  (fun _ => (fun _ _ => 1, fun _ => 0)))
      (mkT3 1 4 3 (fun _ _ _ => 1)) = Some y /\
    sz0 y = 1%nat /\ sz1 y = 4%nat /\ sz2 y = 3%nat.
Proof.
  destruct (highway_forward_composition 2 3 (fun _ => (fun _ _ => 1, fun _ => 0))
              (fun _ => (fun _ _ => 1, fun _ => 0)) (mkT3 1 4 3 (fun _ _ _ => 1)))
    as (y & Hy & _ & H0 & H1 & H2 & _); [reflexivity|].
  exists y. split; [exact Hy|]. split; [exact H0|]. split; [exact H1|]. exact H2.
Defined.

(** Witness for C7: words of 7 characters, 2-dimensional character
    embeddings, 3 filters (the word-embedding size). *)
Lemma char_cnn_filters_witness :
  exists y,
    CNN_forward (ec_cnn (EmbeddingChar_init (mkT2 10 3 (fun _ _ => 0)) (mkT2 20 2 (fun _ _ => 0)) 4 0
                   (mkCharEmbParams (mkT2 20 2 (fun _ _ => 0)) (fun _ _ _ => 1) (fun _ => 0)
                      (fun _ _ => 1) (fun _ => (fun _ _ => 1, fun _ => 0))
                      (fun _ => (fun _ _ => 1, fun _ => 0)))))
      (mkT3 6 2 7 (fun _ _ _ => 1)) = Some y /\
    t2_rows y = 6%nat /\ t2_cols y = 3%nat.
Proof.
  destruct (char_cnn_filters (mkT2 10 3 (fun _ _ => 0)) (mkT2 20 2 (fun _ _ => 0)) 4 0
              (mkCharEmbParams (mkT2 20 2 (fun _ _ => 0)) (fun _ _ _ => 1) (fun _ => 0)
                 (fun _ _ => 1) (fun _ => (fun _ _ => 1, fun _ => 0))
                 (fun _ => (fun _ _ => 1, fun _ => 0)))
              (mkT3 6 2 7 (fun _ _ _ => 1)))
    as (y & Hy & H0 & H1 & _); [reflexivity|cbn; lia|].
  exists y. split; [exact Hy|]. split; [exact H0|]. exact H1.
Defined.

(** Witness for C3: a GRU encoder on a batch of lengths [1; 3] padded
    to 3. *)
Lemma rnn_encoder_packing_contract_witness :
  exists enc,
    RNNEncoder_init 2 3 1 "GRU" 0 (fun _ _ _ xs => xs) = Some enc /\
    exists y g',
      RNNEncoder_forward enc false (mkT3 2 3 2 (fun _ _ _ => 1)) [1; 3]%nat
        (mkGen 0 (fun _ _ _ _ => 0)) = Some (y, g') /\
      sz0 y = 2%nat /\ sz1 y = 3%nat /\ sz2 y = 6%nat.
Proof.
  destruct (rnn_encoder_packing_contract 2 3 1 "GRU" 0 (fun _ _ _ xs => xs) false
              (mkT3 2 3 2 (fun _ _ _ => 1)) [1; 3]%nat (mkGen 0 (fun _ _ _ _ => 0))
              ltac:(cbn; auto 6) ltac:(lia) ltac:(lia) ltac:(lra) eq_refl ltac:(lia) eq_refl
              ltac:(cbn; lia) ltac:(intros l Hl; cbn in Hl; cbn; lia))
    as (enc & He & (y & g' & Hf & Y0 & Y1 & Y2 & _) & _).
  exists enc. split; [exact He|]. exists y, g'. split; [exact Hf|]. cbn in Y0, Y1. lia.
Defined.

(** Witness for C5: [rnn_type = "foo"] constructs, and its forward fails. *)
Lemma rnn_encoder_init_validation_witness :
  exists enc,
    RNNEncoder_init 3 2 1 "foo" 0 (fun _ _ _ _ _ _ => 0) = Some enc /\
    forall training x lengths g, RNNEncoder_forward enc training x lengths g = None.
Proof.
  apply (proj1 (proj2 (rnn_encoder_init_validation 3 2 1 "foo" 0 (fun _ _ _ _ _ _ => 0)))).
  cbn. intros [E|[E|[E|[E|[E|[]]]]]]; discriminate.
Defined.

(** * Further properties of the code

    Properties read off the source, beyond the claims of the spec. *)

(** X1: [Embedding.forward] with in-range word indices and a dropout probability in [0, 1] succeeds; the output has shape (batch, seq_len, hidden_size) and is the two-layer highway encoder applied to the bias-free projection of the dropped-out looked-up word vectors. *)
Theorem embedding_forward_pipeline (word_vectors : Tensor2 R) (hidden_size : nat) (p : R)
    (proj_w : nat -> nat -> R) (gate_p transform_p : nat -> LinearParams) (training : bool)
    (x : Tensor2 nat) (g : Gen) :
  0 <= p <= 1 ->
  (forall b i, (b < t2_rows x)%nat -> (i < t2_cols x)%nat -> (t2_at x b i < t2_rows word_vectors)%nat) ->
  exists z g' y,
    dropout p training (mkT3 (t2_rows x) (t2_cols x) (t2_cols word_vectors)
                          (fun b i k => t2_at word_vectors (t2_at x b i) k)) g = Some (z, g') /\
    Embedding_forward (Embedding_init word_vectors hidden_size p proj_w gate_p transform_p)
      training x g = Some (y, g') /\
    sz0 y = t2_rows x /\ sz1 y = t2_cols x /\ sz2 y = hidden_size /\
    teq3 y (highway_compose_spec (seq 0 2) gate_p transform_p
              (mkT3 (t2_rows x) (t2_cols x) hidden_size (fun b i o =>
                 sumR (t2_cols word_vectors) (fun k => at3 z b i k * proj_w o k)))).
Proof.
  intros Hp Hx.
  destruct (dropout_shape p training (mkT3 (t2_rows x) (t2_cols x) (t2_cols word_vectors)
                          (fun b i k => t2_at word_vectors (t2_at x b i) k)) g Hp)
    as (z & g' & Hz & Z0 & Z1 & Z2). cbn in Z0, Z1, Z2.
  set (u := mkT3 (sz0 z) (sz1 z) hidden_size (fun b i o =>
              sumR (t2_cols word_vectors) (fun k => at3 z b i k * proj_w o k) + 0)).
  destruct (highway_init_forward 2 hidden_size gate_p transform_p u eq_refl)
    as (y & Hy & Ey & Y0 & Y1 & Y2).
  exists z, g', y. split; [exact Hz|].
  unfold Embedding_forward, Embedding_init, bindM, liftM, retM; cbn [emb_embed emb_drop_prob emb_proj emb_hwy].
  rewrite embedding_lookup_ok by exact Hx. rewrite Hz.
  rewrite Linear_forward_ok by (cbn; exact Z2). cbn [lin_in lin_out lin_w lin_b].
  fold u. rewrite Hy. split; [reflexivity|].
  cbn in Y0, Y1, Y2. split; [lia|]. split; [lia|]. split; [exact Y2|].
  eapply teq3_trans; [exact Ey|]. apply highway_compose_spec_teq.
  unfold u. rewrite Z0, Z1. apply teq3_mk_ext. intros. ring.
Qed.

(** X2: [Embedding.forward] fails as soon as one word index is not a row of the word-vector table. *)
Theorem embedding_forward_bad_index (word_vectors : Tensor2 R) (hidden_size : nat) (p : R)
    (proj_w : nat -> nat -> R) (gate_p transform_p : nat -> LinearParams) (training : bool)
    (x : Tensor2 nat) (b i : nat) (g : Gen) :
  (b < t2_rows x)%nat -> (i < t2_cols x)%nat -> (t2_rows word_vectors <= t2_at x b i)%nat ->
  Embedding_forward (Embedding_init word_vectors hidden_size p proj_w gate_p transform_p)
    training x g = None.
Proof.
  intros Hb Hi Hbad. unfold Embedding_forward, bindM, liftM; cbn [Embedding_init emb_embed].
  rewrite (embedding_lookup_bad word_vectors x b i Hb Hi Hbad). reflexivity.
Qed.

(** X3: [EmbeddingChar.forward] with in-range word and character indices, words of at least 5 characters and a dropout probability in [0, 1] succeeds; the output is the highway encoder applied to the projection of the dropped-out concatenation of the word vector and, per filter, the max over positions of the ReLU of the width-5 convolution of the character embeddings. *)
Theorem embedding_char_forward_pipeline (word_vectors char_vectors : Tensor2 R) (hidden_size : nat)
    (p : R) (prm : CharEmbParams) (training : bool) (x_word : Tensor2 nat) (x_char : Tensor3 nat)
    (g : Gen) :
  0 <= p <= 1 -> (5 <= sz2 x_char)%nat -> (0 < sz1 x_char)%nat -> (0 < t2_cols word_vectors)%nat ->
  t2_cols (char_table prm) = t2_cols char_vectors ->
  t2_rows x_word = sz0 x_char -> t2_cols x_word = sz1 x_char ->
  (forall b s c, (b < sz0 x_char)%nat -> (s < sz1 x_char)%nat -> (c < sz2 x_char)%nat ->
     (at3 x_char b s c < t2_rows (char_table prm))%nat) ->
  (forall b s, (b < sz0 x_char)%nat -> (s < sz1 x_char)%nat ->
     (t2_at x_word b s < t2_rows word_vectors)%nat) ->
  let E := t2_cols word_vectors in
  let feat b s f :=
    max_upto (sz2 x_char - 5) (fun t => relu (cnn_b prm f +
      sumR (t2_cols char_vectors) (fun c => sumR 5 (fun j =>
        cnn_w prm f c j * t2_at (char_table prm) (at3 x_char b s (t + j)%nat) c)))) in
  let X := mkT3 (sz0 x_char) (sz1 x_char) (E + E) (fun b s k =>
    if Nat.ltb k E then t2_at word_vectors (t2_at x_word b s) k else feat b s (k - E)%nat) in
  exists z g' y,
    dropout p training X g = Some (z, g') /\
    EmbeddingChar_forward (EmbeddingChar_init word_vectors char_vectors hidden_size p prm)
      training x_word x_char g = Some (y, g') /\
    sz0 y = sz0 x_char /\ sz1 y = sz1 x_char /\ sz2 y = hidden_size /\
    teq3 y (highway_compose_spec (seq 0 2) (hwy_gate_p prm) (hwy_transform_p prm)
              (mkT3 (sz0 x_char) (sz1 x_char) hidden_size (fun b s o =>
                 sumR (2 * E) (fun k => at3 z b s k * proj_w prm o k)))).
Proof.
  intros Hp HW HS HE HC Hwr Hwc Hci Hwi E feat X.
  set (B := sz0 x_char) in *. set (S := sz1 x_char) in *. set (W := sz2 x_char) in *.
  set (T := char_table prm) in *.
  destruct (view2_infer_rows_spec x_char ltac:(lia)) as (v & Hv & Vr & Vc & Vat).
  fold W B S in Hv, Vr, Vc, Vat.
  assert (Hvi : forall r c, (r < t2_rows v)%nat -> (c < t2_cols v)%nat -> (t2_at v r c < t2_rows T)%nat).
  { intros r c Hr Hc. rewrite Vr in Hr. rewrite Vc in Hc.
    assert (Hr' : r = (r / S * S + r mod S)%nat) by (rewrite Nat.mul_comm; apply Nat.div_mod; lia).
    rewrite Hr', Vat; [apply Hci| | |]; try assumption.
    - apply Nat.Div0.div_lt_upper_bound. lia.
    - apply Nat.mod_upper_bound. lia.
    - apply Nat.Div0.div_lt_upper_bound. lia.
    - apply Nat.mod_upper_bound. lia. }
  set (e1 := mkT3 (t2_rows v) (t2_cols v) (t2_cols T) (fun r c k => t2_at T (t2_at v r c) k)).
  assert (He1 : embedding_lookup T v = Some e1) by (apply embedding_lookup_ok; exact Hvi).
  set (cnnout := mkT2 (sz0 (transpose12 e1)) E (fun n o => max_upto (sz2 (transpose12 e1) - 5)
      (fun t => relu (cnn_b prm o + sumR (t2_cols char_vectors) (fun c => sumR 5 (fun j =>
         cnn_w prm o c j * at3 (transpose12 e1) n c (t + j)%nat)))))).
  assert (Hcnn : CNN_forward (ec_cnn (EmbeddingChar_init word_vectors char_vectors hidden_size p prm))
                   (transpose12 e1) = Some cnnout).
  { cbn [EmbeddingChar_init ec_cnn]. apply CNN_forward_eq; cbn; [exact HC|lia]. }
  destruct (view3_infer_first_spec cnnout B S E HS HE) as (v3 & Hv3 & V0 & V1 & V2 & V3at).
  { cbn. exact Vr. } { reflexivity. }
  set (w := mkT3 (t2_rows x_word) (t2_cols x_word) (t2_cols word_vectors)
              (fun b i k => t2_at word_vectors (t2_at x_word b i) k)).
  assert (Hw : embedding_lookup word_vectors x_word = Some w).
  { apply embedding_lookup_ok. intros b i Hb Hi. apply Hwi; lia. }
  set (Xc := mkT3 B S (E + E) (fun b i k =>
               if Nat.ltb k E then at3 w b i k else at3 v3 b i (k - E)%nat)).
  assert (Hcat : cat_last [w; v3] = Some Xc).
  { cbn [cat_last]. unfold cat_last2. cbn [w sz0 sz1 sz2].
    rewrite V0, V1, V2, Hwr, Hwc. rewrite !Nat.eqb_refl. reflexivity. }
  assert (HXc : teq3 X Xc).
  { apply teq3_mk_ext. intros b s k Hb Hs Hk. cbn [at3 w].
    destruct (Nat.ltb_spec k E); [reflexivity|].
    rewrite V3at by (try exact Hs; lia). unfold cnnout, e1, transpose12. cbn [t2_at sz1 sz2 at3].
    rewrite Vc. unfold feat. apply max_upto_ext. intros t Ht. f_equal. f_equal.
    apply sumR_ext_lt. intros c Hc. apply sumR_ext_lt. intros j Hj.
    rewrite Vat by (try assumption; lia). reflexivity. }
  destruct (dropout_shape p training X g Hp) as (z & g' & Hz & Z0 & Z1 & Z2).
  destruct (dropout_teq p training X Xc g z g' HXc Hz) as (z' & Hz' & Ezz').
  destruct (linear_teq (mkLinear (2 * E) hidden_size (proj_w prm) None) z z' Ezz')
    as (u & u' & Hu & Hu' & Euu').
  { cbn. rewrite Z2. cbn. lia. }
  destruct (highway_init_forward 2 hidden_size (hwy_gate_p prm) (hwy_transform_p prm) u')
    as (y & Hy & Ey & Y0 & Y1 & Y2).
  { destruct Euu' as (_ & _ & <- & _). rewrite Linear_forward_ok in Hu by (cbn; rewrite Z2; cbn; lia).
    injection Hu as <-. reflexivity. }
  exists z, g', y. split; [exact Hz|].
  split.
  { unfold EmbeddingChar_forward, bindM, liftM, retM. fold B S W.
    rewrite Hv. cbn [EmbeddingChar_init ec_char_embed ec_embed ec_word_emb_size ec_drop_prob
                     ec_proj ec_hwy]. fold T E. rewrite He1.
    cbv beta iota zeta. rewrite Hcnn. fold S E. rewrite Hv3, Hw, Hcat.
    cbv beta iota. rewrite Hz'. rewrite Hu'. rewrite Hy. reflexivity. }
  rewrite Linear_forward_ok in Hu by (cbn; rewrite Z2; cbn; lia). injection Hu as <-.
  pose proof Euu' as (U0 & U1 & U2 & _). cbn in U0, U1, U2, Z0, Z1.
  split; [lia|]. split; [lia|]. split; [lia|].
  eapply teq3_trans; [exact Ey|]. apply highway_compose_spec_teq.
  eapply teq3_trans; [apply teq3_sym; exact Euu'|].
  rewrite Z0, Z1. cbn. apply teq3_mk_ext. intros. ring.
Qed.

(** X4: [EmbeddingChar.forward] fails when the words have fewer than 5 characters (the kernel size of the CNN). *)
Theorem embedding_char_forward_short_words (word_vectors char_vectors : Tensor2 R)
    (hidden_size : nat) (p : R) (prm : CharEmbParams) (training : bool)
    (x_word : Tensor2 nat) (x_char : Tensor3 nat) (g : Gen) :
  (sz2 x_char < 5)%nat ->
  EmbeddingChar_forward (EmbeddingChar_init word_vectors char_vectors hidden_size p prm)
    training x_word x_char g = None.
Proof.
  intros HW. unfold EmbeddingChar_forward, bindM, liftM.
  destruct (view2_infer_rows x_char (sz2 x_char)) as [v|] eqn:Hv; [|reflexivity].
  apply view2_cols in Hv.
  cbn [EmbeddingChar_init ec_char_embed ec_cnn].
  destruct (embedding_lookup (char_table prm) v) as [e|] eqn:He; [|reflexivity].
  apply embedding_lookup_shape in He as (_ & He1 & _).
  unfold CNN_forward, CNN_init, conv1d. cbn [conv1D conv_in conv_k sz1 sz2 transpose12].
  replace (Nat.leb 5 (sz1 e)) with false by (symmetry; apply Nat.leb_gt; lia).
  rewrite andb_false_r. reflexivity.
Qed.

(** X5: [EmbeddingChar.forward] fails when one character index is not a row of the character table or one word index is not a row of the word-vector table. *)
Theorem embedding_char_forward_bad_index (word_vectors char_vectors : Tensor2 R)
    (hidden_size : nat) (p : R) (prm : CharEmbParams) (training : bool)
    (x_word : Tensor2 nat) (x_char : Tensor3 nat) (g : Gen) :
  (exists b s c, (b < sz0 x_char)%nat /\ (s < sz1 x_char)%nat /\ (c < sz2 x_char)%nat /\
     (t2_rows (char_table prm) <= at3 x_char b s c)%nat) \/
  (exists b s, (b < t2_rows x_word)%nat /\ (s < t2_cols x_word)%nat /\
     (t2_rows word_vectors <= t2_at x_word b s)%nat) ->
  EmbeddingChar_forward (EmbeddingChar_init word_vectors char_vectors hidden_size p prm)
    training x_word x_char g = None.
Proof.
  intros Hbad. unfold EmbeddingChar_forward, bindM, liftM.
  cbn [EmbeddingChar_init ec_char_embed ec_cnn ec_embed ec_word_emb_size].
  destruct Hbad as [(b & s & c & Hb & Hs & Hc & Hbad)|(b & s & Hb & Hs & Hbad)].
  - destruct (view2_infer_rows_spec x_char ltac:(lia)) as (v & Hv & Vr & Vc & Vat).
    rewrite Hv.
    rewrite (embedding_lookup_bad (char_table prm) v (b * sz1 x_char + s) c); [reflexivity| | |].
    + rewrite Vr. nia.
    + rewrite Vc. exact Hc.
    + rewrite Vat by assumption. exact Hbad.
  - destruct (view2_infer_rows x_char (sz2 x_char)); [|reflexivity].
    destruct (embedding_lookup (char_table prm) t); [|reflexivity].
    destruct (CNN_forward _ _); [|reflexivity].
    destruct (view3_infer_first _ _ _); [|reflexivity].
    rewrite (embedding_lookup_bad word_vectors x_word b s Hb Hs Hbad). reflexivity.
Qed.

(** X6: Every entry of the output of [CNN.forward] is non-negative (a max over ReLU values). *)
Theorem cnn_forward_nonneg (cnn : CNN) (x : Tensor3 R) (y : Tensor2 R) :
  CNN_forward cnn x = Some y -> forall n o, 0 <= t2_at y n o.
Proof.
  unfold CNN_forward. destruct (conv1d (conv1D cnn) x) as [xc|]; [|discriminate].
  unfold max_dim2. cbn [sz2 tmap3]. destruct (sz2 xc =? 0)%nat; [discriminate|].
  intros [= <-] n o. cbn.
  eapply Rle_trans; [|apply (max_upto_ge _ _ O); lia]. apply relu_nonneg.
Qed.

(** X7: [HighwayEncoder.forward] on an input of width [hidden_size] with non-negative entries succeeds and returns non-negative entries. *)
Theorem highway_forward_nonneg (N H : nat) (gate_p transform_p : nat -> LinearParams)
    (x : Tensor3 R) :
  sz2 x = H ->
  (forall b i k, (b < sz0 x)%nat -> (i < sz1 x)%nat -> (k < H)%nat -> 0 <= at3 x b i k) ->
  exists y, HighwayEncoder_forward (HighwayEncoder_init N H gate_p transform_p) x = Some y /\
    forall b i k, (b < sz0 x)%nat -> (i < sz1 x)%nat -> (k < H)%nat -> 0 <= at3 y b i k.
Proof.
  intros Hx Hnn.
  destruct (highway_init_forward N H gate_p transform_p x Hx) as (y & Hy & Ey & _).
  exists y. split; [exact Hy|]. intros b i k Hb Hi Hk.
  destruct Ey as (E0 & E1 & E2 & E).
  destruct (highway_compose_spec_shape (seq 0 N) gate_p transform_p x) as (S0 & S1 & S2).
  rewrite E by congruence.
  apply highway_compose_spec_nonneg; [|exact Hb|exact Hi|congruence].
  intros b' i' k' Hb' Hi' Hk'. apply Hnn; congruence.
Qed.

(** X8: A one-layer [HighwayEncoder] succeeds on an input of width [hidden_size] and keeps its shape; each output entry lies between the input entry and the ReLU of the transform for that entry. *)
Theorem highway_layer_between (H : nat) (gate_p transform_p : nat -> LinearParams)
    (x : Tensor3 R) :
  sz2 x = H ->
  exists y, HighwayEncoder_forward (HighwayEncoder_init 1 H gate_p transform_p) x = Some y /\
    sz0 y = sz0 x /\ sz1 y = sz1 x /\ sz2 y = H /\
    forall b i k, (b < sz0 x)%nat -> (i < sz1 x)%nat -> (k < H)%nat ->
      let t := relu (sumR H (fun m => fst (transform_p O) k m * at3 x b i m) + snd (transform_p O) k) in
      Rmin (at3 x b i k) t <= at3 y b i k <= Rmax (at3 x b i k) t.
Proof.
  intros Hx.
  destruct (highway_init_forward 1 H gate_p transform_p x Hx) as (y & Hy & Ey & Y0 & Y1 & Y2).
  exists y. split; [exact Hy|]. split; [exact Y0|]. split; [exact Y1|]. split; [congruence|].
  intros b i k Hb Hi Hk t. destruct Ey as (_ & _ & _ & E).
  rewrite E by congruence. cbn. rewrite Hx. apply convex_between, sigmoid_bounds.
Qed.

(** X9: A [HighwayEncoder] with at least one layer fails on an input whose last dimension is not [hidden_size]. *)
Theorem highway_forward_width_mismatch (N H : nat) (gate_p transform_p : nat -> LinearParams)
    (x : Tensor3 R) :
  (0 < N)%nat -> sz2 x <> H ->
  HighwayEncoder_forward (HighwayEncoder_init N H gate_p transform_p) x = None.
Proof.
  intros HN Hx. destruct N as [|N]; [lia|].
  unfold HighwayEncoder_forward, HighwayEncoder_init. cbn [hw_gates hw_transforms seq map zip].
  cbn [highway_loop]. unfold Linear_forward at 1. cbn [lin_in].
  replace (sz2 x =? H)%nat with false by (symmetry; apply Nat.eqb_neq; exact Hx). reflexivity.
Qed.

(** X10: [BiDAFAttention.get_similarity_matrix] fails when the context or the query width is not [hidden_size]. *)
Theorem similarity_matrix_width_mismatch (H : nat) (p : R) (cw qw cqw : nat -> R) (bias : R)
    (training : bool) (c q : Tensor3 R) (g : Gen) :
  sz2 c <> H \/ sz2 q <> H ->
  get_similarity_matrix (BiDAFAttention_init H p cw qw cqw bias) training c q g = None.
Proof.
  intros Hw. unfold get_similarity_matrix, bindM. cbn [att_drop_prob BiDAFAttention_init].
  destruct (dropout p training c g) as [[c' g1]|] eqn:Hc; [|reflexivity].
  destruct (dropout p training q g1) as [[q' g2]|] eqn:Hq; [|reflexivity].
  apply dropout_Some_shape in Hc as (_ & _ & Hc2). apply dropout_Some_shape in Hq as (_ & _ & Hq2).
  unfold liftM. cbn [BiDAFAttention_init c_weight q_weight]. unfold matmul32 at 1. cbn [t2_rows].
  destruct (Nat.eqb_spec (sz2 c') H) as [Ec|Ec]; [|reflexivity].
  cbv beta iota zeta.
  destruct (expand3 _ _ _ _); [|reflexivity].
  unfold matmul32. cbn [t2_rows].
  destruct (Nat.eqb_spec (sz2 q') H) as [Eq|Eq]; [|reflexivity].
  exfalso. destruct Hw; congruence.
Qed.

(** X11: In evaluation mode, [BiDAFAttention.get_similarity_matrix] with a single query (batch 1) broadcasts it to every context of the batch: [s[b,i,j] = c[b,i].w_c + q[0,j].w_q + (c[b,i] * w_cq).q[0,j] + bias]. *)
Theorem similarity_matrix_query_broadcast (H : nat) (p : R) (cw qw cqw : nat -> R) (bias : R)
    (c q : Tensor3 R) (g : Gen) :
  0 <= p <= 1 -> sz2 c = H -> sz2 q = H -> sz0 q = 1%nat ->
  exists s,
    get_similarity_matrix (BiDAFAttention_init H p cw qw cqw bias) false c q g = Some (s, g) /\
    sz0 s = sz0 c /\ sz1 s = sz1 c /\ sz2 s = sz1 q /\
    forall b i j, (b < sz0 c)%nat -> (i < sz1 c)%nat -> (j < sz1 q)%nat ->
      at3 s b i j = sumR H (fun k => cw k * at3 c b i k) + sumR H (fun k => qw k * at3 q O j k)
                  + sumR H (fun k => at3 c b i k * (cqw k * at3 q O j k)) + bias.
Proof.
  intros Hp Hc Hq Hb. destruct c as [bs cl h cf], q as [bq ql hq qf]; simpl in *; subst.
  unfold get_similarity_matrix, bindM, liftM. cbn [att_drop_prob BiDAFAttention_init].
  rewrite !dropout_eval by auto.
  unfold matmul32, expand3, tmul3, tadd3, zip_with3, matmul33. tensor_simpl.
  eexists; split; [reflexivity|]. cbn.
  split; [reflexivity|]. split; [reflexivity|]. split; [reflexivity|].
  intros b i j Hb Hi Hj. drop_bidx.
  rewrite (sumR_ext_lt H (fun k => cf b i k * cw k) (fun k => cw k * cf b i k))
    by (intros; ring).
  rewrite (sumR_ext_lt H (fun k => qf O j k * qw k) (fun k => qw k * qf O j k))
    by (intros; ring).
  rewrite (sumR_ext_lt H (fun k => cf b i (bidx H k) * cqw (bidx H k) * qf O j k)
             (fun k => cf b i k * (cqw k * qf O j k))).
  - reflexivity.
  - intros k Hk. drop_bidx. ring.
Qed.

(** X12: [BiDAFAttention.forward] fails when the query and the context batch sizes differ. *)
Theorem bidaf_attention_batch_mismatch (att : BiDAFAttention) (training : bool)
    (c q : Tensor3 R) (c_mask q_mask : Tensor2 bool) (g : Gen) :
  sz0 q <> sz0 c ->
  BiDAFAttention_forward att training c q c_mask q_mask g = None.
Proof.
  intros Hb. unfold BiDAFAttention_forward, bindM.
  destruct (get_similarity_matrix att training c q g) as [[s g1]|]; [|reflexivity].
  unfold liftM.
  destruct (view3_of2 c_mask _ _ _) as [cm|]; [|reflexivity].
  destruct (view3_of2 q_mask _ _ _) as [qm|]; [|reflexivity].
  destruct (masked_softmax s qm 2) as [s1|]; [|reflexivity].
  destruct (masked_softmax s cm 1) as [s2|]; [|reflexivity].
  destruct (bmm s1 q) as [a|] eqn:Ha; [|reflexivity].
  destruct (bmm s1 (transpose12 s2)) as [s12|] eqn:H12; [|reflexivity].
  destruct (bmm s12 c) as [bb|] eqn:Hbb; [|reflexivity].
  exfalso. apply bmm_Some_batch in Ha as [Ha _]. apply bmm_Some_batch in H12 as [_ H12].
  apply bmm_Some_batch in Hbb as [Hbb _]. congruence.
Qed.

(** X13: [BiDAFAttention.forward] fails when the context mask does not have batch * c_len elements or the query mask does not have batch * q_len elements. *)
Theorem bidaf_attention_mask_size (att : BiDAFAttention) (training : bool)
    (c q : Tensor3 R) (c_mask q_mask : Tensor2 bool) (g : Gen) :
  (t2_rows c_mask * t2_cols c_mask <> sz0 c * sz1 c)%nat \/
  (t2_rows q_mask * t2_cols q_mask <> sz0 c * sz1 q)%nat ->
  BiDAFAttention_forward att training c q c_mask q_mask g = None.
Proof.
  intros Hm. unfold BiDAFAttention_forward, bindM.
  destruct (get_similarity_matrix att training c q g) as [[s g1]|]; [|reflexivity].
  unfold liftM, view3_of2.
  destruct (Nat.eqb_spec (t2_rows c_mask * t2_cols c_mask) (sz0 c * sz1 c * 1)) as [E1|E1];
    [|reflexivity].
  destruct (Nat.eqb_spec (t2_rows q_mask * t2_cols q_mask) (sz0 c * 1 * sz1 q)) as [E2|E2];
    [|reflexivity].
  exfalso. destruct Hm; lia.
Qed.

(** X14: In evaluation mode, an [RNNEncoder] built without error as LSTM, RNN or GRU with a positive input size, given one length per sequence, each between 1 and seq_len, gives for sequence [b] of a batch the same output as when [b] is run alone with its own length. *)
Theorem rnn_encoder_batch_independent (input_size hidden_size num_layers : nat) (rnn_type : string)
    (drop_prob : R) (learned : string -> nat -> SeqFun) (x : Tensor3 R) (lengths : list nat) (g : Gen)
    (b : nat) :
  In rnn_type ["LSTM"; "RNN"; "GRU"]%string ->
  (0 < hidden_size)%nat -> (0 < num_layers)%nat -> 0 <= drop_prob <= 1 ->
  sz2 x = input_size -> (0 < input_size)%nat -> length lengths = sz0 x ->
  (forall l, In l lengths -> 0 < l <= sz1 x)%nat -> (b < sz0 x)%nat ->
  exists enc y y1,
    RNNEncoder_init input_size hidden_size num_layers rnn_type drop_prob learned = Some enc /\
    RNNEncoder_forward enc false x lengths g = Some (y, g) /\
    RNNEncoder_forward enc false (mkT3 1 (sz1 x) (sz2 x) (fun _ t k => at3 x b t k))
      [nth b lengths O] g = Some (y1, g) /\
    forall t k, (t < sz1 x)%nat -> (k < 2 * hidden_size)%nat -> at3 y b t k = at3 y1 O t k.
Proof.
  intros Hty Hh Hl Hp Hin Hi Hlen Hpos Hb.
  destruct (torch_encoder_forward input_size hidden_size num_layers rnn_type drop_prob learned false
              x lengths g Hty Hh Hl Hp Hin Hi Hlen ltac:(lia) Hpos (or_introl eq_refl))
    as (enc & z & Henc & Hf & Hz).
  destruct (torch_encoder_forward input_size hidden_size num_layers rnn_type drop_prob learned false
              (mkT3 1 (sz1 x) (sz2 x) (fun _ t k => at3 x b t k)) [nth b lengths O] g
              Hty Hh Hl Hp Hin Hi eq_refl ltac:(cbn; lia)
              ltac:(intros l [<-|[]]; cbn [sz1]; apply Hpos, nth_In; lia) (or_introl eq_refl))
    as (enc1 & z1 & Henc1 & Hf1 & Hz1).
  rewrite Henc1 in Henc. injection Henc as <-.
  exists enc1, z, z1. split; [exact Henc1|].
  rewrite Hf, Hf1, !dropout_eval by exact Hp. split; [reflexivity|]. split; [reflexivity|].
  intros t k Ht Hk. destruct Hz as (Z0 & Z1 & Z2 & Z), Hz1 as (W0 & W1 & W2 & W).
  cbn in Z0, Z1, Z2, W0, W1, W2.
  rewrite Z, W by (cbn; lia). cbn. reflexivity.
Qed.

(** X15: [RNNEncoder.forward] never reads the padding positions of its input (steps at or after a sequence's length): replacing their values leaves the outcome unchanged, for every encoder, in training as in evaluation mode, and from every state of the random generator. *)
Theorem rnn_encoder_padding_ignored (enc : RNNEncoder) (training : bool) (x : Tensor3 R)
    (lengths : list nat) (junk : nat -> nat -> nat -> R) (g : Gen) :
  RNNEncoder_forward enc training x lengths g =
  RNNEncoder_forward enc training
    (mkT3 (sz0 x) (sz1 x) (sz2 x) (fun b t k =>
       if Nat.ltb t (nth b lengths O) then at3 x b t k else junk b t k)) lengths g.
Proof.
  unfold RNNEncoder_forward. cbn [sz1].
  pose proof (sort_desc_spec lengths) as HSD.
  destruct (sort_desc lengths) as [L I]. destruct HSD as (HLl & HIl & HSS & HIp & HLI).
  assert (Epk : pack_padded_sequence
      (mkT3 (length I) (sz1 x) (sz2 x) (fun b t k => at3 x (nth b I O) t k)) L =
    pack_padded_sequence
      (mkT3 (length I) (sz1 x) (sz2 x) (fun b t k =>
         if Nat.ltb t (nth (nth b I O) lengths O) then at3 x (nth b I O) t k
         else junk (nth b I O) t k)) L).
  { unfold pack_padded_sequence. cbn [sz0 sz1 sz2 at3].
    repeat match goal with |- (if ?c then _ else _) = (if ?c then _ else _) => destruct c end;
      try reflexivity.
    do 2 f_equal. extensionality t. extensionality b. extensionality k.
    destruct (Nat.ltb_spec b (count_gt t L)) as [Hb|]; [|reflexivity].
    assert (HcL : (count_gt t L <= length L)%nat)
      by (unfold count_gt; apply List.filter_length_le).
    assert (HbL : (b < length L)%nat) by lia.
    apply (count_gt_sorted L t b HSS HbL) in Hb.
    rewrite HLl in HbL. rewrite (proj2 (HLI b HbL)) in Hb.
    replace (t <? nth (nth b I O) lengths O)%nat with true by (symmetry; apply Nat.ltb_lt; exact Hb).
    reflexivity. }
  unfold bindM, liftM, index_select0. cbn [sz0 sz1 sz2 at3].
  destruct (forallb _ I); [|reflexivity].
  rewrite <- Epk. reflexivity.
Qed.

(** X16: For an LSTM, RNN or GRU [RNNEncoder] built without error with a positive input size, given one length per sequence, each between 1 and seq_len, the forward pass succeeds and its output is zero at every padding position, in training as in evaluation mode. *)
Theorem rnn_encoder_padding_zero (input_size hidden_size num_layers : nat) (rnn_type : string)
    (drop_prob : R) (learned : string -> nat -> SeqFun) (training : bool) (x : Tensor3 R)
    (lengths : list nat) (g : Gen) :
  In rnn_type ["LSTM"; "RNN"; "GRU"]%string ->
  (0 < hidden_size)%nat -> (0 < num_layers)%nat -> 0 <= drop_prob <= 1 ->
  sz2 x = input_size -> (0 < input_size)%nat -> length lengths = sz0 x -> (0 < sz0 x)%nat ->
  (forall l, In l lengths -> 0 < l <= sz1 x)%nat ->
  exists enc y g',
    RNNEncoder_init input_size hidden_size num_layers rnn_type drop_prob learned = Some enc /\
    RNNEncoder_forward enc training x lengths g = Some (y, g') /\
    forall b t k, (b < sz0 x)%nat -> (nth b lengths O <= t < sz1 x)%nat -> (k < 2 * hidden_size)%nat ->
      at3 y b t k = 0.
Proof.
  intros Hty Hh Hl Hp Hin Hi Hlen Hn Hpos.
  destruct (encoder_init_forward_shape input_size hidden_size num_layers rnn_type drop_prob learned
              training x lengths g ltac:(destruct Hty as [<-|[<-|[<-|[]]]]; cbn; tauto)
              Hh Hl Hp Hin Hi Hlen Hn Hpos)
    as (enc & cell & y & g' & Hinit & _ & _ & _ & _ & _ & _ & _ & _ & Hfw & _ & _ & _ & Yz).
  exists enc, y, g'. split; [exact Hinit|]. split; [exact Hfw|]. exact Yz.
Qed.

(** X17: [RNNEncoder.forward] only reads the first [len(lengths)] sequences of the batch: the rows after them do not change the result. *)
Theorem rnn_encoder_extra_sequences (enc : RNNEncoder) (training : bool) (x : Tensor3 R)
    (lengths : list nat) (g : Gen) :
  (length lengths <= sz0 x)%nat ->
  RNNEncoder_forward enc training x lengths g =
  RNNEncoder_forward enc training (mkT3 (length lengths) (sz1 x) (sz2 x) (at3 x)) lengths g.
Proof.
  intros Hle. unfold RNNEncoder_forward.
  pose proof (sort_desc_idx_perm lengths) as HI.
  destruct (sort_desc lengths) as [L I]. cbn [snd] in HI.
  assert (Hsel : index_select0 x I = index_select0 (mkT3 (length lengths) (sz1 x) (sz2 x) (at3 x)) I).
  { unfold index_select0. cbn [sz0 sz1 sz2 at3].
    assert (Hall : forall n, (length lengths <= n)%nat -> forallb (fun i => (i <? n)%nat) I = true).
    { intros n Hn. apply forallb_forall. intros i Hi. rewrite HI in Hi. apply in_seq in Hi.
      apply Nat.ltb_lt. lia. }
    rewrite (Hall (sz0 x) Hle), (Hall (length lengths) (le_n _)). reflexivity. }
  cbn [sz1]. rewrite Hsel. reflexivity.
Qed.

(** X18: [RNNEncoder.forward] fails on an empty [lengths], on a length of zero, or on more lengths than sequences in the batch. *)
Theorem rnn_encoder_bad_lengths (enc : RNNEncoder) (training : bool) (x : Tensor3 R)
    (lengths : list nat) (g : Gen) :
  lengths = [] \/ In O lengths \/ (sz0 x < length lengths)%nat ->
  RNNEncoder_forward enc training x lengths g = None.
Proof. apply rnn_forward_lengths_fail. Qed.

(** X19: [BiDAFOutput.forward] fails when the mask has no rows or one row of the mask has no position set (a zero length passed to the RNN encoder), whatever the masked softmax. *)
Theorem bidaf_output_empty_context {T : Type} (out : BiDAFOutput)
    (masked_log_softmax : Tensor3 R -> Tensor2 bool -> option T) (training : bool)
    (att mod_ : Tensor3 R) (mask : Tensor2 bool) (g : Gen) :
  t2_rows mask = O \/
  (exists b, (b < t2_rows mask)%nat /\ forall i, (i < t2_cols mask)%nat -> t2_at mask b i = false) ->
  BiDAFOutput_forward out masked_log_softmax training att mod_ mask g = None.
Proof.
  intros Hm. unfold BiDAFOutput_forward, bindM, liftM.
  destruct (Linear_forward (att_linear_1 out) att); [|reflexivity].
  destruct (Linear_forward (mod_linear_1 out) mod_); [|reflexivity].
  destruct (tadd3 _ _); [|reflexivity].
  rewrite rnn_forward_lengths_fail; [reflexivity|].
  unfold mask_sum. destruct Hm as [->|(b & Hb & Hf)]; [left; reflexivity|].
  right; left. apply in_map_iff. exists b. split; [|apply in_seq; lia].
  destruct (List.filter _ _) as [|n ns] eqn:E; [reflexivity|]. exfalso.
  assert (Hn : In n (List.filter (fun i => t2_at mask b i) (seq 0 (t2_cols mask))))
    by (rewrite E; left; reflexivity).
  apply filter_In in Hn as [Hn Ht]. apply in_seq in Hn. rewrite Hf in Ht by lia. discriminate.
Qed.

(** X20: In evaluation mode, [BiDAFOutput] built with a positive [hidden_size] and a dropout probability in [0, 1] computes the start logits as att_linear_1(att) + mod_linear_1(mod) and the end logits as att_linear_2(att) + mod_linear_2(LSTM encoding of mod with the mask's row sums as lengths), then applies the masked log-softmax to each. *)
Theorem bidaf_output_logits {T : Type} (hidden_size : nat) (p : R) (prm : OutputParams)
    (learned : string -> nat -> SeqFun) (masked_log_softmax : Tensor3 R -> Tensor2 bool -> option T)
    (att mod_ : Tensor3 R) (mask : Tensor2 bool) (g : Gen) :
  (0 < hidden_size)%nat -> 0 <= p <= 1 ->
  sz2 att = (8 * hidden_size)%nat -> sz2 mod_ = (2 * hidden_size)%nat ->
  sz0 att = sz0 mod_ -> sz1 att = sz1 mod_ ->
  t2_rows mask = sz0 mod_ -> t2_cols mask = sz1 mod_ -> (0 < sz0 mod_)%nat ->
  (forall b, (b < sz0 mod_)%nat -> exists i, (i < sz1 mod_)%nat /\ t2_at mask b i = true) ->
  exists out L1 L2,
    BiDAFOutput_init hidden_size p prm learned = Some out /\
    BiDAFOutput_forward out masked_log_softmax false att mod_ mask g =
      (let? log_p1 := masked_log_softmax L1 mask in
       let? log_p2 := masked_log_softmax L2 mask in
       Some ((log_p1, log_p2), g)) /\
    teq3 L1 (mkT3 (sz0 mod_) (sz1 mod_) 1 (fun b t _ =>
      (sumR (8 * hidden_size) (fun k => at3 att b t k * fst (att_linear_1_p prm) O k)
         + snd (att_linear_1_p prm) O)
      + (sumR (2 * hidden_size) (fun k => at3 mod_ b t k * fst (mod_linear_1_p prm) O k)
         + snd (mod_linear_1_p prm) O))) /\
    teq3 L2 (mkT3 (sz0 mod_) (sz1 mod_) 1 (fun b t _ =>
      (sumR (8 * hidden_size) (fun k => at3 att b t k * fst (att_linear_2_p prm) O k)
         + snd (att_linear_2_p prm) O)
      + (sumR (2 * hidden_size) (fun k =>
           at3 (encoder_spec (learned "LSTM"%string O) (2 * hidden_size) mod_ (mask_sum mask)) b t k
           * fst (mod_linear_2_p prm) O k)
         + snd (mod_linear_2_p prm) O))).
Proof.
  intros Hh Hp Ha Hm A0 A1 Mr Mc Hn Hrow.
  set (cell := mkRNNCell (2 * hidden_size) (2 * hidden_size) 1 0 (learned "LSTM"%string)).
  set (enc := mkRNNEncoder p (Some cell)).
  assert (Henc : RNNEncoder_init (2 * hidden_size) hidden_size 1 "LSTM" p learned = Some enc).
  { unfold RNNEncoder_init. cbn -[torch_rnn]. rewrite torch_rnn_ok by (lia || lra). reflexivity. }
  set (lin1 n (lp : LinearParams) := mkLinear n 1 (fst lp) (Some (snd lp))).
  set (out := mkBiDAFOutput (lin1 (8 * hidden_size)%nat (att_linear_1_p prm))
                (lin1 (2 * hidden_size)%nat (mod_linear_1_p prm)) enc
                (lin1 (8 * hidden_size)%nat (att_linear_2_p prm))
                (lin1 (2 * hidden_size)%nat (mod_linear_2_p prm))).
  assert (Hout : BiDAFOutput_init hidden_size p prm learned = Some out).
  { unfold BiDAFOutput_init. rewrite Henc. reflexivity. }
  assert (Hpos : forall l, In l (mask_sum mask) -> (0 < l <= sz1 mod_)%nat).
  { intros l Hl. rewrite <- Mc. apply (mask_sum_bounds mask l); [|exact Hl].
    intros b Hb. rewrite Mc. apply Hrow. lia. }
  destruct (rnn_encoder_forward_spec enc cell false mod_ (mask_sum mask) g eq_refl
              ltac:(cbn; symmetry; exact Hm) ltac:(cbn; lia)
              ltac:(rewrite mask_sum_length; exact Mr) Hn ltac:(lia) Hpos (or_introl eq_refl))
    as (z & Hfw & Hz).
  rewrite dropout_eval in Hfw by exact Hp.
  pose proof Hz as (Z0 & Z1 & Z2 & Z). unfold cell in Z0, Z1, Z2. cbn [encoder_spec sz0 sz1 sz2 cell_out] in Z0, Z1, Z2.
  destruct (zip_with3_same Rplus
     (mkT3 (sz0 att) (sz1 att) 1 (fun b i o => sumR (8 * hidden_size) (fun k => at3 att b i k
        * fst (att_linear_1_p prm) o k) + snd (att_linear_1_p prm) o))
     (mkT3 (sz0 mod_) (sz1 mod_) 1 (fun b i o => sumR (2 * hidden_size) (fun k => at3 mod_ b i k
        * fst (mod_linear_1_p prm) o k) + snd (mod_linear_1_p prm) o)))
    as (L1 & HL1 & EL1); cbn; try lia.
  destruct (zip_with3_same Rplus
     (mkT3 (sz0 att) (sz1 att) 1 (fun b i o => sumR (8 * hidden_size) (fun k => at3 att b i k
        * fst (att_linear_2_p prm) o k) + snd (att_linear_2_p prm) o))
     (mkT3 (sz0 z) (sz1 z) 1 (fun b i o => sumR (2 * hidden_size) (fun k => at3 z b i k
        * fst (mod_linear_2_p prm) o k) + snd (mod_linear_2_p prm) o)))
    as (L2 & HL2 & EL2); cbn; try lia.
  exists out, L1, L2. split; [exact Hout|]. split.
  { unfold BiDAFOutput_forward, bindM, liftM, retM.
    rewrite (Linear_forward_ok (att_linear_1 out) att) by (cbn; exact Ha).
    rewrite (Linear_forward_ok (mod_linear_1 out) mod_) by (cbn; exact Hm).
    cbn [out lin1 att_linear_1 mod_linear_1 att_linear_2 mod_linear_2 out_rnn lin_in lin_out lin_w lin_b].
    unfold tadd3. rewrite HL1. cbn [out_rnn]. rewrite Hfw.
    rewrite (Linear_forward_ok _ att) by (cbn; exact Ha).
    rewrite (Linear_forward_ok _ z) by (cbn; lia). cbn [lin_in lin_out lin_w lin_b].
    unfold lin1. cbn [lin_in lin_out lin_w lin_b].
    rewrite HL2. destruct (masked_log_softmax L1 mask); [|reflexivity].
    destruct (masked_log_softmax L2 mask); reflexivity. }
  split.
  - eapply teq3_trans; [exact EL1|]. cbn [sz0 sz1 sz2]. rewrite A0, A1.
    apply teq3_mk_ext. intros b t o Hb Ht Ho. replace o with O by lia. cbn. reflexivity.
  - eapply teq3_trans; [exact EL2|]. cbn [sz0 sz1 sz2]. rewrite A0, A1.
    apply teq3_mk_ext. intros b t o Hb Ht Ho. replace o with O by lia. cbn [at3]. f_equal. f_equal.
    apply sumR_ext_lt. intros k Hk. rewrite Z by lia.
    unfold cell; cbn [cell_run cell_layers cell_out]. rewrite encoder_spec_one_layer. reflexivity.
Qed.

(** X21: [BiDAFOutput.__init__] fails exactly when [hidden_size] is zero; the dropout probability is not checked, since the one-layer LSTM gets dropout 0. *)
Theorem bidaf_output_init_validation (hidden_size : nat) (drop_prob : R) (prm : OutputParams)
    (learned : string -> nat -> SeqFun) :
  BiDAFOutput_init hidden_size drop_prob prm learned = None <-> hidden_size = O.
Proof.
  unfold BiDAFOutput_init, RNNEncoder_init. cbn -[torch_rnn].
  destruct (torch_rnn _ hidden_size 1 _ _) eqn:E.
  - split; [discriminate|]. intros ->. unfold torch_rnn in E.
    destruct (Rlt_dec 0 0); [lra|]. destruct (Rlt_dec 1 0); [lra|]. discriminate.
  - split; [|reflexivity]. intros _. apply torch_rnn_None in E. destruct E as [E|[E|[E|[E|E]]]]; (lra || lia).
Qed.

(** X22: A dropout probability outside [0, 1] makes the forward pass of [Embedding], [EmbeddingChar], [RNNEncoder] and [BiDAFAttention] (including [get_similarity_matrix]) fail. *)
Theorem dropout_prob_out_of_range (p : R) :
  p < 0 \/ 1 < p ->
  (forall word_vectors hidden_size proj_w gate_p transform_p training x g,
     Embedding_forward (Embedding_init word_vectors hidden_size p proj_w gate_p transform_p)
       training x g = None) /\
  (forall word_vectors char_vectors hidden_size prm training x_word x_char g,
     EmbeddingChar_forward (EmbeddingChar_init word_vectors char_vectors hidden_size p prm)
       training x_word x_char g = None) /\
  (forall input_size hidden_size num_layers rnn_type learned enc training x lengths g,
     RNNEncoder_init input_size hidden_size num_layers rnn_type p learned = Some enc ->
     RNNEncoder_forward enc training x lengths g = None) /\
  (forall H cw qw cqw bias training c q c_mask q_mask g,
     get_similarity_matrix (BiDAFAttention_init H p cw qw cqw bias) training c q g = None /\
     BiDAFAttention_forward (BiDAFAttention_init H p cw qw cqw bias) training c q c_mask q_mask g
       = None).
Proof.
  intros Hp. split; [|split; [|split]].
  - intros. unfold Embedding_forward, bindM, liftM; cbn [Embedding_init emb_embed emb_drop_prob].
    destruct (embedding_lookup word_vectors x); [|reflexivity].
    rewrite dropout_bad by exact Hp. reflexivity.
  - intros. unfold EmbeddingChar_forward, bindM, liftM; cbn [EmbeddingChar_init ec_drop_prob].
    destruct (view2_infer_rows _ _); [|reflexivity].
    destruct (embedding_lookup _ _); [|reflexivity].
    destruct (CNN_forward _ _); [|reflexivity].
    destruct (view3_infer_first _ _ _); [|reflexivity].
    destruct (embedding_lookup _ _); [|reflexivity].
    destruct (cat_last _); [|reflexivity].
    rewrite dropout_bad by exact Hp. reflexivity.
  - intros input_size hidden_size num_layers rnn_type learned enc training x lengths g Hi.
    assert (Hd : rnn_drop_prob enc = p).
    { unfold RNNEncoder_init in Hi.
      repeat match type of Hi with
      | (if ?b then _ else _) = _ => destruct b
      | (match ?o with Some _ => _ | None => _ end) = _ => destruct o
      end; first [discriminate | injection Hi as <-; reflexivity]. }
    apply RNNEncoder_forward_bad_drop. rewrite Hd. exact Hp.
  - intros. assert (Hs : get_similarity_matrix (BiDAFAttention_init H p cw qw cqw bias) training c q g = None).
    { unfold get_similarity_matrix, bindM. cbn [BiDAFAttention_init att_drop_prob].
      rewrite dropout_bad by exact Hp. reflexivity. }
    split; [exact Hs|]. unfold BiDAFAttention_forward, bindM. rewrite Hs. reflexivity.
Qed.

(** ** Instances of the further properties *)

(** X1 at a concrete input. *)
Lemma embedding_forward_pipeline_witness :
  exists y g',
    Embedding_forward (Embedding_init (mkT2 5 2 (fun _ _ => 1)) 4 0 (fun _ _ => 1)
                         (fun _ => (fun _ _ => 1, fun _ => 0)) (fun _ => (fun _ _ => 1, fun _ => 0)))
      false (mkT2 2 3 (fun b i => b + i)%nat) (mkGen 0 (fun _ _ _ _ => 0)) = Some (y, g') /\
    sz0 y = 2%nat /\ sz1 y = 3%nat /\ sz2 y = 4%nat.
Proof.
  destruct (embedding_forward_pipeline (mkT2 5 2 (fun _ _ => 1)) 4 0 (fun _ _ => 1)
              (fun _ => (fun _ _ => 1, fun _ => 0)) (fun _ => (fun _ _ => 1, fun _ => 0))
              false (mkT2 2 3 (fun b i => b + i)%nat) (mkGen 0 (fun _ _ _ _ => 0)))
    as (z & g' & y & _ & Hy & Y0 & Y1 & Y2 & _).
  - lra.
  - intros b i Hb Hi. cbn in *. lia.
  - exists y, g'. split; [exact Hy|]. cbn in Y0, Y1. auto.
Defined.

(** X2 at a concrete input. *)
Lemma embedding_forward_bad_index_witness :
  Embedding_forward (Embedding_init (mkT2 5 2 (fun _ _ => 1)) 4 0 (fun _ _ => 1)
                       (fun _ => (fun _ _ => 1, fun _ => 0)) (fun _ => (fun _ _ => 1, fun _ => 0)))
    false (mkT2 1 1 (fun _ _ => 7%nat)) (mkGen 0 (fun _ _ _ _ => 0)) = None.
Proof. apply (embedding_forward_bad_index _ _ _ _ _ _ _ _ 0 0); cbn; lia. Defined.

(** X3 at a concrete input. *)
Lemma embedding_char_forward_pipeline_witness :
  exists y g',
    EmbeddingChar_forward
      (EmbeddingChar_init (mkT2 5 2 (fun _ _ => 1)) (mkT2 10 3 (fun _ _ => 0)) 4 0
         (mkCharEmbParams (mkT2 10 3 (fun _ _ => 1)) (fun _ _ _ => 1) (fun _ => 0)
            (fun _ _ => 1) (fun _ => (fun _ _ => 1, fun _ => 0)) (fun _ => (fun _ _ => 1, fun _ => 0))))
      false (mkT2 2 3 (fun _ _ => 0%nat)) (mkT3 2 3 6 (fun _ _ c => c)) (mkGen 0 (fun _ _ _ _ => 0))
      = Some (y, g') /\
    sz0 y = 2%nat /\ sz1 y = 3%nat /\ sz2 y = 4%nat.
Proof.
  destruct (embedding_char_forward_pipeline (mkT2 5 2 (fun _ _ => 1)) (mkT2 10 3 (fun _ _ => 0)) 4 0
              (mkCharEmbParams (mkT2 10 3 (fun _ _ => 1)) (fun _ _ _ => 1) (fun _ => 0)
                 (fun _ _ => 1) (fun _ => (fun _ _ => 1, fun _ => 0)) (fun _ => (fun _ _ => 1, fun _ => 0)))
              false (mkT2 2 3 (fun _ _ => 0%nat)) (mkT3 2 3 6 (fun _ _ c => c)) (mkGen 0 (fun _ _ _ _ => 0)))
    as (z & g' & y & _ & Hy & Y0 & Y1 & Y2 & _);
    [lra | (try reflexivity; intros; cbn in *; lia) .. |].
  exists y, g'. split; [exact Hy|]. cbn in Y0, Y1. auto.
Defined.

(** X4 at a concrete input. *)
Lemma embedding_char_forward_short_words_witness :
  EmbeddingChar_forward
    (EmbeddingChar_init (mkT2 5 2 (fun _ _ => 1)) (mkT2 10 3 (fun _ _ => 0)) 4 0
       (mkCharEmbParams (mkT2 10 3 (fun _ _ => 1)) (fun _ _ _ => 1) (fun _ => 0)
          (fun _ _ => 1) (fun _ => (fun _ _ => 1, fun _ => 0)) (fun _ => (fun _ _ => 1, fun _ => 0))))
    false (mkT2 1 2 (fun _ _ => 0%nat)) (mkT3 1 2 4 (fun _ _ _ => 0%nat)) (mkGen 0 (fun _ _ _ _ => 0))
  = None.
Proof. apply embedding_char_forward_short_words. cbn. lia. Defined.

(** X5 at a concrete input. *)
Lemma embedding_char_forward_bad_index_witness :
  EmbeddingChar_forward
    (EmbeddingChar_init (mkT2 5 2 (fun _ _ => 1)) (mkT2 10 3 (fun _ _ => 0)) 4 0
       (mkCharEmbParams (mkT2 10 3 (fun _ _ => 1)) (fun _ _ _ => 1) (fun _ => 0)
          (fun _ _ => 1) (fun _ => (fun _ _ => 1, fun _ => 0)) (fun _ => (fun _ _ => 1, fun _ => 0))))
    false (mkT2 1 2 (fun _ _ => 0%nat)) (mkT3 1 2 6 (fun _ s _ => (99 * s)%nat))
    (mkGen 0 (fun _ _ _ _ => 0))
  = None.
Proof.
  apply embedding_char_forward_bad_index. left. exists 0%nat, 1%nat, 0%nat. cbn. lia.
Defined.

(** X6 at a concrete input. *)
Lemma cnn_forward_nonneg_witness :
  exists y,
    CNN_forward (CNN_init 1 1 1 (fun _ _ _ => -1) (fun _ => 0)) (mkT3 1 1 2 (fun _ _ _ => 1)) = Some y /\
    0 <= t2_at y 0 0.
Proof.
  eexists. split; [reflexivity|].
  apply (cnn_forward_nonneg (CNN_init 1 1 1 (fun _ _ _ => -1) (fun _ => 0)) (mkT3 1 1 2 (fun _ _ _ => 1))).
  reflexivity.
Defined.

(** X7 at a concrete input. *)
Lemma highway_forward_nonneg_witness :
  exists y,
    HighwayEncoder_forward (HighwayEncoder_init 2 3 (fun _ => (fun _ _ => -1, fun _ => 0))
                                                  (fun _ => (fun _ _ => 1, fun _ => -5)))
      (mkT3 1 2 3 (fun _ _ _ => 1)) = Some y /\ 0 <= at3 y 0 1 2.
Proof.
  destruct (highway_forward_nonneg 2 3 (fun _ => (fun _ _ => -1, fun _ => 0))
              (fun _ => (fun _ _ => 1, fun _ => -5)) (mkT3 1 2 3 (fun _ _ _ => 1)))
    as (y & Hy & Hnn); [reflexivity|intros; cbn; lra|].
  exists y. split; [exact Hy|]. apply Hnn; cbn; lia.
Defined.

(** X8 at a concrete input. *)
Lemma highway_layer_between_witness :
  exists y,
    HighwayEncoder_forward (HighwayEncoder_init 1 3 (fun _ => (fun _ _ => 1, fun _ => 0))
                                                  (fun _ => (fun _ _ => 1, fun _ => 0)))
      (mkT3 1 2 3 (fun _ _ _ => 1)) = Some y /\ sz0 y = 1%nat /\ sz1 y = 2%nat /\ sz2 y = 3%nat.
Proof.
  destruct (highway_layer_between 3 (fun _ => (fun _ _ => 1, fun _ => 0))
              (fun _ => (fun _ _ => 1, fun _ => 0)) (mkT3 1 2 3 (fun _ _ _ => 1)))
    as (y & Hy & Y0 & Y1 & Y2 & _); [reflexivity|].
  exists y. auto.
Defined.

(** X9 at a concrete input. *)
Lemma highway_forward_width_mismatch_witness :
  HighwayEncoder_forward (HighwayEncoder_init 2 3 (fun _ => (fun _ _ => 1, fun _ => 0))
                                                (fun _ => (fun _ _ => 1, fun _ => 0)))
    (mkT3 1 2 4 (fun _ _ _ => 1)) = None.
Proof. apply highway_forward_width_mismatch; cbn; lia. Defined.

(** X10 at a concrete input. *)
Lemma similarity_matrix_width_mismatch_witness :
  get_similarity_matrix (BiDAFAttention_init 4 0 (fun _ => 1) (fun _ => 1) (fun _ => 1) 0) false
    (mkT3 1 2 3 (fun _ _ _ => 1)) (mkT3 1 2 4 (fun _ _ _ => 1)) (mkGen 0 (fun _ _ _ _ => 0)) = None.
Proof. apply similarity_matrix_width_mismatch. left. cbn. lia. Defined.

(** X11 at a concrete input. *)
Lemma similarity_matrix_query_broadcast_witness :
  exists s,
    get_similarity_matrix (BiDAFAttention_init 2 0 (fun _ => 1) (fun _ => 2) (fun _ => 3) 5) false
      (mkT3 2 1 2 (fun _ _ _ => 1)) (mkT3 1 1 2 (fun _ _ _ => 1)) (mkGen 0 (fun _ _ _ _ => 0))
      = Some (s, mkGen 0 (fun _ _ _ _ => 0)) /\ sz0 s = 2%nat /\ at3 s 1 0 0 = 17.
Proof.
  destruct (similarity_matrix_query_broadcast 2 0 (fun _ => 1) (fun _ => 2) (fun _ => 3) 5
              (mkT3 2 1 2 (fun _ _ _ => 1)) (mkT3 1 1 2 (fun _ _ _ => 1)) (mkGen 0 (fun _ _ _ _ => 0)))
    as (s & Hs & S0 & _ & _ & Hat); try reflexivity; [lra|].
  exists s. split; [exact Hs|]. split; [exact S0|]. rewrite Hat by (cbn; lia). cbn. lra.
Defined.

(** X12 at a concrete input. *)
Lemma bidaf_attention_batch_mismatch_witness :
  BiDAFAttention_forward (BiDAFAttention_init 4 0 (fun _ => 1) (fun _ => 1) (fun _ => 1) 0) false
    (mkT3 2 3 4 (fun _ _ _ => 1)) (mkT3 1 2 4 (fun _ _ _ => 1))
    (mkT2 2 3 (fun _ _ => true)) (mkT2 2 2 (fun _ _ => true)) (mkGen 0 (fun _ _ _ _ => 0)) = None.
Proof. apply bidaf_attention_batch_mismatch. cbn. lia. Defined.

(** X13 at a concrete input. *)
Lemma bidaf_attention_mask_size_witness :
  BiDAFAttention_forward (BiDAFAttention_init 4 0 (fun _ => 1) (fun _ => 1) (fun _ => 1) 0) false
    (mkT3 2 3 4 (fun _ _ _ => 1)) (mkT3 2 2 4 (fun _ _ _ => 1))
    (mkT2 2 2 (fun _ _ => true)) (mkT2 2 2 (fun _ _ => true)) (mkGen 0 (fun _ _ _ _ => 0)) = None.
Proof. apply bidaf_attention_mask_size. left. cbn. lia. Defined.

(** X14 at a concrete input. *)
Lemma rnn_encoder_batch_independent_witness :
  exists enc y y1,
    RNNEncoder_init 2 3 1 "GRU" 0 (fun _ _ _ xs => xs) = Some enc /\
    RNNEncoder_forward enc false (mkT3 2 3 2 (fun b t k => INR (b + t + k))) [1; 3]%nat
      (mkGen 0 (fun _ _ _ _ => 0)) = Some (y, mkGen 0 (fun _ _ _ _ => 0)) /\
    RNNEncoder_forward enc false (mkT3 1 3 2 (fun _ t k => INR (1 + t + k))) [3]%nat
      (mkGen 0 (fun _ _ _ _ => 0)) = Some (y1, mkGen 0 (fun _ _ _ _ => 0)) /\
    at3 y 1 2 5 = at3 y1 0 2 5.
Proof.
  destruct (rnn_encoder_batch_independent 2 3 1 "GRU" 0 (fun _ _ _ xs => xs)
              (mkT3 2 3 2 (fun b t k => INR (b + t + k))) [1; 3]%nat (mkGen 0 (fun _ _ _ _ => 0)) 1
              ltac:(cbn; auto) ltac:(lia) ltac:(lia) ltac:(lra) eq_refl ltac:(lia) eq_refl
              ltac:(intros l Hl; cbn in Hl; cbn; lia) ltac:(cbn; lia))
    as (enc & y & y1 & He & Hy & Hy1 & Hat).
  exists enc, y, y1. split; [exact He|]. split; [exact Hy|]. split; [exact Hy1|].
  apply Hat; cbn; lia.
Defined.

(** X16 at a concrete input. *)
Lemma rnn_encoder_padding_zero_witness :
  exists enc y g',
    RNNEncoder_init 2 3 2 "RNN" (1 / 2) (fun _ _ _ xs => xs) = Some enc /\
    RNNEncoder_forward enc true (mkT3 2 3 2 (fun _ _ _ => 1)) [1; 3]%nat
      (mkGen 0 (fun _ _ _ _ => 0)) = Some (y, g') /\
    at3 y 0 2 5 = 0.
Proof.
  destruct (rnn_encoder_padding_zero 2 3 2 "RNN" (1 / 2) (fun _ _ _ xs => xs) true
              (mkT3 2 3 2 (fun _ _ _ => 1)) [1; 3]%nat (mkGen 0 (fun _ _ _ _ => 0))
              ltac:(cbn; auto) ltac:(lia) ltac:(lia) ltac:(lra) eq_refl ltac:(lia) eq_refl
              ltac:(cbn; lia) ltac:(intros l Hl; cbn in Hl; cbn; lia))
    as (enc & y & g' & He & Hy & Hz).
  exists enc, y, g'. split; [exact He|]. split; [exact Hy|]. apply Hz; cbn; lia.
Defined.

(** X17 at a concrete input. *)
Lemma rnn_encoder_extra_sequences_witness :
  RNNEncoder_forward (mkRNNEncoder 0 (Some (mkRNNCell 2 6 1 0 (fun _ _ xs => xs)))) false
    (mkT3 3 3 2 (fun b _ _ => INR b)) [2; 1]%nat (mkGen 0 (fun _ _ _ _ => 0)) =
  RNNEncoder_forward (mkRNNEncoder 0 (Some (mkRNNCell 2 6 1 0 (fun _ _ xs => xs)))) false
    (mkT3 2 3 2 (fun b _ _ => INR b)) [2; 1]%nat (mkGen 0 (fun _ _ _ _ => 0)).
Proof. apply rnn_encoder_extra_sequences. cbn. lia. Defined.

(** X18 at a concrete input. *)
Lemma rnn_encoder_bad_lengths_witness :
  RNNEncoder_forward (mkRNNEncoder 0 (Some (mkRNNCell 2 6 1 0 (fun _ _ xs => xs)))) false
    (mkT3 2 3 2 (fun _ _ _ => 1)) [0; 2]%nat (mkGen 0 (fun _ _ _ _ => 0)) = None.
Proof. apply rnn_encoder_bad_lengths. right. left. cbn. auto. Defined.

(** X19 at a concrete input. *)
Lemma bidaf_output_empty_context_witness :
  BiDAFOutput_forward (mkBiDAFOutput (mkLinear 8 1 (fun _ _ => 1) (Some (fun _ => 0)))
                         (mkLinear 2 1 (fun _ _ => 1) (Some (fun _ => 0)))
                         (mkRNNEncoder 0 (Some (mkRNNCell 2 2 1 0 (fun _ _ xs => xs))))
                         (mkLinear 8 1 (fun _ _ => 1) (Some (fun _ => 0)))
                         (mkLinear 2 1 (fun _ _ => 1) (Some (fun _ => 0))))
    (fun _ _ => Some tt) false (mkT3 2 3 8 (fun _ _ _ => 1)) (mkT3 2 3 2 (fun _ _ _ => 1))
    (mkT2 2 3 (fun b _ => Nat.eqb b 0)) (mkGen 0 (fun _ _ _ _ => 0)) = None.
Proof.
  apply bidaf_output_empty_context. right. exists 1%nat. split; [cbn; lia|]. intros i _. reflexivity.
Defined.

(** X20 at a concrete input. *)
Lemma bidaf_output_logits_witness :
  exists out,
    BiDAFOutput_init 1 0 (mkOutputParams (fun _ _ => 1, fun _ => 0) (fun _ _ => 1, fun _ => 0)
                            (fun _ _ => 1, fun _ => 0) (fun _ _ => 1, fun _ => 0))
      (fun _ _ _ xs => xs) = Some out /\
    BiDAFOutput_forward out (fun _ _ => Some tt) false (mkT3 1 2 8 (fun _ _ _ => 1))
      (mkT3 1 2 2 (fun _ _ _ => 1)) (mkT2 1 2 (fun _ i => Nat.eqb i 0)) (mkGen 0 (fun _ _ _ _ => 0))
    = Some ((tt, tt), mkGen 0 (fun _ _ _ _ => 0)).
Proof.
  destruct (bidaf_output_logits 1 0 (mkOutputParams (fun _ _ => 1, fun _ => 0) (fun _ _ => 1, fun _ => 0)
              (fun _ _ => 1, fun _ => 0) (fun _ _ => 1, fun _ => 0)) (fun _ _ _ xs => xs)
              (fun _ _ => Some tt) (mkT3 1 2 8 (fun _ _ _ => 1)) (mkT3 1 2 2 (fun _ _ _ => 1))
              (mkT2 1 2 (fun _ i => Nat.eqb i 0)) (mkGen 0 (fun _ _ _ _ => 0))
              ltac:(lia) ltac:(lra) eq_refl eq_refl eq_refl eq_refl eq_refl eq_refl ltac:(cbn; lia)
              ltac:(intros b Hb; exists O; split; [cbn; lia | reflexivity]))
    as (out & L1 & L2 & Ho & Hf & _).
  exists out. split; [exact Ho|]. rewrite Hf. reflexivity.
Defined.

(** X22 at a concrete input. *)
Lemma dropout_prob_out_of_range_witness :
  Embedding_forward (Embedding_init (mkT2 5 2 (fun _ _ => 1)) 4 2 (fun _ _ => 1)
                       (fun _ => (fun _ _ => 1, fun _ => 0)) (fun _ => (fun _ _ => 1, fun _ => 0)))
    false (mkT2 1 1 (fun _ _ => 0%nat)) (mkGen 0 (fun _ _ _ _ => 0)) = None.
Proof. apply (proj1 (dropout_prob_out_of_range 2 ltac:(lra))). Defined.
